(** * element_volume.export.bossdb : the [BossDBUpload] session

    A shallow embedding of [src/element_volume/export/bossdb.py] and the
    properties of its provisioning-and-transfer pipeline.

    Layout of the development:
    - [Py]      : the Python runtime pieces the module relies on (exceptions,
                  [range], slice index adjustment, truthiness of [x or y],
                  the order of paths);
    - [Fnmatch] : the shell patterns of [Path.glob];
    - [Np]      : three-dimensional NumPy arrays as strided views of a buffer;
    - [Intern]  : the four resource descriptors of the remote store and the
                  validation made by their constructors;
    - [World]   : the external collaborators (remote store, image decoder) as
                  oracles over the history of calls, and the state/exception
                  monad used for the methods;
    - the class [BossDBUpload] itself, method by method;
    - the vocabulary of the properties, concrete collaborators and sessions
      on which the methods are run, and the properties. *)

From Stdlib Require Import ZArith List String Ascii Bool Lia Arith.
From Stdlib Require Import Sorted Permutation.
From Equations Require Import Equations.
Import ListNotations.

Local Open Scope string_scope.
Local Open Scope list_scope.
Local Open Scope Z_scope.

(* ===================================================================== *)
(** ** Python runtime *)
(* ===================================================================== *)

Module Py.

(** Exceptions that can travel through the module.  Only subclasses of
    [Exception] are modelled ([KeyboardInterrupt] and [SystemExit] are not
    write failures).  [HTTPError] carries the status code of its response. *)
Inductive exn : Type :=
| HTTPError (status : Z) (msg : string)
| ConnectionError (msg : string)
| DataJointError (msg : string)
| AttributeError (msg : string)
| ValueError (msg : string)
| OtherException (cls msg : string).

(** [isinstance(e, HTTPError)], the test of [except HTTPError:]. *)
Definition is_HTTPError (e : exn) : bool :=
  match e with
  | HTTPError _ _ => true
  | _ => false
  end.

Inductive result (A : Type) : Type :=
| Ok (a : A)
| Raise (e : exn).
Arguments Ok {A} a.
Arguments Raise {A} e.

(** An instance attribute: it does not exist until it is first assigned. *)
Inductive attr (A : Type) : Type :=
| Unset
| Assigned (a : A).
Arguments Unset {A}.
Arguments Assigned {A} a.

(** The values [self._dtype] can hold: [None], a [str] given by the caller,
    or the [numpy.dtype] object of an array, known by its name. *)
Inductive dtype_value : Type :=
| PyNone
| PyStr (s : string)
| NpDtype (name : string).

(** Truthiness of an optional string, as in [dtype or default]: [None] and
    the empty string are falsy. *)
Definition truthy (o : option string) : bool :=
  match o with
  | None => false
  | Some s => negb (String.eqb s EmptyString)
  end.

(** [x or y] where [x] is an optional string: [x] when it is truthy, [y]
    otherwise. *)
Definition or_else (x : option string) (y : dtype_value) : dtype_value :=
  match x with
  | Some s => if truthy x then PyStr s else y
  | None => y
  end.

(** [s.lower()].  Only the ASCII letters are mapped: the result is only ever
    compared with names made of ASCII letters and digits. *)
Definition lower_char (c : ascii) : ascii :=
  let n := nat_of_ascii c in
  if ((65 <=? n) && (n <=? 90))%nat then ascii_of_nat (n + 32) else c.

Fixpoint lower (s : string) : string :=
  match s with
  | EmptyString => EmptyString
  | String c r => String (lower_char c) (lower r)
  end.

(** Number of elements of [range(start, stop, step)] for [step <> 0]. *)
Definition range_length (start stop step : Z) : Z :=
  if 0 <? step then
    if start <? stop then (stop - start - 1) / step + 1 else 0
  else
    if stop <? start then (start - stop - 1) / (- step) + 1 else 0.

(** [range(start, stop, step)], materialised. *)
Definition range (start stop step : Z) : result (list Z) :=
  if step =? 0 then Raise (ValueError "range() arg 3 must not be zero")
  else Ok (map (fun k => start + Z.of_nat k * step)
               (seq 0 (Z.to_nat (range_length start stop step)))).

(** Index adjustment of a slice bound against a sequence of length [len]
    (step 1): negative bounds count from the end, everything is clamped. *)
Definition adjust_index (len i : Z) : Z :=
  if i <? 0 then Z.max 0 (i + len) else Z.min i len.

(** First index and number of elements selected by [seq[start:stop]]. *)
Definition slice_bounds (len start stop : Z) : Z * Z :=
  let a := adjust_index len start in
  let b := adjust_index len stop in
  (a, Z.max 0 (b - a)).

(** [l[start:stop]] on a list. *)
Definition getslice {A : Type} (l : list A) (start stop : Z) : list A :=
  let '(a, n) := slice_bounds (Z.of_nat (List.length l)) start stop in
  firstn (Z.to_nat n) (skipn (Z.to_nat a) l).

(** The components of a path, cut at the separators. *)
Fixpoint parts_from (cur s : string) : list string :=
  match s with
  | EmptyString => [cur]
  | String c r =>
      if Ascii.eqb c "/" then cur :: parts_from EmptyString r
      else parts_from (cur ++ String c EmptyString) r
  end.

Definition parts (p : string) : list string := parts_from EmptyString p.

(** [Path(p).name]: the last component. *)
Definition path_name (p : string) : string := last (parts p) EmptyString.

(** The order of [Path] objects: the lists of components are compared, and
    the components are compared as strings. *)
Fixpoint parts_leb (l1 l2 : list string) : bool :=
  match l1, l2 with
  | [], _ => true
  | _ :: _, [] => false
  | x :: r1, y :: r2 =>
      if String.eqb x y then parts_leb r1 r2 else String.leb x y
  end.

Definition path_leb (p q : string) : bool := parts_leb (parts p) (parts q).

(** Insertion of a path in a list sorted by [path_leb]. *)
Fixpoint insert_sorted (x : string) (l : list string) : list string :=
  match l with
  | [] => [x]
  | y :: r => if path_leb x y then x :: l else y :: insert_sorted x r
  end.

(** [sorted(l)] on paths. *)
Definition sorted (l : list string) : list string :=
  fold_right insert_sorted [] l.

End Py.
Export Py.

(* ===================================================================== *)
(** ** Shell patterns *)
(* ===================================================================== *)

(** The patterns of [fnmatch], which [Path.glob] applies to the names of
    the entries of a directory: [*] stands for any run of characters, [?]
    for one character, [[seq]] for one character of a class and [[!seq]] for
    one character outside it; nothing can be quoted.  A pattern is first cut
    into tokens, as [fnmatch.translate] does. *)
Module Fnmatch.

Inductive token : Type :=
| Star
| AnyChar
| Lit (c : ascii)
| Class (negated : bool) (singles : list ascii) (ranges : list (ascii * ascii))
| Never.

(** The text of a class, up to its closing bracket, and what follows it. *)
Fixpoint until_close (l : list ascii) : option (list ascii * list ascii) :=
  match l with
  | [] => None
  | c :: r =>
      if Ascii.eqb c "]" then Some ([], r)
      else
        match until_close r with
        | Some (stuff, rest) => Some (c :: stuff, rest)
        | None => None
        end
  end.

(** The same from the character after an opening bracket: a leading [!]
    and a [[]]] that comes first belong to the text of the class. *)
Definition find_close (l : list ascii) : option (list ascii * list ascii) :=
  let '(bang, l1) :=
    match l with
    | c :: r => if Ascii.eqb c "!" then ([c], r) else ([], l)
    | [] => ([], l)
    end in
  let '(bracket, l2) :=
    match l1 with
    | c :: r => if Ascii.eqb c "]" then ([c], r) else ([], l1)
    | [] => ([], l1)
    end in
  match until_close l2 with
  | Some (stuff, rest) => Some (bang ++ bracket ++ stuff, rest)
  | None => None
  end.

(** The text of a class is cut at the hyphens that make ranges: the first
    [skip] characters of a chunk are never such a hyphen. *)
Fixpoint split_chunks (skip : nat) (cur l : list ascii) : list (list ascii) :=
  match l with
  | [] => [cur]
  | c :: r =>
      match skip with
      | S n => split_chunks n (cur ++ [c]) r
      | O =>
          if Ascii.eqb c "-" then cur :: split_chunks 2 [] r
          else split_chunks 0 (cur ++ [c]) r
      end
  end.

(** A hyphen that ends the text is an ordinary character of the chunk
    before it. *)
Fixpoint close_chunks (chunks : list (list ascii)) : list (list ascii) :=
  match chunks with
  | [c; []] => [c ++ ["-"%char]]
  | c :: r => c :: close_chunks r
  | [] => []
  end.

Definition last_char (l : list ascii) : ascii := last l zero.
Definition first_char (l : list ascii) : ascii := hd zero l.

(** A range whose first bound is above its second is empty: its two bounds
    are dropped and the chunks around it are joined.  The ranges are examined
    from the last to the first. *)
Fixpoint drop_empty_ranges (chunks : list (list ascii)) : list (list ascii) :=
  match chunks with
  | c0 :: (_ :: _) as r =>
      match drop_empty_ranges r with
      | c1 :: rest =>
          if Ascii.ltb (first_char c1) (last_char c0)
          then (removelast c0 ++ tl c1) :: rest
          else c0 :: c1 :: rest
      | [] => [c0]
      end
  | _ => chunks
  end.

Definition chunks_of (stuff : list ascii) : list (list ascii) :=
  if existsb (Ascii.eqb "-") stuff then
    let skip :=
      match stuff with
      | c :: _ => if Ascii.eqb c "!" then 2%nat else 1%nat
      | [] => 1%nat
      end in
    drop_empty_ranges (close_chunks (split_chunks skip [] stuff))
  else [stuff].

(** The ranges between consecutive chunks: from the last character of one
    to the first character of the next. *)
Fixpoint ranges_of (chunks : list (list ascii)) : list (ascii * ascii) :=
  match chunks with
  | c0 :: (c1 :: _) as r => (last_char c0, first_char c1) :: ranges_of r
  | _ => []
  end.

(** The token of a class: what is left of its text is read as single
    characters and ranges; a leading [!] negates it. *)
Definition class_of (stuff : list ascii) : token :=
  let chunks := chunks_of stuff in
  let singles := List.concat chunks in
  match singles with
  | [] => Never
  | c :: r =>
      if Ascii.eqb c "!" then
        match r with
        | [] => AnyChar
        | _ => Class true r (ranges_of chunks)
        end
      else Class false singles (ranges_of chunks)
  end.

(** The tokens of a pattern; [skip] counts the characters of a class that
    are still to be passed over.  An opening bracket that is never closed is
    an ordinary character. *)
Fixpoint translate (skip : nat) (pat : list ascii) : list token :=
  match pat with
  | [] => []
  | c :: r =>
      match skip with
      | S n => translate n r
      | O =>
          if Ascii.eqb c "*" then Star :: translate 0 r
          else if Ascii.eqb c "?" then AnyChar :: translate 0 r
          else if Ascii.eqb c "[" then
            match find_close r with
            | Some (stuff, _) =>
                class_of stuff :: translate (S (List.length stuff)) r
            | None => Lit c :: translate 0 r
            end
          else Lit c :: translate 0 r
      end
  end.

(** One character against a token other than [Star]. *)
Definition accepts (t : token) (c : ascii) : bool :=
  match t with
  | Star => false
  | AnyChar => true
  | Lit d => Ascii.eqb c d
  | Class negated singles ranges =>
      xorb negated
        (existsb (Ascii.eqb c) singles
         || existsb (fun lh => Ascii.leb (fst lh) c && Ascii.leb c (snd lh))
                    ranges)
  | Never => false
  end.

(** The whole of [s] against the tokens. *)
Fixpoint tmatch (toks : list token) (s : list ascii) {struct toks} : bool :=
  match toks with
  | [] => match s with [] => true | _ :: _ => false end
  | Star :: r =>
      (fix star (s : list ascii) : bool :=
         tmatch r s || match s with [] => false | _ :: s' => star s' end) s
  | t :: r =>
      match s with
      | [] => false
      | c :: s' => accepts t c && tmatch r s'
      end
  end.

(** [fnmatch.fnmatchcase(name, pat)] *)
Definition fnmatch (name pat : string) : bool :=
  tmatch (translate 0 (list_ascii_of_string pat)) (list_ascii_of_string name).

End Fnmatch.
Export Fnmatch.

(* ===================================================================== *)
(** ** NumPy arrays of rank three *)
(* ===================================================================== *)

Module Np.

(** An array is a view of a flat buffer: element [(i, j, k)] lives at
    position [offset + i*s0 + j*s1 + k*s2] of [base] (strides counted in
    items). *)
Record ndarray : Type := mk_ndarray {
  base : list Z;
  offset : Z;
  shape : nat * nat * nat;
  strides : Z * Z * Z;
  dtype : string
}.

Definition dim0 (a : ndarray) : nat := fst (fst (shape a)).
Definition dim1 (a : ndarray) : nat := snd (fst (shape a)).
Definition dim2 (a : ndarray) : nat := snd (shape a).

Definition flat_index (a : ndarray) (i j k : nat) : Z :=
  let '(s0, s1, s2) := strides a in
  offset a + Z.of_nat i * s0 + Z.of_nat j * s1 + Z.of_nat k * s2.

(** [a[i, j, k]], when the position falls inside the buffer. *)
Definition item (a : ndarray) (i j k : nat) : option Z :=
  let p := flat_index a i j k in
  if p <? 0 then None else nth_error (base a) (Z.to_nat p).

Definition item_or_zero (a : ndarray) (i j k : nat) : Z :=
  match item a i j k with
  | Some v => v
  | None => 0
  end.

(** Strides of a row-major array of the given shape. *)
Definition c_strides (sh : nat * nat * nat) : Z * Z * Z :=
  let '(_, d1, d2) := sh in
  (Z.of_nat d1 * Z.of_nat d2, Z.of_nat d2, 1).

(** [a.flags["C_CONTIGUOUS"]]: an array with an empty axis is contiguous;
    otherwise, from the last axis backwards, every axis of length other than
    one must have the stride of a packed row-major array. *)
Definition C_CONTIGUOUS (a : ndarray) : bool :=
  let '(d0, d1, d2) := shape a in
  let '(s0, s1, s2) := strides a in
  if ((d0 =? 0) || (d1 =? 0) || (d2 =? 0))%nat then true
  else
    let ok2 := (d2 =? 1)%nat || (s2 =? 1) in
    let sd1 := Z.of_nat d2 in
    let ok1 := (d1 =? 1)%nat || (s1 =? sd1) in
    let sd0 := sd1 * Z.of_nat d1 in
    let ok0 := (d0 =? 1)%nat || (s0 =? sd0) in
    ok2 && ok1 && ok0.

(** The elements of [a] in row-major order. *)
Definition ravel (a : ndarray) : list Z :=
  flat_map (fun i =>
    flat_map (fun j =>
      map (fun k => item_or_zero a i j k) (seq 0 (dim2 a)))
      (seq 0 (dim1 a)))
    (seq 0 (dim0 a)).

(** A fresh row-major copy. *)
Definition copy_C (a : ndarray) : ndarray :=
  {| base := ravel a;
     offset := 0;
     shape := shape a;
     strides := c_strides (shape a);
     dtype := dtype a |}.

(** [np.ascontiguousarray(a)]: the array itself when it is already
    contiguous, a row-major copy otherwise. *)
Definition ascontiguousarray (a : ndarray) : ndarray :=
  if C_CONTIGUOUS a then a else copy_C a.

(** [a[start:stop]]: a view on the same buffer, cut along the first axis. *)
Definition getslice0 (a : ndarray) (start stop : Z) : ndarray :=
  let '(b, n) := slice_bounds (Z.of_nat (dim0 a)) start stop in
  let '(s0, _, _) := strides a in
  {| base := base a;
     offset := offset a + b * s0;
     shape := (Z.to_nat n, dim1 a, dim2 a);
     strides := strides a;
     dtype := dtype a |}.

(** A decoded two-dimensional image, pixels in row-major order. *)
Record plane : Type := mk_plane {
  rows : nat;
  cols : nat;
  pixels : list Z;
  pdtype : string
}.

Definition same_shape (p q : plane) : bool :=
  ((rows p =? rows q) && (cols p =? cols q))%nat.

(** [np.stack(planes, axis=0)]: refuses an empty list and planes of
    different shapes, and builds a fresh packed array otherwise (the result
    takes the element type of the planes, which [_np_from_images] decodes
    with one and the same dtype argument). *)
Definition stack (l : list plane) : result ndarray :=
  match l with
  | [] => Raise (ValueError "need at least one array to stack")
  | p :: r =>
      if forallb (same_shape p) r then
        Ok {| base := List.concat (map pixels l);
              offset := 0;
              shape := (List.length l, rows p, cols p);
              strides := c_strides (List.length l, rows p, cols p);
              dtype := pdtype p |}
      else Raise (ValueError "all input arrays must have the same shape")
  end.

End Np.
Export Np.

(* ===================================================================== *)
(** ** Resource descriptors of the remote store *)
(* ===================================================================== *)

Module Intern.

(** [float(i)] of an integer.  The module never computes with voxel sizes,
    it only stores and forwards them, so the value is kept as the integer it
    was converted from. *)
Inductive pyfloat : Type :=
| float (i : Z).

Record CollectionResource : Type := {
  col_name : string;
  col_description : string
}.

Record CoordinateFrameResource : Type := {
  cf_name : string;
  cf_description : string;
  x_start : Z;
  x_stop : Z;
  y_start : Z;
  y_stop : Z;
  z_start : Z;
  z_stop : Z;
  x_voxel_size : pyfloat;
  y_voxel_size : pyfloat;
  z_voxel_size : pyfloat
}.

Record ExperimentResource : Type := {
  exp_name : string;
  exp_collection_name : string;
  coord_frame : string;
  exp_description : string
}.

(** [datatype] holds the validated name of the data type; [sources]
    defaults to the empty list. *)
Record ChannelResource : Type := {
  ch_name : string;
  ch_collection_name : string;
  ch_experiment_name : string;
  ch_type : string;
  ch_description : string;
  datatype : string;
  sources : list string
}.

(** The data types a channel accepts. *)
Definition valid_datatypes : list string := ["uint8"; "uint16"; "uint64"].

(** [ChannelResource.validate_datatype(value)]: the value is lower-cased
    and must be one of the valid names.  [None] and a [numpy.dtype] object
    have no method [lower]; the message of the exception names the class of
    the object, which for a dtype object is worded here as NumPy 1.20 to 1.24
    word it. *)
Definition validate_datatype (value : dtype_value) : result string :=
  match value with
  | PyStr s =>
      let lowered := lower s in
      if existsb (String.eqb lowered) valid_datatypes then Ok lowered
      else Raise (ValueError (s ++ " is not a valid data type.")%string)
  | PyNone =>
      Raise (AttributeError "'NoneType' object has no attribute 'lower'")
  | NpDtype n =>
      Raise (AttributeError
        ("'numpy.dtype[" ++ n ++ "]' object has no attribute 'lower'")%string)
  end.

(** [ChannelResource(name, collection_name, experiment_name, type="image",
    description, datatype, sources)]: the constructor validates the data
    type (the type ["image"] is a valid one). *)
Definition new_ChannelResource (name collection_name experiment_name
    description : string) (datatype : dtype_value) (sources : list string)
  : result ChannelResource :=
  match validate_datatype datatype with
  | Raise e => Raise e
  | Ok lowered =>
      Ok {| ch_name := name;
            ch_collection_name := collection_name;
            ch_experiment_name := experiment_name;
            ch_type := "image";
            ch_description := description;
            datatype := lowered;
            sources := sources |}
  end.

Inductive resource : Type :=
| Collection (c : CollectionResource)
| CoordinateFrame (f : CoordinateFrameResource)
| Experiment (e : ExperimentResource)
| Channel (c : ChannelResource).

(** [obj.name] *)
Definition name (r : resource) : string :=
  match r with
  | Collection c => col_name c
  | CoordinateFrame f => cf_name f
  | Experiment e => exp_name e
  | Channel c => ch_name c
  end.

(** The result of [_parse_bossdb_uri]. *)
Record bossdb_uri : Type := {
  collection : string;
  experiment : string;
  channel : string
}.

End Intern.
Export Intern.

(* ===================================================================== *)
(** ** External collaborators and the monad of the methods *)
(* ===================================================================== *)

Module World.

(** Keyword arguments handed to [BossDBInterface] by the [dataset]
    property. *)
Record dataset_args : Type := {
  ds_url : string;
  extents : Z * Z * Z;
  ds_dtype : dtype_value;
  ds_resolution : Z;
  ds_voxel_size : pyfloat * pyfloat * pyfloat;
  ds_voxel_unit : string;
  create_new : bool;
  source_channel : string
}.

(** The key of a cutout assignment: the z, y and x ranges. *)
Definition cutout : Type := (Z * Z) * (Z * Z) * (Z * Z).

Definition z_range (c : cutout) : Z * Z := fst (fst c).

(** Every interaction with a collaborator, with its outcome. *)
Inductive event : Type :=
| EvExists (url : string) (r : bool)
| EvGetProject (obj : resource) (r : result resource)
| EvCreateProject (obj : resource) (r : result resource)
| EvImageOpen (path : string) (r : result plane)
| EvSetItem (ds : dataset_args) (key : cutout) (data : ndarray)
            (r : result unit).

(** The collaborators.  The remote store answers as a function of the
    calls made so far; the file system and the decoder are fixed for the
    session. *)
Record env : Type := {
  _parse_bossdb_uri : string -> result bossdb_uri;
  exists_ : list event -> string -> bool;
  get_project : list event -> resource -> result resource;
  create_project : list event -> resource -> result resource;
  setitem : list event -> dataset_args -> cutout -> ndarray -> result unit;
  Image_open : string -> result plane;
  np_array : plane -> dtype_value -> result plane
}.

End World.
Export World.

(* ===================================================================== *)
(** ** The class [BossDBUpload] *)
(* ===================================================================== *)

(** A local directory: its path, the paths of its entries in the order of
    the listing, and what [Path.glob] yields for a pattern that looks beyond
    the names of these entries (a pattern of several components or with a
    recursive wildcard, resolved against the tree below the directory, which
    is not modelled). *)
Record directory : Type := {
  dir_path : string;
  entries : list string;
  glob_beyond : string -> result (list string)
}.

Fixpoint has_separator (s : string) : bool :=
  match s with
  | EmptyString => false
  | String c r => Ascii.eqb c "/" || has_separator r
  end.

Fixpoint has_double_star (s : string) : bool :=
  match s with
  | EmptyString => false
  | String c r =>
      (Ascii.eqb c "*"
       && match r with
          | String d _ => Ascii.eqb d "*"
          | EmptyString => false
          end)
      || has_double_star r
  end.

(** A pattern of one component without recursive wildcard: it selects among
    the entries of the directory by their names. *)
Definition one_component (pattern : string) : bool :=
  negb (has_separator pattern) && negb (has_double_star pattern).

(** [data_dir.glob("*" + ext)], materialised: the entries whose name matches
    the pattern, in the order of the listing. *)
Definition glob_star (d : directory) (ext : string) : result (list string) :=
  let pattern := ("*" ++ ext)%string in
  if one_component pattern then
    Ok (filter (fun p => fnmatch (path_name p) pattern) (entries d))
  else glob_beyond d pattern.

(** The arguments of the constructor. *)
Module Args.
Record t : Type := {
  url : string;
  data_dir : directory;
  voxel_size : Z * Z * Z;
  voxel_units : string;
  shape_zyx : Z * Z * Z;
  resolution : Z;
  raw_data : option ndarray;
  data_extension : string;
  upload_increment : Z;
  retry_max : Z;
  dtype : option string;
  overwrite : bool
}.
End Args.

(** The dictionary built by the [resources] property. *)
Record resources_dict : Type := {
  r_collection : CollectionResource;
  r_coord_frame : CoordinateFrameResource;
  r_experiment : ExperimentResource;
  r_channel_resource : ChannelResource;
  r_channel : ChannelResource
}.

(** The instance.  [_resources = None] is the empty dictionary; [_dtype] and
    [_image_paths] are assigned late in the constructor. *)
Record BossDBUpload : Type := {
  _url : string;
  url_bits : bossdb_uri;
  _data_dir : directory;
  _voxel_size : pyfloat * pyfloat * pyfloat;
  _voxel_units : string;
  _shape_zyx : Z * Z * Z;
  _resolution : Z;
  _raw_data : option ndarray;
  _data_extension : string;
  _upload_increment : Z;
  _retry_max : Z;
  _overwrite : bool;
  description : string;
  _resources : option resources_dict;
  url_exists : bool;
  _image_paths : attr (list string);
  _dtype : attr dtype_value
}.

Definition set_resources (o : BossDBUpload) (d : resources_dict) : BossDBUpload :=
  {| _url := _url o; url_bits := url_bits o; _data_dir := _data_dir o;
     _voxel_size := _voxel_size o; _voxel_units := _voxel_units o;
     _shape_zyx := _shape_zyx o; _resolution := _resolution o;
     _raw_data := _raw_data o; _data_extension := _data_extension o;
     _upload_increment := _upload_increment o; _retry_max := _retry_max o;
     _overwrite := _overwrite o; description := description o;
     _resources := Some d; url_exists := url_exists o;
     _image_paths := _image_paths o; _dtype := _dtype o |}.

Definition set_image_paths (o : BossDBUpload) (l : list string) : BossDBUpload :=
  {| _url := _url o; url_bits := url_bits o; _data_dir := _data_dir o;
     _voxel_size := _voxel_size o; _voxel_units := _voxel_units o;
     _shape_zyx := _shape_zyx o; _resolution := _resolution o;
     _raw_data := _raw_data o; _data_extension := _data_extension o;
     _upload_increment := _upload_increment o; _retry_max := _retry_max o;
     _overwrite := _overwrite o; description := description o;
     _resources := _resources o; url_exists := url_exists o;
     _image_paths := Assigned l; _dtype := _dtype o |}.

Definition set_dtype (o : BossDBUpload) (d : dtype_value) : BossDBUpload :=
  {| _url := _url o; url_bits := url_bits o; _data_dir := _data_dir o;
     _voxel_size := _voxel_size o; _voxel_units := _voxel_units o;
     _shape_zyx := _shape_zyx o; _resolution := _resolution o;
     _raw_data := _raw_data o; _data_extension := _data_extension o;
     _upload_increment := _upload_increment o; _retry_max := _retry_max o;
     _overwrite := _overwrite o; description := description o;
     _resources := _resources o; url_exists := url_exists o;
     _image_paths := _image_paths o; _dtype := Assigned d |}.

(** *** The monad: the instance and the history of calls are threaded
    through the methods, and both survive a raised exception. *)

Record session : Type := {
  self : BossDBUpload;
  trace : list event
}.

Definition M (A : Type) : Type := session -> session * result A.

Definition ret {A : Type} (a : A) : M A := fun s => (s, Ok a).

Definition raise {A : Type} (e : exn) : M A := fun s => (s, Raise e).

Definition bind {A B : Type} (m : M A) (f : A -> M B) : M B :=
  fun s =>
    match m s with
    | (s', Ok a) => f a s'
    | (s', Raise e) => (s', Raise e)
    end.

Notation "x <- m ;; k" := (bind m (fun x => k))
  (at level 61, m at next level, right associativity).
Notation "m ;;; k" := (bind m (fun _ => k))
  (at level 61, right associativity).

(** Record a call and its outcome. *)
Definition log (s : session) (ev : event) : session :=
  {| self := self s; trace := trace s ++ [ev] |}.

(** Reading and updating the instance. *)
Definition get_self : M BossDBUpload := fun s => (s, Ok (self s)).

Definition modify_self (f : BossDBUpload -> BossDBUpload) : M unit :=
  fun s => ({| self := f (self s); trace := trace s |}, Ok tt).

(** Reading an attribute that may not have been assigned yet. *)
Definition getattr {A : Type} (field : BossDBUpload -> attr A)
    (attr_name : string) : M A :=
  fun s =>
    match field (self s) with
    | Assigned a => (s, Ok a)
    | Unset =>
        (s, Raise (AttributeError
          ("'BossDBUpload' object has no attribute '" ++ attr_name ++ "'")%string))
    end.

(** [for x in l: body(x)] *)
Fixpoint for_in {A : Type} (l : list A) (body : A -> M unit) : M unit :=
  match l with
  | [] => ret tt
  | x :: r => body x ;;; for_in r body
  end.

(** [[f(x) for x in l]] *)
Fixpoint comprehension {A B : Type} (f : A -> M B) (l : list A) : M (list B) :=
  match l with
  | [] => ret []
  | x :: r => y <- f x ;; ys <- comprehension f r ;; ret (y :: ys)
  end.

(** *** Methods *)

(** [_get_or_create(remote, obj)]: fetch the project; on [HTTPError], create
    it.  Any other exception of the fetch, and any exception of the
    creation, leaves the method. *)
Definition _get_or_create (w : env) (obj : resource) : M resource :=
  fun s =>
    let r := get_project w (trace s) obj in
    let s1 := log s (EvGetProject obj r) in
    match r with
    | Ok result => (s1, Ok result)
    | Raise e =>
        if is_HTTPError e then
          let r' := create_project w (trace s1) obj in
          (log s1 (EvCreateProject obj r'), r')
        else (s1, Raise e)
    end.

(** The name given to the coordinate frame. *)
Definition coord_name (o : BossDBUpload) : string :=
  ("CF_" ++ collection (url_bits o) ++ "_" ++ experiment (url_bits o))%string.

(** The descriptors built on the first access to [resources], with [dt]
    the value of [self._dtype]: the two channel constructors validate it. *)
Definition default_resources (o : BossDBUpload) (dt : dtype_value)
  : result resources_dict :=
  match new_ChannelResource (channel (url_bits o)) (collection (url_bits o))
          (experiment (url_bits o)) (description o) dt [] with
  | Raise e => Raise e
  | Ok channel_resource =>
      match new_ChannelResource (channel (url_bits o)) (collection (url_bits o))
              (experiment (url_bits o)) (description o) dt [] with
      | Raise e => Raise e
      | Ok channel =>
          Ok {| r_collection :=
                  {| col_name := collection (url_bits o);
                     col_description := description o |};
                r_coord_frame :=
                  {| cf_name := coord_name o;
                     cf_description := description o;
                     x_start := 0;
                     x_stop := snd (_shape_zyx o);
                     y_start := 0;
                     y_stop := snd (fst (_shape_zyx o));
                     z_start := 0;
                     z_stop := fst (fst (_shape_zyx o));
                     x_voxel_size := snd (_voxel_size o);
                     y_voxel_size := snd (fst (_voxel_size o));
                     z_voxel_size := fst (fst (_voxel_size o)) |};
                r_experiment :=
                  {| exp_name := experiment (url_bits o);
                     exp_collection_name := collection (url_bits o);
                     coord_frame := coord_name o;
                     exp_description := description o |};
                r_channel_resource := channel_resource;
                r_channel := channel |}
      end
  end.

(** The [resources] property: the cached dictionary, built on first use.
    Building it reads [self._dtype], which the channel constructors
    validate; nothing is cached when they raise. *)
Definition resources : M resources_dict :=
  o <- get_self ;;
  match _resources o with
  | Some d => ret d
  | None =>
      dt <- getattr _dtype "_dtype" ;;
      match default_resources o dt with
      | Raise e => raise e
      | Ok d =>
          modify_self (fun o => set_resources o d) ;;;
          ret d
      end
  end.

(** [experiment.coord_frame = v], on the object held by the dictionary. *)
Definition set_coord_frame (v : string) (d : resources_dict) : resources_dict :=
  {| r_collection := r_collection d;
     r_coord_frame := r_coord_frame d;
     r_experiment :=
       {| exp_name := exp_name (r_experiment d);
          exp_collection_name := exp_collection_name (r_experiment d);
          coord_frame := v;
          exp_description := exp_description (r_experiment d) |};
     r_channel_resource := r_channel_resource d;
     r_channel := r_channel d |}.

(** [channel.sources = v], on the object held by the dictionary. *)
Definition set_sources (v : list string) (d : resources_dict) : resources_dict :=
  {| r_collection := r_collection d;
     r_coord_frame := r_coord_frame d;
     r_experiment := r_experiment d;
     r_channel_resource := r_channel_resource d;
     r_channel :=
       {| ch_name := ch_name (r_channel d);
          ch_collection_name := ch_collection_name (r_channel d);
          ch_experiment_name := ch_experiment_name (r_channel d);
          ch_type := ch_type (r_channel d);
          ch_description := ch_description (r_channel d);
          datatype := datatype (r_channel d);
          sources := v |} |}.

(** [try_create_new()] *)
Definition try_create_new (w : env) : M unit :=
  d <- resources ;;
  _get_or_create w (Collection (r_collection d)) ;;;
  d <- resources ;;
  true_coord_frame <- _get_or_create w (CoordinateFrame (r_coord_frame d)) ;;
  d <- resources ;;
  let d := set_coord_frame (name true_coord_frame) d in
  modify_self (fun o => set_resources o d) ;;;
  _get_or_create w (Experiment (r_experiment d)) ;;;
  d <- resources ;;
  channel_resource <- _get_or_create w (Channel (r_channel_resource d)) ;;
  d <- resources ;;
  let d := set_sources [name channel_resource] d in
  modify_self (fun o => set_resources o d) ;;;
  _get_or_create w (Channel (r_channel d)) ;;;
  ret tt.

(** [fetch_images()] *)
Definition fetch_images : M (list string) :=
  o <- get_self ;;
  match glob_star (_data_dir o) (_data_extension o) with
  | Raise e => raise e
  | Ok listing =>
      let image_paths := sorted listing in
      match image_paths with
      | [] =>
          raise (DataJointError
            ("No files found in the specified directory "
             ++ dir_path (_data_dir o) ++ "/*" ++ _data_extension o ++ ".")%string)
      | _ => ret image_paths
      end
  end.

(** The instance as the first assignments of the constructor leave it. *)
Definition new_instance (a : Args.t) (bits : bossdb_uri) (url_exists : bool)
  : BossDBUpload :=
  {| _url := Args.url a;
     url_bits := bits;
     _data_dir := Args.data_dir a;
     _voxel_size := (float (fst (fst (Args.voxel_size a))),
                     float (snd (fst (Args.voxel_size a))),
                     float (snd (Args.voxel_size a)));
     _voxel_units := Args.voxel_units a;
     _shape_zyx := Args.shape_zyx a;
     _resolution := Args.resolution a;
     _raw_data := Args.raw_data a;
     _data_extension := Args.data_extension a;
     _upload_increment := Args.upload_increment a;
     _retry_max := Args.retry_max a;
     _overwrite := Args.overwrite a;
     description := "Uploaded via DataJoint";
     _resources := None;
     url_exists := url_exists;
     _image_paths := Unset;
     _dtype := Unset |}.

(** The part of the constructor that follows the overwrite check. *)
Definition init_tail (w : env) (a : Args.t) : M unit :=
  o <- get_self ;;
  (if negb (url_exists o) then try_create_new w else ret tt) ;;;
  o <- get_self ;;
  match _raw_data o with
  | None =>
      image_paths <- fetch_images ;;
      modify_self (fun o => set_image_paths o image_paths) ;;;
      modify_self (fun o => set_dtype o (or_else (Args.dtype a) PyNone))
  | Some raw =>
      modify_self
        (fun o => set_dtype o (or_else (Args.dtype a) (NpDtype (Np.dtype raw))))
  end.

(** [BossDBUpload(...)], started after the calls of [history]: the calls
    made, and the instance or the exception that leaves the constructor. *)
Definition __init__ (w : env) (a : Args.t) (history : list event)
  : list event * result BossDBUpload :=
  match _parse_bossdb_uri w (Args.url a) with
  | Raise e => (history, Raise e)
  | Ok bits =>
      let ex := exists_ w history (Args.url a) in
      let s := {| self := new_instance a bits ex;
                  trace := history ++ [EvExists (Args.url a) ex] |} in
      if negb (Args.overwrite a) && ex then (trace s, Ok (self s))
      else
        match init_tail w a s with
        | (s', Ok _) => (trace s', Ok (self s'))
        | (s', Raise e) => (trace s', Raise e)
        end
  end.

(** The arguments the [dataset] property hands to [BossDBInterface]. *)
Definition BossDBInterface_args (o : BossDBUpload) (dt : dtype_value)
  : dataset_args :=
  {| ds_url := _url o;
     extents := _shape_zyx o;
     ds_dtype := dt;
     ds_resolution := _resolution o;
     ds_voxel_size := _voxel_size o;
     ds_voxel_unit := _voxel_units o;
     create_new := true;
     source_channel := channel (url_bits o) |}.

(** The [dataset] property. *)
Definition dataset : M dataset_args :=
  o <- get_self ;;
  dt <- getattr _dtype "_dtype" ;;
  ret (BossDBInterface_args o dt).

(** [self.dataset[key] = stack]: one write attempt. *)
Definition dataset_setitem (w : env) (key : cutout) (stack : ndarray) : M unit :=
  ds <- dataset ;;
  fun s =>
    let r := setitem w (trace s) ds key stack in
    (log s (EvSetItem ds key stack r), r).

(** [Image.open(path)] *)
Definition open_image (w : env) (path : string) : M plane :=
  fun s =>
    let r := Image_open w path in
    (log s (EvImageOpen path r), r).

(** [np.array(image, dtype=self._dtype)] *)
Definition decode (w : env) (image : plane) : M plane :=
  dt <- getattr _dtype "_dtype" ;;
  fun s => (s, np_array w image dt).

(** [_np_from_images(i, z_limit)] *)
Definition _np_from_images (w : env) (i z_limit : Z) : M ndarray :=
  image_paths <- getattr _image_paths "_image_paths" ;;
  images <- comprehension (open_image w) (getslice image_paths i z_limit) ;;
  planes <- comprehension (decode w) images ;;
  fun s => (s, Np.stack planes).

(** The [while True] loop of [upload]: write, and on failure count the
    retry and either give up with the exception or try again. *)
Equations? retry_loop (attempt : M unit) (retry_max retry_count : Z)
    (s : session) : session * result unit
    by wf (Z.to_nat (retry_max - retry_count)) lt :=
  retry_loop attempt retry_max retry_count s with attempt s => {
    | (s', Ok _) => (s', Ok tt);
    | (s', Raise e) with Z_gt_le_dec (retry_count + 1) retry_max => {
        | left _ => (s', Raise e);
        | right _ => retry_loop attempt retry_max (retry_count + 1) s' } }.
Proof. lia. Qed.

(** The cutout key of the write of [stack] at depth [i]. *)
Definition cutout_key (i : Z) (stack : ndarray) : cutout :=
  let '(d0, d1, d2) := shape stack in
  ((i, i + Z.of_nat d0), (0, Z.of_nat d1), (0, Z.of_nat d2)).

(** The data of the slab that starts at [i]. *)
Definition read_stack (w : env) (i z_limit : Z) : M ndarray :=
  o <- get_self ;;
  match _raw_data o with
  | Some raw => ret (getslice0 raw i z_limit)
  | None => _np_from_images w i z_limit
  end.

(** The layout normalisation of [upload]. *)
Definition normalize (stack : ndarray) : ndarray :=
  if negb (C_CONTIGUOUS stack) then ascontiguousarray stack else stack.

(** One iteration of the [for] loop of [upload]. *)
Definition upload_step (w : env) (i : Z) : M unit :=
  o <- get_self ;;
  let z_max := fst (fst (_shape_zyx o)) in
  let z_limit := Z.min (i + _upload_increment o) z_max in
  stack <- read_stack w i z_limit ;;
  let stack := normalize stack in
  retry_loop (dataset_setitem w (cutout_key i stack) stack) (_retry_max o) 0.

(** [upload()] *)
Definition upload (w : env) : M unit :=
  o <- get_self ;;
  let z_max := fst (fst (_shape_zyx o)) in
  match range 0 z_max (_upload_increment o) with
  | Raise e => raise e
  | Ok zs => for_in zs (upload_step w)
  end.

(* ===================================================================== *)
(** ** Vocabulary of the properties *)
(* ===================================================================== *)

(** *** Classification of the calls *)

Definition is_write (ev : event) : bool :=
  match ev with
  | EvSetItem _ _ _ _ => true
  | _ => false
  end.

Definition is_fetch (ev : event) : bool :=
  match ev with
  | EvGetProject _ _ => true
  | _ => false
  end.

Definition is_create (ev : event) : bool :=
  match ev with
  | EvCreateProject _ _ => true
  | _ => false
  end.

Definition is_provisioning (ev : event) : bool :=
  is_fetch ev || is_create ev.

Definition is_image_open (ev : event) : bool :=
  match ev with
  | EvImageOpen _ _ => true
  | _ => false
  end.

(** The failed write attempts of one stack, one per exception. *)
Definition failed_writes (ds : dataset_args) (key : cutout) (data : ndarray)
    (errs : list exn) : list event :=
  map (fun e => EvSetItem ds key data (Raise e)) errs.

(** *** Histories *)

(** [s'] is [s] after further calls, all of which satisfy [P]; the instance
    is the same. *)
Definition extends (P : event -> Prop) (s s' : session) : Prop :=
  self s' = self s /\
  exists evs, trace s' = trace s ++ evs /\ Forall P evs.

(** Number of slices the volume source of the instance holds. *)
Definition source_length (o : BossDBUpload) : Z :=
  match _raw_data o with
  | Some raw => Z.of_nat (dim0 raw)
  | None =>
      match _image_paths o with
      | Assigned paths => Z.of_nat (List.length paths)
      | Unset => 0
      end
  end.

(** The [z_limit] of the iteration of [upload] that starts at [i]. *)
Definition z_limit_of (o : BossDBUpload) (i : Z) : Z :=
  Z.min (i + _upload_increment o) (fst (fst (_shape_zyx o))).

(** A write of [upload] for the slab that starts at [i]: the data is
    row-major contiguous, it has as many slices as the source gave for
    [i:z_limit], and the key is computed from that very data. *)
Definition slab_write (o : BossDBUpload) (i : Z) (ev : event) : Prop :=
  match ev with
  | EvSetItem _ key data _ =>
      key = cutout_key i data /\
      C_CONTIGUOUS data = true /\
      Z.of_nat (dim0 data)
      = snd (slice_bounds (source_length o) i (z_limit_of o i))
  | _ => False
  end.

(** What one iteration of [upload] may do for the slab that starts at [i]:
    open images and write that slab. *)
Definition slab_event (o : BossDBUpload) (i : Z) (ev : event) : Prop :=
  match ev with
  | EvImageOpen _ _ => True
  | EvSetItem _ _ _ _ => slab_write o i ev
  | _ => False
  end.

(** The calls [evs] fall into consecutive groups, one per element of [zs]
    and in the order of [zs], the calls of the group of [i] satisfying
    [P i].  Groups may be empty. *)
Fixpoint grouped (P : Z -> event -> Prop) (zs : list Z) (evs : list event)
  : Prop :=
  match zs with
  | [] => evs = []
  | i :: r =>
      exists e1 e2, evs = e1 ++ e2 /\ Forall (P i) e1 /\ grouped P r e2
  end.

(** The z-range that a write of the slab starting at [i] covers: from [i],
    as many slices as the source gave for [i:z_limit]. *)
Definition slab_sent (o : BossDBUpload) (i : Z) : Z * Z :=
  (i, i + snd (slice_bounds (source_length o) i (z_limit_of o i))).

(** The z-ranges of the writes of a history that succeeded, in the order
    of the history. *)
Definition written_ranges (evs : list event) : list (Z * Z) :=
  flat_map (fun ev =>
              match ev with
              | EvSetItem _ key _ (Ok _) => [z_range key]
              | _ => []
              end) evs.

(** *** Slabs *)

(** The slab ranges of the loop of [upload]: each start paired with its
    [z_limit]. *)
Definition slabs (z_max increment : Z) : list (Z * Z) :=
  match range 0 z_max increment with
  | Ok zs => map (fun i => (i, Z.min (i + increment) z_max)) zs
  | Raise _ => []
  end.

(** Consecutive ranges touch: each one starts where the previous stops. *)
Fixpoint chained (from : Z) (l : list (Z * Z)) : Prop :=
  match l with
  | [] => True
  | (a, b) :: r => a = from /\ a < b /\ chained b r
  end.

(** The end of the last range of a list of ranges ([from] if there is
    none). *)
Fixpoint last_stop (from : Z) (l : list (Z * Z)) : Z :=
  match l with
  | [] => from
  | (_, b) :: r => last_stop b r
  end.

(** The length of the last range of a list of ranges. *)
Fixpoint last_length (l : list (Z * Z)) : Z :=
  match l with
  | [] => 0
  | [(a, b)] => b - a
  | _ :: r => last_length r
  end.

(** *** Histories of provisioning *)

(** The calls of one get-or-create of [obj] and its outcome: the project
    was found; or the fetch raised an [HTTPError] and the creation was
    attempted; or the fetch raised something else. *)
Inductive goc_events (obj : resource) : list event -> result resource -> Prop :=
| goc_found (p : resource) :
    goc_events obj [EvGetProject obj (Ok p)] (Ok p)
| goc_created (e : exn) (r : result resource) :
    is_HTTPError e = true ->
    goc_events obj [EvGetProject obj (Raise e); EvCreateProject obj r] r
| goc_failed (e : exn) :
    is_HTTPError e = false ->
    goc_events obj [EvGetProject obj (Raise e)] (Raise e).

(** The histories of [try_create_new] on the dictionary [d]: the five
    get-or-create steps in order, each one started only when the previous one
    has returned.  The experiment sent is that of [d] with, for coordinate
    frame, the name of the project that step two returned; the final channel
    sent is that of [d] with, for sources, the name of the project that step
    four returned and nothing else. *)
Inductive provisioned (d : resources_dict) : list event -> result unit -> Prop :=
| prov_stop_collection (e1 : list event) (x : exn) :
    goc_events (Collection (r_collection d)) e1 (Raise x) ->
    provisioned d e1 (Raise x)
| prov_stop_coord_frame (e1 e2 : list event) (p1 : resource) (x : exn) :
    goc_events (Collection (r_collection d)) e1 (Ok p1) ->
    goc_events (CoordinateFrame (r_coord_frame d)) e2 (Raise x) ->
    provisioned d (e1 ++ e2) (Raise x)
| prov_stop_experiment (e1 e2 e3 : list event) (p1 true_coord_frame : resource)
    (x : exn) :
    goc_events (Collection (r_collection d)) e1 (Ok p1) ->
    goc_events (CoordinateFrame (r_coord_frame d)) e2 (Ok true_coord_frame) ->
    goc_events
      (Experiment
         {| exp_name := exp_name (r_experiment d);
            exp_collection_name := exp_collection_name (r_experiment d);
            coord_frame := name true_coord_frame;
            exp_description := exp_description (r_experiment d) |})
      e3 (Raise x) ->
    provisioned d (e1 ++ e2 ++ e3) (Raise x)
| prov_stop_channel_resource (e1 e2 e3 e4 : list event)
    (p1 true_coord_frame p3 : resource) (x : exn) :
    goc_events (Collection (r_collection d)) e1 (Ok p1) ->
    goc_events (CoordinateFrame (r_coord_frame d)) e2 (Ok true_coord_frame) ->
    goc_events
      (Experiment
         {| exp_name := exp_name (r_experiment d);
            exp_collection_name := exp_collection_name (r_experiment d);
            coord_frame := name true_coord_frame;
            exp_description := exp_description (r_experiment d) |})
      e3 (Ok p3) ->
    goc_events (Channel (r_channel_resource d)) e4 (Raise x) ->
    provisioned d (e1 ++ e2 ++ e3 ++ e4) (Raise x)
| prov_stop_channel (e1 e2 e3 e4 e5 : list event)
    (p1 true_coord_frame p3 channel_resource : resource) (x : exn) :
    goc_events (Collection (r_collection d)) e1 (Ok p1) ->
    goc_events (CoordinateFrame (r_coord_frame d)) e2 (Ok true_coord_frame) ->
    goc_events
      (Experiment
         {| exp_name := exp_name (r_experiment d);
            exp_collection_name := exp_collection_name (r_experiment d);
            coord_frame := name true_coord_frame;
            exp_description := exp_description (r_experiment d) |})
      e3 (Ok p3) ->
    goc_events (Channel (r_channel_resource d)) e4 (Ok channel_resource) ->
    goc_events
      (Channel
         {| ch_name := ch_name (r_channel d);
            ch_collection_name := ch_collection_name (r_channel d);
            ch_experiment_name := ch_experiment_name (r_channel d);
            ch_type := ch_type (r_channel d);
            ch_description := ch_description (r_channel d);
            datatype := datatype (r_channel d);
            sources := [name channel_resource] |})
      e5 (Raise x) ->
    provisioned d (e1 ++ e2 ++ e3 ++ e4 ++ e5) (Raise x)
| prov_done (e1 e2 e3 e4 e5 : list event)
    (p1 true_coord_frame p3 channel_resource p5 : resource) :
    goc_events (Collection (r_collection d)) e1 (Ok p1) ->
    goc_events (CoordinateFrame (r_coord_frame d)) e2 (Ok true_coord_frame) ->
    goc_events
      (Experiment
         {| exp_name := exp_name (r_experiment d);
            exp_collection_name := exp_collection_name (r_experiment d);
            coord_frame := name true_coord_frame;
            exp_description := exp_description (r_experiment d) |})
      e3 (Ok p3) ->
    goc_events (Channel (r_channel_resource d)) e4 (Ok channel_resource) ->
    goc_events
      (Channel
         {| ch_name := ch_name (r_channel d);
            ch_collection_name := ch_collection_name (r_channel d);
            ch_experiment_name := ch_experiment_name (r_channel d);
            ch_type := ch_type (r_channel d);
            ch_description := ch_description (r_channel d);
            datatype := datatype (r_channel d);
            sources := [name channel_resource] |})
      e5 (Ok p5) ->
    provisioned d (e1 ++ e2 ++ e3 ++ e4 ++ e5) (Ok tt).

(** *** Exceptions of the constructor *)

(** The exception of a read of [self._dtype] before its assignment. *)
Definition no_dtype_attribute : exn :=
  AttributeError "'BossDBUpload' object has no attribute '_dtype'".

(** The exception of [fetch_images] on an empty listing. *)
Definition no_files_found (a : Args.t) : exn :=
  DataJointError
    ("No files found in the specified directory "
     ++ dir_path (Args.data_dir a) ++ "/*" ++ Args.data_extension a ++ ".")%string.

(* ===================================================================== *)
(** ** Concrete collaborators and sessions, used to run the methods *)
(* ===================================================================== *)

Definition bits0 : bossdb_uri :=
  {| collection := "col"; experiment := "exp"; channel := "ch" |}.

(** A store where every project already exists and every write succeeds. *)
Definition world_ok : env :=
  {| _parse_bossdb_uri := fun _ => Ok bits0;
     exists_ := fun _ _ => true;
     get_project := fun _ obj => Ok obj;
     create_project := fun _ obj => Ok obj;
     setitem := fun _ _ _ _ => Ok tt;
     Image_open := fun _ => Raise (OtherException "FileNotFoundError" "No such file");
     np_array := fun p _ => Ok p |}.

(** A store whose fetches fail with a server error (status 500) and whose
    creations succeed. *)
Definition world_500 : env :=
  {| _parse_bossdb_uri := fun _ => Ok bits0;
     exists_ := fun _ _ => false;
     get_project := fun _ _ => Raise (HTTPError 500 "Get failed");
     create_project := fun _ obj => Ok obj;
     setitem := fun _ _ _ _ => Ok tt;
     Image_open := fun _ => Raise (OtherException "FileNotFoundError" "No such file");
     np_array := fun p _ => Ok p |}.

(** A store that cannot be reached: fetches fail outside the HTTP layer. *)
Definition world_offline : env :=
  {| _parse_bossdb_uri := fun _ => Ok bits0;
     exists_ := fun _ _ => false;
     get_project := fun _ _ => Raise (ConnectionError "unreachable");
     create_project := fun _ obj => Ok obj;
     setitem := fun _ _ _ _ => Raise (ConnectionError "unreachable");
     Image_open := fun _ => Raise (OtherException "FileNotFoundError" "No such file");
     np_array := fun p _ => Ok p |}.

(** A store whose second call fails with a gateway error and whose other
    writes succeed: on [session0], the first write fails and the retry
    succeeds. *)
Definition world_flaky : env :=
  {| _parse_bossdb_uri := fun _ => Ok bits0;
     exists_ := fun _ _ => true;
     get_project := fun _ obj => Ok obj;
     create_project := fun _ obj => Ok obj;
     setitem := fun history _ _ _ =>
       if (List.length history <? 2)%nat
       then Raise (HTTPError 502 "Bad Gateway") else Ok tt;
     Image_open := fun _ => Raise (OtherException "FileNotFoundError" "No such file");
     np_array := fun p _ => Ok p |}.

Definition collection0 : resource :=
  Collection {| col_name := "col"; col_description := "Uploaded via DataJoint" |}.

(** A 4 x 2 x 1 in-memory volume. *)
Definition raw0 : ndarray :=
  {| base := [1; 2; 3; 4; 5; 6; 7; 8];
     offset := 0;
     shape := (4%nat, 2%nat, 1%nat);
     strides := (2, 1, 1);
     dtype := "uint8" |}.

(** A 2 x 2 x 2 view in column-major order: not contiguous. *)
Definition fortran0 : ndarray :=
  {| base := [1; 2; 3; 4; 5; 6; 7; 8];
     offset := 0;
     shape := (2%nat, 2%nat, 2%nat);
     strides := (1, 2, 4);
     dtype := "uint8" |}.

Definition args0 : Args.t :=
  {| Args.url := "bossdb://col/exp/ch";
     Args.data_dir := {| dir_path := "/data"; entries := ["/data/notes.txt"];
          glob_beyond := fun _ => Ok [] |};
     Args.voxel_size := (3, 2, 1);
     Args.voxel_units := "nanometers";
     Args.shape_zyx := (4, 2, 1);
     Args.resolution := 0;
     Args.raw_data := Some raw0;
     Args.data_extension := ".tif";
     Args.upload_increment := 3;
     Args.retry_max := 2;
     Args.dtype := None;
     Args.overwrite := true |}.

(** The same session without an in-memory volume: a file sequence. *)
Definition args_files (overwrite : bool) : Args.t :=
  {| Args.url := "bossdb://col/exp/ch";
     Args.data_dir := {| dir_path := "/data"; entries := ["/data/notes.txt"];
          glob_beyond := fun _ => Ok [] |};
     Args.voxel_size := (3, 2, 1);
     Args.voxel_units := "nanometers";
     Args.shape_zyx := (4, 2, 1);
     Args.resolution := 0;
     Args.raw_data := None;
     Args.data_extension := ".tif";
     Args.upload_increment := 3;
     Args.retry_max := 2;
     Args.dtype := None;
     Args.overwrite := overwrite |}.

(** The instance the constructor returns for [args0] on an existing
    destination. *)
Definition obj0 : BossDBUpload :=
  set_dtype (new_instance args0 bits0 true) (NpDtype "uint8").

Definition session0 : session :=
  {| self := obj0; trace := [EvExists "bossdb://col/exp/ch" true] |}.

(** The session of [args0] with the dtype given by the caller. *)
Definition args_dtype (dtype : option string) : Args.t :=
  {| Args.url := Args.url args0;
     Args.data_dir := Args.data_dir args0;
     Args.voxel_size := Args.voxel_size args0;
     Args.voxel_units := Args.voxel_units args0;
     Args.shape_zyx := Args.shape_zyx args0;
     Args.resolution := Args.resolution args0;
     Args.raw_data := Args.raw_data args0;
     Args.data_extension := Args.data_extension args0;
     Args.upload_increment := Args.upload_increment args0;
     Args.retry_max := Args.retry_max args0;
     Args.dtype := dtype;
     Args.overwrite := Args.overwrite args0 |}.

(** The instance the constructor returns for it on an existing
    destination, when the caller asks for ["uint8"]. *)
Definition obj_uint8 : BossDBUpload :=
  set_dtype (new_instance (args_dtype (Some "uint8")) bits0 true) (PyStr "uint8").

Definition session_uint8 : session :=
  {| self := obj_uint8; trace := [EvExists "bossdb://col/exp/ch" true] |}.

(** An in-memory volume of 40 slices of one pixel, sent 16 slices at a
    time. *)
Definition raw40 : ndarray :=
  {| base := repeat 7 40;
     offset := 0;
     shape := (40%nat, 1%nat, 1%nat);
     strides := (1, 1, 1);
     dtype := "uint8" |}.

Definition args40 : Args.t :=
  {| Args.url := "bossdb://col/exp/ch";
     Args.data_dir := Args.data_dir args0;
     Args.voxel_size := (3, 2, 1);
     Args.voxel_units := "nanometers";
     Args.shape_zyx := (40, 1, 1);
     Args.resolution := 0;
     Args.raw_data := Some raw40;
     Args.data_extension := EmptyString;
     Args.upload_increment := 16;
     Args.retry_max := 3;
     Args.dtype := None;
     Args.overwrite := true |}.

Definition session40 : session :=
  {| self := set_dtype (new_instance args40 bits0 true) (NpDtype "uint8");
     trace := [EvExists "bossdb://col/exp/ch" true] |}.

(* ===================================================================== *)
(** ** Readings of the specification that the code does not follow *)
(* ===================================================================== *)

(** The specification's "not found" class: the fetch was answered with
    status 404. *)
Definition spec_not_found (e : exn) : bool :=
  match e with
  | HTTPError 404 _ => true
  | _ => false
  end.

(** "Any fetch error other than not-found propagates unchanged and no
    creation is attempted." *)
Definition spec_create_only_on_not_found : Prop :=
  forall (w : env) (obj : resource) (s : session) (e : exn),
    get_project w (trace s) obj = Raise e ->
    spec_not_found e = false ->
    _get_or_create w obj s = (log s (EvGetProject obj (Raise e)), Raise e).

(** "An empty filtered listing of a file-sequence session always raises
    the no-matching-files error at construction." *)
Definition spec_empty_listing_always_raises : Prop :=
  forall (w : env) (a : Args.t) (history : list event) (bits : bossdb_uri),
    _parse_bossdb_uri w (Args.url a) = Ok bits ->
    Args.raw_data a = None ->
    glob_star (Args.data_dir a) (Args.data_extension a) = Ok [] ->
    exists msg, snd (__init__ w a history) = Raise (DataJointError msg).

(** "With [overwrite=True] the constructor always provisions." *)
Definition spec_overwrite_always_provisions : Prop :=
  forall (w : env) (a : Args.t) (history : list event) (bits : bossdb_uri),
    _parse_bossdb_uri w (Args.url a) = Ok bits ->
    Args.overwrite a = true ->
    exists evs,
      fst (__init__ w a history) = history ++ evs /\
      existsb is_provisioning evs = true.

(* ===================================================================== *)
(** ** Further vocabulary and sessions *)
(* ===================================================================== *)

(** The exception of [range] on a zero step. *)
Definition zero_step : exn := ValueError "range() arg 3 must not be zero".

(** Number of write attempts in a history. *)
Definition count_writes (evs : list event) : nat :=
  List.length (filter is_write evs).

(** Number of fetches and of creations in a history. *)
Definition count_fetches (evs : list event) : nat :=
  List.length (filter is_fetch evs).

Definition count_creates (evs : list event) : nat :=
  List.length (filter is_create evs).

(** The stack [upload] sends for the slab that starts at [i] when the
    volume is the in-memory array [raw]. *)
Definition memory_stack (o : BossDBUpload) (raw : ndarray) (i : Z) : ndarray :=
  normalize (getslice0 raw i (z_limit_of o i)).

(** The successful write of that stack. *)
Definition memory_write_ok (o : BossDBUpload) (dt : dtype_value)
    (raw : ndarray) (i : Z) : event :=
  EvSetItem (BossDBInterface_args o dt)
            (cutout_key i (memory_stack o raw i)) (memory_stack o raw i)
            (Ok tt).

(** The reads of the image files [paths], each with what the file system
    answers. *)
Definition image_reads (w : env) (paths : list string) : list event :=
  map (fun p => EvImageOpen p (Image_open w p)) paths.

(** An extension without wildcard character and without separator. *)
Definition plain_char (c : ascii) : bool :=
  negb (Ascii.eqb c "*" || Ascii.eqb c "?" || Ascii.eqb c "[" || Ascii.eqb c "/").

Fixpoint plain_extension (s : string) : bool :=
  match s with
  | EmptyString => true
  | String c r => plain_char c && plain_extension r
  end.

(** Ascending order on paths. *)
Definition path_le (p q : string) : Prop := path_leb p q = true.

(** The session of [args0] with another increment. *)
Definition args_increment (increment : Z) : Args.t :=
  {| Args.url := Args.url args0;
     Args.data_dir := Args.data_dir args0;
     Args.voxel_size := Args.voxel_size args0;
     Args.voxel_units := Args.voxel_units args0;
     Args.shape_zyx := Args.shape_zyx args0;
     Args.resolution := Args.resolution args0;
     Args.raw_data := Args.raw_data args0;
     Args.data_extension := Args.data_extension args0;
     Args.upload_increment := increment;
     Args.retry_max := Args.retry_max args0;
     Args.dtype := Args.dtype args0;
     Args.overwrite := Args.overwrite args0 |}.

Definition session_increment (increment : Z) : session :=
  {| self := set_dtype (new_instance (args_increment increment) bits0 true)
                       (NpDtype "uint8");
     trace := [EvExists "bossdb://col/exp/ch" true] |}.

(** The instance the constructor returns at the overwrite check. *)
Definition session_early_exit : session :=
  {| self := new_instance args0 bits0 true;
     trace := [EvExists "bossdb://col/exp/ch" true] |}.

(** Two decoded 1 x 2 images. *)
Definition plane_a : plane :=
  {| rows := 1; cols := 2; pixels := [10; 11]; pdtype := "uint8" |}.

Definition plane_b : plane :=
  {| rows := 1; cols := 2; pixels := [20; 21]; pdtype := "uint8" |}.

(** A store where every project exists and every write succeeds, over a
    file system that holds two images and a text file that is no image. *)
Definition world_files : env :=
  {| _parse_bossdb_uri := fun _ => Ok bits0;
     exists_ := fun _ _ => true;
     get_project := fun _ obj => Ok obj;
     create_project := fun _ obj => Ok obj;
     setitem := fun _ _ _ _ => Ok tt;
     Image_open := fun p =>
       if String.eqb p "/data/a.tif" then Ok plane_a
       else if String.eqb p "/data/b.tif" then Ok plane_b
       else Raise (OtherException "UnidentifiedImageError"
                                  "cannot identify image file");
     np_array := fun p _ => Ok p |}.

(** A file-sequence session over a directory of three entries. *)
Definition args_dir (extension : string) : Args.t :=
  {| Args.url := "bossdb://col/exp/ch";
     Args.data_dir :=
       {| dir_path := "/data";
          entries := ["/data/b.tif"; "/data/notes.txt"; "/data/a.tif"];
          glob_beyond := fun _ => Ok [] |};
     Args.voxel_size := (3, 2, 1);
     Args.voxel_units := "nanometers";
     Args.shape_zyx := (2, 1, 2);
     Args.resolution := 0;
     Args.raw_data := None;
     Args.data_extension := extension;
     Args.upload_increment := 16;
     Args.retry_max := 2;
     Args.dtype := None;
     Args.overwrite := true |}.

(** The sorted listing of the image files of a session. *)
Definition listing (a : Args.t) : list string :=
  match glob_star (Args.data_dir a) (Args.data_extension a) with
  | Ok l => sorted l
  | Raise _ => []
  end.

(** The instance the constructor returns for [args_dir extension]. *)
Definition session_dir (extension : string) : session :=
  {| self :=
       set_dtype
         (set_image_paths (new_instance (args_dir extension) bits0 true)
            (listing (args_dir extension)))
         PyNone;
     trace := [EvExists "bossdb://col/exp/ch" true] |}.

(* ===================================================================== *)
(** ** Properties *)
(* ===================================================================== *)

(** *** Python runtime, checked on examples *)

Example range_40_16 : range 0 40 16 = Ok [0; 16; 32].
Proof. reflexivity. Qed.

Example range_32_16 : range 0 32 16 = Ok [0; 16].
Proof. reflexivity. Qed.

Example range_neg_step : range 0 (-5) (-2) = Ok [0; -2; -4].
Proof. reflexivity. Qed.

Example getslice_clamps : getslice [1; 2; 3; 4; 5] 3 10 = [4; 5].
Proof. reflexivity. Qed.

Example fnmatch_question_mark :
  map (fun n => fnmatch n "*.t?f") ["a.tif"; "b.taf"; "notes.txt"; "a.tiff"]
  = [true; true; false; false].
Proof. reflexivity. Qed.

Example fnmatch_classes :
  map (fun n => fnmatch n "*.t[a-i]f") ["a.tif"; "a.tzf"] = [true; false] /\
  map (fun n => fnmatch n "*[!0-9].tif") ["a.tif"; "a1.tif"] = [true; false] /\
  map (fun n => fnmatch n "*[z-a]") ["a"; "z"] = [false; false] /\
  map (fun n => fnmatch n "*[.tif") ["a[.tif"; "a.tif"] = [true; false].
Proof. repeat split; reflexivity. Qed.

Example path_order :
  sorted ["/d/a/b"; "/d/a.tif"; "/d/a-b"] = ["/d/a/b"; "/d/a-b"; "/d/a.tif"].
Proof. reflexivity. Qed.

Example validate_datatype_cases :
  validate_datatype (PyStr "uint8") = Ok "uint8" /\
  validate_datatype (PyStr "UInt16") = Ok "uint16" /\
  validate_datatype (PyStr "float32")
  = Raise (ValueError "float32 is not a valid data type.") /\
  validate_datatype PyNone
  = Raise (AttributeError "'NoneType' object has no attribute 'lower'").
Proof. repeat split; reflexivity. Qed.

(** *** The retry loop *)

Lemma retry_loop_eq (attempt : M unit) (retry_max retry_count : Z) (s : session) :
  retry_loop attempt retry_max retry_count s =
  match attempt s with
  | (s', Ok _) => (s', Ok tt)
  | (s', Raise e) =>
      if retry_count + 1 >? retry_max then (s', Raise e)
      else retry_loop attempt retry_max (retry_count + 1) s'
  end.
Proof.
  simp retry_loop.
  destruct (attempt s) as [s' [u|e]]; simpl.
  - reflexivity.
  - destruct (Z_gt_le_dec (retry_count + 1) retry_max) as [H|H]; simpl.
    + destruct (Z.gtb_spec (retry_count + 1) retry_max); [reflexivity|lia].
    + destruct (Z.gtb_spec (retry_count + 1) retry_max); [lia|reflexivity].
Qed.

(** One write attempt of a session whose dtype is assigned. *)
Lemma dataset_setitem_assigned (w : env) (key : cutout) (data : ndarray)
    (o : BossDBUpload) (tr : list event) (dt : dtype_value) :
  _dtype o = Assigned dt ->
  dataset_setitem w key data {| self := o; trace := tr |} =
  let ds := BossDBInterface_args o dt in
  let r := setitem w tr ds key data in
  ({| self := o; trace := tr ++ [EvSetItem ds key data r] |}, r).
Proof.
  intros H. unfold dataset_setitem, dataset, bind, get_self, getattr, ret, log.
  simpl. rewrite H. reflexivity.
Qed.

(** One write attempt of a session whose dtype was never assigned: the
    [dataset] property raises and nothing is sent. *)
Lemma dataset_setitem_unset (w : env) (key : cutout) (data : ndarray)
    (s : session) :
  _dtype (self s) = Unset ->
  exists e, dataset_setitem w key data s = (s, Raise e).
Proof.
  intros H. unfold dataset_setitem, dataset, bind, get_self, getattr, ret.
  simpl. rewrite H. eauto.
Qed.

(** [k] failures within the budget, then a success: the loop stops at the
    success, having sent the same stack [k + 1] times. *)
Lemma retry_loop_recovers (w : env) (key : cutout) (data : ndarray)
    (o : BossDBUpload) (dt : dtype_value) (errs : list exn) :
  _dtype o = Assigned dt ->
  let ds := BossDBInterface_args o dt in
  forall (tr : list event) (retry_count : Z),
  Z.of_nat (List.length errs) + retry_count <= _retry_max o ->
  (forall j e, nth_error errs j = Some e ->
     setitem w (tr ++ failed_writes ds key data (firstn j errs)) ds key data
     = Raise e) ->
  setitem w (tr ++ failed_writes ds key data errs) ds key data = Ok tt ->
  retry_loop (dataset_setitem w key data) (_retry_max o) retry_count
    {| self := o; trace := tr |} =
  ({| self := o;
      trace := tr ++ failed_writes ds key data errs
                  ++ [EvSetItem ds key data (Ok tt)] |}, Ok tt).
Proof.
  intros Hdt ds. induction errs as [|e errs IH]; intros tr rc Hlen Hfail Hok.
  - rewrite retry_loop_eq, (dataset_setitem_assigned _ _ _ _ _ _ Hdt). simpl.
    fold ds. simpl in Hok. rewrite app_nil_r in Hok. rewrite Hok. reflexivity.
  - rewrite retry_loop_eq, (dataset_setitem_assigned _ _ _ _ _ _ Hdt). simpl.
    fold ds. pose proof (Hfail 0%nat e eq_refl) as H0. simpl in H0.
    rewrite app_nil_r in H0. rewrite H0.
    simpl List.length in Hlen.
    destruct (Z.gtb_spec (rc + 1) (_retry_max o)) as [Hgt|Hle]; [lia|].
    rewrite IH.
    + rewrite <- app_assoc. reflexivity.
    + lia.
    + intros j e' Hj. specialize (Hfail (S j) e' Hj). simpl in Hfail.
      rewrite <- app_assoc. exact Hfail.
    + rewrite <- app_assoc. exact Hok.
Qed.

(** *** The get-or-create primitive *)

(** A server error (status 500) on the fetch is not propagated: the
    primitive goes on to create the project. *)
Lemma get_or_create_creates_on_500 : ~ spec_create_only_on_not_found.
Proof.
  intros H.
  specialize (H world_500 collection0 {| self := obj0; trace := [] |}
                (HTTPError 500 "Get failed") eq_refl eq_refl).
  vm_compute in H. discriminate H.
Qed.

(** C1 (amended).  The primitive fetches the project exactly once.  It goes
    on to create it exactly when the fetch raised an [HTTPError], whatever
    its status, and then creates it once and returns or raises what the
    creation does.  A fetch error of any other class leaves the primitive
    unchanged, with no creation attempted, and a successful fetch is returned
    as it is. *)
Theorem get_or_create_create_iff_HTTPError
    (w : env) (obj : resource) (s : session) :
  let r := get_project w (trace s) obj in
  let s' := fst (_get_or_create w obj s) in
  let out := snd (_get_or_create w obj s) in
  exists evs : list event,
    self s' = self s /\
    trace s' = trace s ++ EvGetProject obj r :: evs /\
    filter is_fetch evs = [] /\
    (evs = [] \/
     evs = [EvCreateProject obj
              (create_project w (trace s ++ [EvGetProject obj r]) obj)]) /\
    (evs <> [] <-> exists e, r = Raise e /\ is_HTTPError e = true) /\
    (forall e, r = Raise e -> is_HTTPError e = false ->
       out = Raise e /\ evs = []) /\
    (forall e, r = Raise e -> is_HTTPError e = true ->
       out = create_project w (trace s ++ [EvGetProject obj r]) obj) /\
    (forall p, r = Ok p -> out = Ok p /\ evs = []).
Proof.
  unfold _get_or_create. cbv zeta.
  destruct (get_project w (trace s) obj) as [p|e] eqn:Hr;
    [ exists [] | destruct (is_HTTPError e) eqn:Hc;
      [ exists [EvCreateProject obj
                  (create_project w (trace s ++ [EvGetProject obj (Raise e)]) obj)]
      | exists [] ] ];
    simpl; rewrite <- ?app_assoc; simpl;
    repeat match goal with
           | |- _ /\ _ => split
           | |- _ <-> _ => split
           | |- forall _, _ => intro
           | H : exists _, _ |- _ => destruct H
           | H : _ /\ _ |- _ => destruct H
           | H : Raise _ = Raise _ |- _ => inversion H; clear H; subst
           | H : Ok _ = Ok _ |- _ => inversion H; clear H; subst
           end;
    try congruence; try reflexivity; try discriminate; auto.
  exists e. auto.
Qed.

(** *** Histories only grow *)

Lemma extends_refl (P : event -> Prop) (s : session) : extends P s s.
Proof.
  split; [reflexivity|]. exists []. rewrite app_nil_r. auto.
Qed.

Lemma extends_trans (P : event -> Prop) (s1 s2 s3 : session) :
  extends P s1 s2 -> extends P s2 s3 -> extends P s1 s3.
Proof.
  intros [Hs1 [e1 [Ht1 Hp1]]] [Hs2 [e2 [Ht2 Hp2]]]. split; [congruence|].
  exists (e1 ++ e2). rewrite Ht2, Ht1, app_assoc. split; [reflexivity|].
  apply Forall_app; auto.
Qed.

Lemma extends_weaken (P Q : event -> Prop) (s s' : session) :
  (forall ev, P ev -> Q ev) -> extends P s s' -> extends Q s s'.
Proof.
  intros HPQ [Hs [evs [Ht Hp]]]. split; [exact Hs|]. exists evs.
  split; [exact Ht|]. eapply Forall_impl; eauto.
Qed.

Lemma extends_log (P : event -> Prop) (s : session) (ev : event) :
  P ev -> extends P s (log s ev).
Proof.
  intros H. split; [reflexivity|]. exists [ev]. auto.
Qed.

(** *** Layout normalisation *)

Lemma copy_C_contiguous (a : ndarray) : C_CONTIGUOUS (copy_C a) = true.
Proof.
  unfold C_CONTIGUOUS, copy_C, c_strides. simpl.
  destruct (shape a) as [[d0 d1] d2].
  destruct ((d0 =? 0)%nat || (d1 =? 0)%nat || (d2 =? 0)%nat); [reflexivity|].
  rewrite !Z.eqb_refl, (Z.mul_comm (Z.of_nat d1)), Z.eqb_refl.
  rewrite !orb_true_r. reflexivity.
Qed.

Lemma normalize_contiguous (a : ndarray) : C_CONTIGUOUS (normalize a) = true.
Proof.
  unfold normalize, ascontiguousarray.
  destruct (C_CONTIGUOUS a) eqn:H; simpl; [exact H|apply copy_C_contiguous].
Qed.

(** *** What the transfer loop sends *)

Lemma comprehension_open_extends (w : env) (l : list string) (s : session) :
  extends (fun ev => is_image_open ev = true) s
          (fst (comprehension (open_image w) l s)).
Proof.
  revert s. induction l as [|p l IH]; intros s; simpl.
  - apply extends_refl.
  - unfold bind at 1. unfold open_image at 1.
    destruct (Image_open w p) as [img|e] eqn:Hp; simpl.
    + unfold bind.
      specialize (IH (log s (EvImageOpen p (Ok img)))).
      destruct (comprehension (open_image w) l (log s (EvImageOpen p (Ok img))))
        as [s' [ys|e]]; simpl in *;
        (eapply extends_trans;
           [apply (extends_log _ s (EvImageOpen p (Ok img))); reflexivity
           | exact IH]).
    + apply extends_log. reflexivity.
Qed.

Lemma decode_pure (w : env) (p : plane) (s : session) :
  fst (decode w p s) = s.
Proof.
  unfold decode, bind, getattr. destruct (_dtype (self s)); reflexivity.
Qed.

Lemma comprehension_decode_pure (w : env) (l : list plane) (s : session) :
  fst (comprehension (decode w) l s) = s.
Proof.
  induction l as [|p l IH]; simpl; [reflexivity|].
  unfold bind at 1. pose proof (decode_pure w p s) as Hd.
  destruct (decode w p s) as [s1 [q|e]]; simpl in Hd; subst s1; [|reflexivity].
  unfold bind. destruct (comprehension (decode w) l s) as [s2 [qs|e]];
    simpl in IH; subst s2; reflexivity.
Qed.

Lemma np_from_images_extends (w : env) (i z_limit : Z) (s : session) :
  extends (fun ev => is_image_open ev = true) s
          (fst (_np_from_images w i z_limit s)).
Proof.
  unfold _np_from_images, bind at 1, getattr.
  destruct (_image_paths (self s)) as [|paths]; simpl; [apply extends_refl|].
  unfold bind at 1.
  pose proof (comprehension_open_extends w (getslice paths i z_limit) s) as H.
  destruct (comprehension (open_image w) (getslice paths i z_limit) s)
    as [s1 [imgs|e]]; simpl in H; [|exact H].
  unfold bind. pose proof (comprehension_decode_pure w imgs s1) as Hd.
  destruct (comprehension (decode w) imgs s1) as [s2 [pl|e]];
    simpl in Hd; subst s2; exact H.
Qed.

Lemma read_stack_extends (w : env) (i z_limit : Z) (s : session) :
  extends (fun ev => is_image_open ev = true) s
          (fst (read_stack w i z_limit s)).
Proof.
  unfold read_stack, bind, get_self.
  destruct (_raw_data (self s)); simpl.
  - apply extends_refl.
  - apply np_from_images_extends.
Qed.

Lemma dataset_setitem_extends (w : env) (key : cutout) (data : ndarray)
    (s : session) :
  extends (fun ev => exists ds r, ev = EvSetItem ds key data r) s
          (fst (dataset_setitem w key data s)).
Proof.
  unfold dataset_setitem, dataset, bind, get_self, getattr, ret.
  destruct (_dtype (self s)); simpl.
  - apply extends_refl.
  - apply extends_log. eauto.
Qed.

Lemma retry_loop_extends (P : event -> Prop) (attempt : M unit)
    (retry_max : Z) :
  (forall s, extends P s (fst (attempt s))) ->
  forall (n : nat) (retry_count : Z) (s : session),
    Z.to_nat (retry_max - retry_count) = n ->
    extends P s (fst (retry_loop attempt retry_max retry_count s)).
Proof.
  intros Hatt. induction n as [n IH] using lt_wf_ind.
  intros rc s Hn. rewrite retry_loop_eq. specialize (Hatt s).
  destruct (attempt s) as [s' [u|e]]; simpl in *; [exact Hatt|].
  destruct (Z.gtb_spec (rc + 1) retry_max) as [Hgt|Hle]; simpl; [exact Hatt|].
  eapply extends_trans; [exact Hatt|].
  apply (IH (Z.to_nat (retry_max - (rc + 1)))); [lia|reflexivity].
Qed.

Lemma comprehension_length {A B : Type} (f : A -> M B) (l : list A)
    (s s' : session) (ys : list B) :
  comprehension f l s = (s', Ok ys) -> List.length ys = List.length l.
Proof.
  revert s s' ys. induction l as [|x l IH]; intros s s' ys H; simpl in H.
  - unfold ret in H. inversion H. reflexivity.
  - unfold bind at 1 in H. destruct (f x s) as [s1 [y|e]]; [|discriminate].
    unfold bind at 1 in H.
    destruct (comprehension f l s1) as [s2 [zs|e]] eqn:Hc; [|discriminate].
    unfold ret in H. inversion H. subst. simpl. f_equal. eapply IH; eauto.
Qed.

Lemma stack_dim0 (l : list plane) (a : ndarray) :
  Np.stack l = Ok a -> dim0 a = List.length l.
Proof.
  unfold Np.stack. destruct l as [|p r]; [discriminate|].
  destruct (forallb (same_shape p) r); [|discriminate].
  intros H. inversion H. reflexivity.
Qed.

Lemma getslice_length {A : Type} (l : list A) (start stop : Z) :
  Z.of_nat (List.length (getslice l start stop))
  = snd (slice_bounds (Z.of_nat (List.length l)) start stop).
Proof.
  unfold getslice, slice_bounds, adjust_index. simpl.
  rewrite length_firstn, length_skipn.
  destruct (Z.ltb_spec start 0); destruct (Z.ltb_spec stop 0); lia.
Qed.

Lemma getslice0_dim0 (a : ndarray) (start stop : Z) :
  Z.of_nat (dim0 (getslice0 a start stop))
  = snd (slice_bounds (Z.of_nat (dim0 a)) start stop).
Proof.
  unfold getslice0, slice_bounds. destruct (strides a) as [[s0 s1] s2].
  unfold dim0 at 1. simpl. lia.
Qed.

(** The stack read for a slab has as many slices as the source holds in
    [i:z_limit]. *)
Lemma read_stack_dim0 (w : env) (i z_limit : Z) (s s' : session) (st : ndarray) :
  read_stack w i z_limit s = (s', Ok st) ->
  Z.of_nat (dim0 st) = snd (slice_bounds (source_length (self s)) i z_limit).
Proof.
  unfold read_stack, source_length, bind at 1, get_self.
  destruct (_raw_data (self s)) as [raw|].
  - unfold ret. intros H. inversion H. apply getslice0_dim0.
  - unfold _np_from_images, bind at 1, getattr.
    destruct (_image_paths (self s)) as [|paths]; [discriminate|].
    unfold bind at 1.
    destruct (comprehension (open_image w) (getslice paths i z_limit) s)
      as [s1 [imgs|e]] eqn:Ho; [|discriminate].
    unfold bind.
    destruct (comprehension (decode w) imgs s1) as [s2 [pl|e]] eqn:Hd;
      [|discriminate].
    intros H. inversion H as [[Hs Hst]].
    rewrite (stack_dim0 _ _ Hst), (comprehension_length _ _ _ _ _ Hd),
      (comprehension_length _ _ _ _ _ Ho).
    apply getslice_length.
Qed.

Lemma normalize_shape (a : ndarray) : shape (normalize a) = shape a.
Proof.
  unfold normalize, ascontiguousarray, copy_C.
  destruct (C_CONTIGUOUS a); reflexivity.
Qed.

Lemma upload_step_extends (w : env) (i : Z) (s : session) :
  extends (slab_event (self s) i) s (fst (upload_step w i s)).
Proof.
  unfold upload_step, bind at 1, get_self. unfold bind at 1.
  pose proof (read_stack_extends w i (z_limit_of (self s) i) s) as Hr.
  pose proof (read_stack_dim0 w i (z_limit_of (self s) i) s) as Hd.
  unfold z_limit_of in Hr, Hd.
  destruct (read_stack w i _ s) as [s1 [st|e]]; simpl in Hr.
  - eapply extends_trans.
    + eapply extends_weaken; [|exact Hr].
      intros [] Hev; simpl in *; try discriminate; exact I.
    + eapply retry_loop_extends; [|reflexivity].
      intros s2. eapply extends_weaken; [|apply dataset_setitem_extends].
      intros ev [ds [r Hev]]. subst ev. simpl. split; [reflexivity|].
      split; [apply normalize_contiguous|].
      unfold dim0. rewrite normalize_shape. apply (Hd s1 st eq_refl).
  - simpl. eapply extends_weaken; [|exact Hr].
    intros [] Hev; simpl in *; try discriminate; exact I.
Qed.

Lemma upload_step_self (w : env) (i : Z) (s : session) :
  self (fst (upload_step w i s)) = self s.
Proof. apply (upload_step_extends w i s). Qed.

Lemma grouped_nil (P : Z -> event -> Prop) (zs : list Z) : grouped P zs [].
Proof.
  induction zs as [|i zs IH]; simpl; [reflexivity|].
  exists [], []. auto.
Qed.

Lemma grouped_weaken (P Q : Z -> event -> Prop) (zs : list Z) (evs : list event) :
  (forall i ev, In i zs -> P i ev -> Q i ev) ->
  grouped P zs evs -> grouped Q zs evs.
Proof.
  revert evs. induction zs as [|i zs IH]; intros evs HPQ H; simpl in *;
    [exact H|].
  destruct H as [e1 [e2 [He [H1 H2]]]]. exists e1, e2. split; [exact He|].
  split.
  - eapply Forall_impl; [|exact H1]. intros ev. apply HPQ. left. reflexivity.
  - apply IH; [|exact H2]. intros j ev Hj. apply HPQ. right. exact Hj.
Qed.

Lemma grouped_Forall (P : Z -> event -> Prop) (zs : list Z) (evs : list event) :
  grouped P zs evs -> Forall (fun ev => exists i, In i zs /\ P i ev) evs.
Proof.
  revert evs. induction zs as [|i zs IH]; intros evs H; simpl in *.
  - subst evs. constructor.
  - destruct H as [e1 [e2 [He [H1 H2]]]]. subst evs. apply Forall_app. split.
    + eapply Forall_impl; [|exact H1]. intros ev Hev. exists i. auto.
    + eapply Forall_impl; [|apply IH; exact H2].
      intros ev [j [Hj Hev]]. exists j. auto.
Qed.

(** The iterations of the loop leave the instance as it is, and their calls
    come slab after slab, in the order of the loop. *)
Lemma for_in_upload_grouped (w : env) (zs : list Z) (s : session) :
  self (fst (for_in zs (upload_step w) s)) = self s /\
  exists evs,
    trace (fst (for_in zs (upload_step w) s)) = trace s ++ evs /\
    grouped (slab_event (self s)) zs evs.
Proof.
  revert s. induction zs as [|i zs IH]; intros s; simpl.
  - split; [reflexivity|]. exists []. rewrite app_nil_r. auto.
  - unfold bind. destruct (upload_step_extends w i s) as [Hself [e1 [Ht1 Hp1]]].
    destruct (upload_step w i s) as [s1 [u|e]]; simpl in *.
    + destruct (IH s1) as [Hself2 [e2 [Ht2 Hp2]]]. split; [congruence|].
      exists (e1 ++ e2). rewrite Ht2, Ht1, app_assoc. split; [reflexivity|].
      exists e1, e2. rewrite Hself in Hp2. auto.
    + split; [exact Hself|]. exists e1. split; [exact Ht1|].
      exists e1, []. rewrite app_nil_r. split; [reflexivity|].
      split; [exact Hp1|apply grouped_nil].
Qed.

(** Whatever the collaborators answer, [upload] leaves the instance as it
    is and only opens images and writes slabs of its loop, slab after slab,
    each write with a contiguous stack and the key of that stack. *)
Lemma upload_grouped (w : env) (s : session) :
  self (fst (upload w s)) = self s /\
  exists zs evs,
    (range 0 (fst (fst (_shape_zyx (self s)))) (_upload_increment (self s)) = Ok zs
     \/ zs = []) /\
    trace (fst (upload w s)) = trace s ++ evs /\
    grouped (slab_event (self s)) zs evs.
Proof.
  unfold upload, bind, get_self.
  destruct (range 0 (fst (fst (_shape_zyx (self s)))) (_upload_increment (self s)))
    as [zs|e] eqn:Hr.
  - destruct (for_in_upload_grouped w zs s) as [Hself [evs [Ht Hg]]].
    split; [exact Hself|]. exists zs, evs. auto.
  - simpl. split; [reflexivity|]. exists [], []. rewrite app_nil_r. simpl. auto.
Qed.

(** *** The slabs of the transfer loop *)

Section Slabs.

Variables depth increment : Z.
Hypothesis depth_pos : 0 < depth.
Hypothesis increment_pos : 0 < increment.

Let count : nat := Z.to_nat ((depth - 1) / increment + 1).

Let slab_at (k : nat) : Z * Z :=
  (0 + Z.of_nat k * increment,
   Z.min (0 + Z.of_nat k * increment + increment) depth).

Lemma range_starts :
  range 0 depth increment
  = Ok (map (fun k => 0 + Z.of_nat k * increment) (seq 0 count)).
Proof.
  unfold range, range_length.
  destruct (Z.eqb_spec increment 0) as [H|_]; [lia|].
  destruct (Z.ltb_spec 0 increment) as [_|H]; [|lia].
  destruct (Z.ltb_spec 0 depth) as [_|H]; [|lia].
  rewrite Z.sub_0_r. reflexivity.
Qed.

Lemma slabs_eq : slabs depth increment = map slab_at (seq 0 count).
Proof.
  unfold slabs. rewrite range_starts, map_map. reflexivity.
Qed.

Lemma count_bounds :
  (Z.of_nat count - 1) * increment < depth <= Z.of_nat count * increment.
Proof.
  unfold count.
  assert (0 <= (depth - 1) / increment) by (apply Z.div_pos; lia).
  rewrite Z2Nat.id by lia.
  pose proof (Z.div_mod (depth - 1) increment ltac:(lia)) as Hdm.
  pose proof (Z.mod_pos_bound (depth - 1) increment increment_pos) as Hb.
  nia.
Qed.

Lemma count_pos : (0 < count)%nat.
Proof.
  pose proof count_bounds. destruct count; [simpl in *; lia|lia].
Qed.

Lemma chained_seq (m n : nat) :
  (Z.of_nat (m + n) - 1) * increment < depth ->
  chained (Z.of_nat m * increment) (map slab_at (seq m n)).
Proof.
  revert m. induction n as [|n IH]; intros m Hlt; simpl; [exact I|].
  assert (Hm : Z.of_nat m * increment < depth) by nia.
  split; [lia|]. split; [lia|].
  destruct n as [|n]; [exact I|].
  assert (Hs : Z.of_nat (S m) * increment < depth) by nia.
  assert (Heq : Z.min (Z.of_nat m * increment + increment) depth
                = Z.of_nat (S m) * increment) by nia.
  rewrite Heq. apply IH.
  replace (S m + S n)%nat with (m + S (S n))%nat by lia. exact Hlt.
Qed.

Lemma last_stop_seq (m n : nat) (from : Z) :
  (0 < n)%nat ->
  last_stop from (map slab_at (seq m n))
  = Z.min (Z.of_nat (m + n) * increment) depth.
Proof.
  revert m from. induction n as [|n IH]; intros m from Hn; [lia|].
  simpl. destruct n as [|n].
  - simpl. f_equal. lia.
  - rewrite IH by lia. f_equal. nia.
Qed.

Lemma last_length_seq (m n : nat) :
  (0 < n)%nat ->
  last_length (map slab_at (seq m n))
  = Z.min (Z.of_nat (m + n) * increment) depth
    - (Z.of_nat (m + n) - 1) * increment.
Proof.
  revert m. induction n as [|n IH]; intros m Hn; [lia|].
  destruct n as [|n].
  - simpl. nia.
  - change (last_length (map slab_at (seq m (S (S n)))))
      with (last_length (map slab_at (seq (S m) (S n)))).
    rewrite IH by lia. replace (S m + S n)%nat with (m + S (S n))%nat by lia.
    reflexivity.
Qed.

Lemma slabs_chained : chained 0 (slabs depth increment).
Proof.
  rewrite slabs_eq. apply (chained_seq 0 count). pose proof count_bounds. nia.
Qed.

Lemma slabs_last_stop : last_stop 0 (slabs depth increment) = depth.
Proof.
  rewrite slabs_eq, last_stop_seq by apply count_pos.
  pose proof count_bounds. simpl. lia.
Qed.

Lemma slabs_last_length :
  last_length (slabs depth increment)
  = if depth mod increment =? 0 then increment else depth mod increment.
Proof.
  rewrite slabs_eq, last_length_seq by apply count_pos. simpl.
  pose proof count_bounds as Hc.
  pose proof (Z.div_mod depth increment ltac:(lia)) as Hdm.
  pose proof (Z.mod_pos_bound depth increment increment_pos) as Hb.
  set (c := Z.of_nat count) in *.
  set (q := depth / increment) in *.
  set (r := depth mod increment) in *.
  rewrite Z.min_r by lia.
  destruct (Z.eqb_spec r 0) as [H0|H0].
  - assert (c - 1 < q) by nia. assert (q <= c) by nia.
    assert (c = q) by lia. subst c. nia.
  - assert (c - 1 < q + 1) by nia. assert (q < c) by nia.
    assert (Hcq : c = q + 1) by lia. rewrite Hcq. nia.
Qed.

Lemma slabs_shape (ab : Z * Z) :
  In ab (slabs depth increment) ->
  0 <= fst ab < depth /\
  snd ab = Z.min (fst ab + increment) depth /\
  0 < snd ab - fst ab <= increment.
Proof.
  rewrite slabs_eq. intros H. apply in_map_iff in H.
  destruct H as [k [Hk Hin]]. apply in_seq in Hin. subst ab. simpl.
  pose proof count_bounds. assert (Z.of_nat k * increment < depth) by nia.
  lia.
Qed.

End Slabs.

Lemma chained_last_stop (l : list (Z * Z)) :
  forall from, chained from l -> from <= last_stop from l.
Proof.
  induction l as [|[a b] l IH]; intros from Hc; simpl in *; [lia|].
  destruct Hc as [Ha [Hab Hc]]. subst a. specialize (IH b Hc). lia.
Qed.

(** A chain of ranges covers exactly the interval from its start to its
    last stop, and no point lies in two of its ranges. *)
Lemma chained_covers (l : list (Z * Z)) :
  forall from z,
    chained from l ->
    (from <= z < last_stop from l <->
     exists ab, In ab l /\ fst ab <= z < snd ab).
Proof.
  induction l as [|[a b] l IH]; intros from z Hc; simpl in *.
  - split; [lia|]. intros [ab [[] _]].
  - destruct Hc as [Ha [Hab Hc]]. subst a. specialize (IH b z Hc).
    pose proof (chained_last_stop l b Hc) as Hmono.
    split.
    + intros Hz. destruct (Z_lt_le_dec z b) as [Hlt|Hge].
      * exists (from, b). simpl. split; [left; reflexivity|lia].
      * destruct (proj1 IH ltac:(lia)) as [ab [Hin Hz']].
        exists ab. split; [right; exact Hin|exact Hz'].
    + intros [ab [[Heq|Hin] Hz]].
      * subst ab. simpl in Hz. lia.
      * assert (b <= z < last_stop b l) by (apply IH; eauto). lia.
Qed.

Lemma chained_lower (l : list (Z * Z)) :
  forall from ab, chained from l -> In ab l -> from <= fst ab /\ fst ab < snd ab.
Proof.
  induction l as [|[a b] l IH]; intros from ab Hc Hin; simpl in *; [tauto|].
  destruct Hc as [Ha [Hab Hc]]. subst a. destruct Hin as [Heq|Hin].
  - subst ab. simpl. lia.
  - specialize (IH b ab Hc Hin). lia.
Qed.

Lemma chained_disjoint (l : list (Z * Z)) :
  forall from z ab ab',
    chained from l -> In ab l -> In ab' l ->
    fst ab <= z < snd ab -> fst ab' <= z < snd ab' -> ab = ab'.
Proof.
  induction l as [|[a b] l IH]; intros from z ab ab' Hc Hin Hin' Hz Hz';
    simpl in *; [tauto|].
  destruct Hc as [Ha [Hab Hc]]. subst a.
  destruct Hin as [Heq|Hin]; destruct Hin' as [Heq'|Hin'].
  - congruence.
  - subst ab. simpl in Hz. pose proof (chained_lower l b ab' Hc Hin'). lia.
  - subst ab'. simpl in Hz'. pose proof (chained_lower l b ab Hc Hin). lia.
  - eapply IH; eauto.
Qed.

Lemma source_length_nonneg (o : BossDBUpload) : 0 <= source_length o.
Proof.
  unfold source_length. destruct (_raw_data o); [lia|].
  destruct (_image_paths o); lia.
Qed.

Lemma z_range_cutout_key (i : Z) (data : ndarray) :
  z_range (cutout_key i data) = (i, i + Z.of_nat (dim0 data)).
Proof.
  unfold cutout_key, z_range, dim0. destruct (shape data) as [[d0 d1] d2].
  reflexivity.
Qed.

Lemma slice_bounds_inside (len a b : Z) :
  0 <= len -> 0 <= a < b ->
  snd (slice_bounds len a b) <= b - a /\
  (b <= len -> snd (slice_bounds len a b) = b - a).
Proof.
  intros Hlen Hab. unfold slice_bounds, adjust_index. simpl.
  destruct (Z.ltb_spec a 0); destruct (Z.ltb_spec b 0); lia.
Qed.

(** *** Running the loop slab by slab *)

Lemma for_in_app {A : Type} (l1 l2 : list A) (body : A -> M unit) (s : session) :
  for_in (l1 ++ l2) body s =
  match for_in l1 body s with
  | (s1, Ok _) => for_in l2 body s1
  | (s1, Raise e) => (s1, Raise e)
  end.
Proof.
  revert s. induction l1 as [|x l1 IH]; intros s; simpl; [reflexivity|].
  unfold bind. destruct (body x s) as [s1 [u|e]]; [apply IH|reflexivity].
Qed.

Lemma for_in_self (w : env) (zs : list Z) (s s' : session) (r : result unit) :
  for_in zs (upload_step w) s = (s', r) -> self s' = self s.
Proof.
  intros H. pose proof (proj1 (for_in_upload_grouped w zs s)) as Hs.
  rewrite H in Hs. exact Hs.
Qed.

Lemma read_stack_self (w : env) (i z_limit : Z) (s s' : session)
    (r : result ndarray) :
  read_stack w i z_limit s = (s', r) -> self s' = self s.
Proof.
  intros H. pose proof (proj1 (read_stack_extends w i z_limit s)) as Hs.
  rewrite H in Hs. exact Hs.
Qed.

(** Once the stack of a slab is read, the iteration is the retry loop on
    the normalised stack: the stack is read and normalised once, outside
    the loop. *)
Lemma upload_step_read (w : env) (i : Z) (s s' : session) (st : ndarray) :
  read_stack w i (z_limit_of (self s) i) s = (s', Ok st) ->
  upload_step w i s =
  retry_loop (dataset_setitem w (cutout_key i (normalize st)) (normalize st))
             (_retry_max (self s)) 0 s'.
Proof.
  intros H. unfold upload_step, bind at 1, get_self. unfold bind at 1.
  unfold z_limit_of in H. rewrite H. reflexivity.
Qed.

(** A read that fails ends the iteration at once: nothing is written. *)
Lemma upload_step_read_fails (w : env) (i : Z) (s s' : session) (e : exn) :
  read_stack w i (z_limit_of (self s) i) s = (s', Raise e) ->
  upload_step w i s = (s', Raise e).
Proof.
  intros H. unfold upload_step, bind at 1, get_self. unfold bind at 1.
  unfold z_limit_of in H. rewrite H. reflexivity.
Qed.

(** When every attempt fails, the loop gives up after the attempt that
    takes the count past [retry_max], with the exception of that attempt. *)
Lemma retry_loop_exhausts (w : env) (key : cutout) (data : ndarray)
    (o : BossDBUpload) (dt : dtype_value) :
  _dtype o = Assigned dt ->
  let ds := BossDBInterface_args o dt in
  (forall history, exists e, setitem w history ds key data = Raise e) ->
  forall (n : nat) (retry_count : Z) (tr : list event),
    retry_count <= _retry_max o ->
    n = Z.to_nat (_retry_max o - retry_count) ->
    exists errs e_last,
      List.length errs = n /\
      retry_loop (dataset_setitem w key data) (_retry_max o) retry_count
        {| self := o; trace := tr |} =
      ({| self := o;
          trace := tr ++ failed_writes ds key data (errs ++ [e_last]) |},
       Raise e_last).
Proof.
  intros Hdt ds Hfail. induction n as [|n IH]; intros rc tr Hrc Hn;
    rewrite retry_loop_eq, (dataset_setitem_assigned _ _ _ _ _ _ Hdt);
    simpl; fold ds; destruct (Hfail tr) as [e He]; rewrite He;
    destruct (Z.gtb_spec (rc + 1) (_retry_max o)) as [Hgt|Hle]; try lia.
  - exists [], e. split; reflexivity.
  - destruct (IH (rc + 1) (tr ++ [EvSetItem ds key data (Raise e)])
                ltac:(lia) ltac:(lia)) as [errs [e_last [Hlen Hrun]]].
    exists (e :: errs), e_last. split; [simpl; congruence|].
    rewrite Hrun, <- app_assoc. reflexivity.
Qed.

(** With no budget left (in particular with a negative [retry_max]), the
    first failure is final: one attempt is made. *)
Lemma retry_loop_no_budget (w : env) (key : cutout) (data : ndarray)
    (o : BossDBUpload) (dt : dtype_value) (tr : list event)
    (retry_count : Z) (e : exn) :
  _dtype o = Assigned dt ->
  let ds := BossDBInterface_args o dt in
  setitem w tr ds key data = Raise e ->
  _retry_max o < retry_count + 1 ->
  retry_loop (dataset_setitem w key data) (_retry_max o) retry_count
    {| self := o; trace := tr |} =
  ({| self := o; trace := tr ++ [EvSetItem ds key data (Raise e)] |}, Raise e).
Proof.
  intros Hdt ds He Hlt.
  rewrite retry_loop_eq, (dataset_setitem_assigned _ _ _ _ _ _ Hdt). simpl.
  fold ds. rewrite He.
  destruct (Z.gtb_spec (retry_count + 1) (_retry_max o)); [reflexivity|lia].
Qed.

Lemma NoDup_app_disjoint {A : Type} (l1 l2 : list A) (x : A) :
  NoDup (l1 ++ l2) -> In x l1 -> In x l2 -> False.
Proof.
  induction l1 as [|y l1 IH]; simpl; intros Hnd H1 H2; [exact H1|].
  inversion Hnd as [|? ? Hy Hnd']. subst. destruct H1 as [Hxy|H1].
  - subst y. apply Hy. apply in_or_app. right. exact H2.
  - exact (IH Hnd' H1 H2).
Qed.

(** The starts of a range are pairwise distinct. *)
Lemma range_NoDup (start stop step : Z) (zs : list Z) :
  range start stop step = Ok zs -> NoDup zs.
Proof.
  unfold range. destruct (Z.eqb_spec step 0) as [H0|H0]; [discriminate|].
  intros H. inversion H. clear H.
  apply NoDup_map_NoDup_ForallPairs; [|apply seq_NoDup].
  intros a b _ _ Hab. nia.
Qed.

(** *** The writes that succeeded *)

Lemma In_firstn {A : Type} (l : list A) (n : nat) (x : A) :
  In x (firstn n l) -> In x l.
Proof.
  revert n. induction l as [|y l IH]; intros n H.
  - rewrite firstn_nil in H. contradiction.
  - destruct n; simpl in H; [contradiction|].
    destruct H as [H|H]; [left; exact H|right; exact (IH n H)].
Qed.

Lemma count_writes_app (e1 e2 : list event) :
  count_writes (e1 ++ e2) = (count_writes e1 + count_writes e2)%nat.
Proof.
  unfold count_writes. rewrite filter_app, length_app. reflexivity.
Qed.

Lemma count_writes_image_opens (evs : list event) :
  Forall (fun ev => is_image_open ev = true) evs -> count_writes evs = 0%nat.
Proof.
  unfold count_writes. induction 1 as [|ev evs Hev _ IH]; [reflexivity|].
  simpl. destruct ev; simpl in *; try discriminate; exact IH.
Qed.

Lemma written_ranges_app (e1 e2 : list event) :
  written_ranges (e1 ++ e2) = written_ranges e1 ++ written_ranges e2.
Proof. unfold written_ranges. apply flat_map_app. Qed.

Lemma written_ranges_image_opens (evs : list event) :
  Forall (fun ev => is_image_open ev = true) evs -> written_ranges evs = [].
Proof.
  induction 1 as [|ev evs Hev _ IH]; [reflexivity|].
  destruct ev; simpl in *; try discriminate; exact IH.
Qed.

(** One attempt adds one write to the history, unless the [dataset]
    property raises; the write counts when the store accepts it. *)
Lemma dataset_setitem_written (w : env) (key : cutout) (data : ndarray)
    (s : session) :
  exists evs,
    fst (dataset_setitem w key data s)
    = {| self := self s; trace := trace s ++ evs |} /\
    (count_writes evs <= 1)%nat /\
    written_ranges evs =
    match snd (dataset_setitem w key data s) with
    | Ok _ => [z_range key]
    | Raise _ => []
    end.
Proof.
  destruct s as [o tr].
  unfold dataset_setitem, dataset, bind, get_self, getattr, ret, log. simpl.
  destruct (_dtype o) as [|dt]; simpl.
  - exists []. rewrite app_nil_r. auto.
  - eexists. split; [reflexivity|]. split; [unfold count_writes; simpl; lia|].
    destruct (setitem w tr (BossDBInterface_args o dt) key data); reflexivity.
Qed.

(** The retry loop leaves one successful write when it ends normally, and
    none when it gives up. *)
Lemma retry_loop_written (w : env) (key : cutout) (data : ndarray)
    (retry_max : Z) :
  forall (n : nat) (retry_count : Z) (s : session),
    Z.to_nat (retry_max - retry_count) = n ->
    exists evs,
      fst (retry_loop (dataset_setitem w key data) retry_max retry_count s)
      = {| self := self s; trace := trace s ++ evs |} /\
      written_ranges evs =
      match snd (retry_loop (dataset_setitem w key data) retry_max retry_count s)
      with
      | Ok _ => [z_range key]
      | Raise _ => []
      end.
Proof.
  induction n as [n IH] using lt_wf_ind. intros rc s Hn.
  rewrite retry_loop_eq.
  destruct (dataset_setitem_written w key data s) as [e1 [Hs1 [_ Hw1]]].
  destruct (dataset_setitem w key data s) as [s1 [u|x]]; simpl in Hs1, Hw1;
    subst s1.
  - exists e1. simpl. auto.
  - destruct (Z.gtb_spec (rc + 1) retry_max) as [Hgt|Hle].
    + exists e1. simpl. auto.
    + destruct (IH (Z.to_nat (retry_max - (rc + 1))) ltac:(lia) (rc + 1)
                  {| self := self s; trace := trace s ++ e1 |}
                  eq_refl) as [e2 [Hs2 Hw2]].
      exists (e1 ++ e2). rewrite Hs2. simpl. rewrite app_assoc.
      split; [reflexivity|]. rewrite written_ranges_app, Hw1. exact Hw2.
Qed.

(** One iteration of the loop of [upload] leaves one successful write when
    it ends normally, over the slices that the source gave for the slab, and
    none when it raises. *)
Lemma upload_step_written (w : env) (i : Z) (s : session) :
  exists evs,
    fst (upload_step w i s) = {| self := self s; trace := trace s ++ evs |} /\
    written_ranges evs =
    match snd (upload_step w i s) with
    | Ok _ => [slab_sent (self s) i]
    | Raise _ => []
    end.
Proof.
  destruct (read_stack_extends w i (z_limit_of (self s) i) s)
    as [Hself [e1 [Ht1 Ho1]]].
  pose proof (read_stack_dim0 w i (z_limit_of (self s) i) s) as Hdim.
  destruct (read_stack w i (z_limit_of (self s) i) s) as [s1 [st|x]] eqn:Hread;
    simpl in Hself, Ht1.
  - rewrite (upload_step_read w i s s1 st Hread).
    destruct (retry_loop_written w (cutout_key i (normalize st)) (normalize st)
                (_retry_max (self s)) _ 0 s1 eq_refl) as [e2 [Hs2 Hw2]].
    exists (e1 ++ e2). rewrite Hs2, Hself, Ht1, app_assoc.
    split; [reflexivity|].
    rewrite written_ranges_app, (written_ranges_image_opens e1 Ho1), Hw2.
    simpl. rewrite z_range_cutout_key. unfold dim0 at 1.
    rewrite normalize_shape. fold (dim0 st). rewrite (Hdim s1 st eq_refl).
    reflexivity.
  - rewrite (upload_step_read_fails w i s s1 x Hread). simpl.
    exists e1. destruct s1 as [o1 t1]. simpl in *. subst o1 t1.
    split; [reflexivity|]. apply written_ranges_image_opens. exact Ho1.
Qed.

(** The loop of [upload] writes its slabs one after the other: the writes
    that succeeded are those of the first [n] slabs of the loop, one each and
    in the order of the loop, and [n] is the number of all slabs exactly when
    the loop ends normally. *)
Lemma for_in_written (w : env) (zs : list Z) :
  forall s : session,
  exists evs n,
    fst (for_in zs (upload_step w) s)
    = {| self := self s; trace := trace s ++ evs |} /\
    written_ranges evs = map (slab_sent (self s)) (firstn n zs) /\
    match snd (for_in zs (upload_step w) s) with
    | Ok _ => n = List.length zs
    | Raise _ => (n < List.length zs)%nat
    end.
Proof.
  induction zs as [|i zs IH]; intros s; simpl.
  - exists [], 0%nat. rewrite app_nil_r. destruct s. auto.
  - unfold bind. destruct (upload_step_written w i s) as [e1 [Hs1 Hw1]].
    destruct (upload_step w i s) as [s1 [u|x]]; simpl in Hs1, Hw1; subst s1.
    + destruct (IH {| self := self s; trace := trace s ++ e1 |})
        as [e2 [n [Hs2 [Hw2 Hn]]]].
      exists (e1 ++ e2), (S n). rewrite Hs2. simpl. rewrite app_assoc.
      split; [reflexivity|]. split.
      * rewrite written_ranges_app, Hw1, Hw2. reflexivity.
      * simpl in Hn.
        destruct (snd (for_in zs (upload_step w)
                         {| self := self s; trace := trace s ++ e1 |})); lia.
    + exists e1, 0%nat. simpl. split; [reflexivity|]. split; [exact Hw1|lia].
Qed.

Lemma upload_loop (w : env) (s : session) (zs : list Z) :
  range 0 (fst (fst (_shape_zyx (self s)))) (_upload_increment (self s)) = Ok zs ->
  upload w s = for_in zs (upload_step w) s.
Proof.
  intros Hr. unfold upload, bind, get_self. rewrite Hr. reflexivity.
Qed.

Lemma upload_written (w : env) (s : session) (zs : list Z) :
  range 0 (fst (fst (_shape_zyx (self s)))) (_upload_increment (self s)) = Ok zs ->
  exists evs n,
    fst (upload w s) = {| self := self s; trace := trace s ++ evs |} /\
    written_ranges evs = map (slab_sent (self s)) (firstn n zs) /\
    match snd (upload w s) with
    | Ok _ => n = List.length zs
    | Raise _ => (n < List.length zs)%nat
    end.
Proof.
  intros Hr. rewrite (upload_loop w s zs Hr). apply for_in_written.
Qed.

(** When every read and every write succeeds, the loop ends normally,
    having made one write per slab and no other write. *)
Lemma for_in_all_succeed (w : env) (o : BossDBUpload) (dt : dtype_value) :
  _dtype o = Assigned dt ->
  (forall history ds key data, setitem w history ds key data = Ok tt) ->
  forall (zs : list Z) (tr : list event),
    (forall i tr', In i zs ->
       exists s' st,
         read_stack w i (z_limit_of o i) {| self := o; trace := tr' |}
         = (s', Ok st)) ->
    exists evs,
      for_in zs (upload_step w) {| self := o; trace := tr |}
      = ({| self := o; trace := tr ++ evs |}, Ok tt) /\
      map fst (written_ranges evs) = zs /\
      count_writes evs = List.length zs.
Proof.
  intros Hdt Hok. induction zs as [|i zs IH]; intros tr Hread; simpl.
  - exists []. rewrite app_nil_r. auto.
  - unfold bind.
    destruct (Hread i tr (or_introl eq_refl)) as [s1 [st Hr]].
    destruct (read_stack_extends w i (z_limit_of o i) {| self := o; trace := tr |})
      as [Hself [e1 [Ht1 Ho1]]].
    rewrite Hr in Hself, Ht1. simpl in Hself, Ht1.
    destruct s1 as [o1 t1]. simpl in Hself, Ht1. subst o1 t1.
    rewrite (upload_step_read w i _ _ st Hr). simpl self.
    rewrite retry_loop_eq, (dataset_setitem_assigned _ _ _ _ _ _ Hdt). simpl.
    rewrite Hok.
    destruct (IH ((tr ++ e1) ++
                  [EvSetItem (BossDBInterface_args o dt)
                     (cutout_key i (normalize st)) (normalize st) (Ok tt)])
                (fun j tr' Hj => Hread j tr' (or_intror Hj)))
      as [e2 [Hrun [Hw Hc]]].
    exists (e1 ++ [EvSetItem (BossDBInterface_args o dt)
                     (cutout_key i (normalize st)) (normalize st) (Ok tt)] ++ e2).
    rewrite Hrun. split; [rewrite <- !app_assoc; reflexivity|]. split.
    + rewrite !written_ranges_app, (written_ranges_image_opens e1 Ho1).
      simpl. rewrite z_range_cutout_key, Hw. reflexivity.
    + rewrite !count_writes_app, (count_writes_image_opens e1 Ho1), Hc.
      reflexivity.
Qed.

(** Reading an in-memory volume never fails. *)
Lemma read_stack_in_memory (w : env) (i z_limit : Z) (s : session)
    (raw : ndarray) :
  _raw_data (self s) = Some raw ->
  read_stack w i z_limit s = (s, Ok (getslice0 raw i z_limit)).
Proof.
  intros Hraw. unfold read_stack, bind, get_self, ret. rewrite Hraw. reflexivity.
Qed.

Lemma for_in_in_memory_all_succeed (w : env) (o : BossDBUpload)
    (raw : ndarray) (dt : dtype_value) :
  _raw_data o = Some raw ->
  _dtype o = Assigned dt ->
  (forall history ds key data, setitem w history ds key data = Ok tt) ->
  forall (zs : list Z) (tr : list event),
    for_in zs (upload_step w) {| self := o; trace := tr |} =
    ({| self := o; trace := tr ++ map (memory_write_ok o dt raw) zs |}, Ok tt).
Proof.
  intros Hraw Hdt Hok. induction zs as [|i zs IH]; intros tr; simpl.
  - rewrite app_nil_r. reflexivity.
  - unfold bind.
    assert (Hread : read_stack w i (z_limit_of o i) {| self := o; trace := tr |}
                    = ({| self := o; trace := tr |},
                       Ok (getslice0 raw i (z_limit_of o i)))).
    { unfold read_stack, bind, get_self, ret. simpl. rewrite Hraw. reflexivity. }
    rewrite (upload_step_read w i _ _ _ Hread). simpl self.
    rewrite retry_loop_eq, (dataset_setitem_assigned _ _ _ _ _ _ Hdt). simpl.
    rewrite Hok, IH, <- app_assoc. reflexivity.
Qed.

Lemma range_count (stop step : Z) (zs : list Z) :
  0 < stop -> 0 < step -> range 0 stop step = Ok zs ->
  Z.of_nat (List.length zs) = (stop - 1) / step + 1.
Proof.
  intros Hstop Hstep Hr. rewrite (range_starts stop step Hstop Hstep) in Hr.
  inversion Hr. rewrite length_map, length_seq.
  assert (0 <= (stop - 1) / step) by (apply Z.div_pos; lia). lia.
Qed.

(** C4.  For a positive depth and a positive increment, the starts visited
    by the loop of [upload] are those of [slabs depth increment], and these
    slabs partition the interval from 0 to [depth]: the first starts at 0,
    each is non-empty and starts where the previous one stops (so they come
    in ascending order without gap or overlap), the last stops at [depth],
    every depth lies in exactly one of them, each is
    [zStart, min (zStart + increment) depth), and the last has length
    [depth mod increment], or [increment] when that is zero.  Whatever the
    collaborators answer, the calls of [upload] come slab after slab in that
    order, and the z-range of each write is [zStart, zStart + d) with [d]
    the number of slices of the stack actually written; [d] never exceeds
    the length of the slab and equals it when the source holds [depth]
    slices.  The loop visits the slabs one by one: the writes that succeeded
    are those of the first [n] slabs, one per slab and in ascending order,
    none skipped; [n] is the number of all slabs when [upload] returns
    normally, and is smaller when it raises; when the source holds [depth]
    slices the ranges written are these slabs themselves.  For depth 40 and
    increment 16 the slabs are [0,16), [16,32) and [32,40). *)
Theorem upload_slabs_partition (depth increment : Z) :
  0 < depth -> 0 < increment ->
  let sl := slabs depth increment in
  range 0 depth increment = Ok (map fst sl) /\
  chained 0 sl /\
  last_stop 0 sl = depth /\
  (forall z, 0 <= z < depth <-> exists ab, In ab sl /\ fst ab <= z < snd ab) /\
  (forall z ab ab', In ab sl -> In ab' sl ->
     fst ab <= z < snd ab -> fst ab' <= z < snd ab' -> ab = ab') /\
  (forall ab, In ab sl ->
     snd ab = Z.min (fst ab + increment) depth /\
     0 < snd ab - fst ab <= increment) /\
  last_length sl
  = (if depth mod increment =? 0 then increment else depth mod increment) /\
  (forall (w : env) (s : session),
     fst (fst (_shape_zyx (self s))) = depth ->
     _upload_increment (self s) = increment ->
     exists evs,
       trace (fst (upload w s)) = trace s ++ evs /\
       grouped (fun i ev =>
                  match ev with
                  | EvSetItem _ key data _ =>
                      z_range key = (i, i + Z.of_nat (dim0 data)) /\
                      i + Z.of_nat (dim0 data) <= Z.min (i + increment) depth /\
                      (depth <= source_length (self s) ->
                       i + Z.of_nat (dim0 data) = Z.min (i + increment) depth)
                  | _ => True
                  end) (map fst sl) evs /\
       exists n : nat,
         map fst (written_ranges evs) = firstn n (map fst sl) /\
         match snd (upload w s) with
         | Ok _ => n = List.length sl
         | Raise _ => (n < List.length sl)%nat
         end /\
         (depth <= source_length (self s) ->
          written_ranges evs = firstn n sl)) /\
  slabs 40 16 = [(0, 16); (16, 32); (32, 40)].
Proof.
  intros Hd Hi sl.
  assert (Hrange : range 0 depth increment = Ok (map fst sl)).
  { unfold sl. rewrite (slabs_eq depth increment Hd Hi), map_map. simpl.
    apply range_starts; assumption. }
  pose proof (slabs_chained depth increment Hd Hi) as Hch.
  pose proof (slabs_last_stop depth increment Hd Hi) as Hls.
  fold sl in Hch, Hls.
  split; [exact Hrange|]. split; [exact Hch|]. split; [exact Hls|].
  split.
  { intros z. rewrite <- Hls at 1. apply chained_covers. exact Hch. }
  split.
  { intros z ab ab'. apply (chained_disjoint sl 0 z ab ab' Hch). }
  split.
  { intros ab Hin. apply (slabs_shape depth increment Hd Hi ab Hin). }
  split.
  { apply slabs_last_length; assumption. }
  split; [|reflexivity].
  intros w s Hdepth Hinc.
  assert (Hrs : range 0 (fst (fst (_shape_zyx (self s))))
                  (_upload_increment (self s)) = Ok (map fst sl))
    by (rewrite Hdepth, Hinc; exact Hrange).
  destruct (upload_written w s (map fst sl) Hrs) as [evs [n [Hs [Hw Hn]]]].
  exists evs. split; [rewrite Hs; reflexivity|]. split.
  - destruct (upload_grouped w s) as [_ [zs [evs' [Hzs [Ht Hg]]]]].
    rewrite Hs in Ht. simpl in Ht. apply app_inv_head in Ht. subst evs'.
    rewrite Hrs in Hzs.
    destruct Hzs as [Hzs|Hzs].
    + inversion Hzs. subst zs. eapply grouped_weaken; [|exact Hg].
      intros i ev Hin Hev. destruct ev; try exact I.
      simpl in Hev. destruct Hev as [Hkey [_ Hdim]].
      unfold z_limit_of in Hdim. rewrite Hdepth, Hinc in Hdim.
      apply in_map_iff in Hin. destruct Hin as [ab [Hab Hin]].
      destruct (slabs_shape depth increment Hd Hi ab Hin) as [Hlo [Hsnd Hlen]].
      rewrite Hab in Hlo.
      destruct (slice_bounds_inside (source_length (self s)) i
                  (Z.min (i + increment) depth)
                  (source_length_nonneg (self s)) ltac:(lia)) as [Hle Heq].
      unfold slice_bounds in Hle, Heq. simpl in Hle, Heq.
      subst key. rewrite z_range_cutout_key. split; [reflexivity|].
      split; [lia|]. intros Hsrc. rewrite Hdim, Heq; lia.
    + subst zs. simpl in Hg. subst evs. apply grouped_nil.
  - exists n. split.
    { rewrite Hw, map_map. simpl. apply map_id. }
    split.
    { rewrite length_map in Hn. exact Hn. }
    intros Hsrc. rewrite Hw, firstn_map, map_map.
    transitivity (map (fun ab : Z * Z => ab) (firstn n sl)); [|apply map_id].
    apply map_ext_in.
    intros ab Hin. apply In_firstn in Hin.
    destruct (slabs_shape depth increment Hd Hi ab Hin) as [Hlo [Hsnd Hlen]].
    unfold slab_sent, z_limit_of. rewrite Hdepth, Hinc.
    destruct (slice_bounds_inside (source_length (self s)) (fst ab)
                (Z.min (fst ab + increment) depth)
                (source_length_nonneg (self s)) ltac:(lia)) as [_ Heq].
    rewrite Heq by lia. destruct ab as [a b]. simpl in *. f_equal. lia.
Qed.

Lemma upload_slabs_partition_40_16 :
  (0 < 40 /\ 0 < 16) /\
  last_length (slabs 40 16) = 8 /\
  exists evs,
    upload world_ok session40
    = ({| self := self session40; trace := trace session40 ++ evs |}, Ok tt) /\
    written_ranges evs = [(0, 16); (16, 32); (32, 40)].
Proof.
  split; [lia|].
  pose proof (upload_slabs_partition 40 16 ltac:(lia) ltac:(lia)) as H.
  cbv zeta in H.
  destruct H as [_ [_ [_ [_ [_ [_ [Hlast [Hrun _]]]]]]]].
  split; [exact Hlast|].
  destruct (Hrun world_ok session40 eq_refl eq_refl)
    as [evs [Ht [_ [n [_ [Hn Hw]]]]]].
  assert (Hok : exists evs',
             upload world_ok session40
             = ({| self := self session40; trace := trace session40 ++ evs' |},
                Ok tt)).
  { rewrite (upload_loop world_ok session40 [0; 16; 32] eq_refl).
    eexists.
    apply (for_in_in_memory_all_succeed world_ok (self session40) raw40
             (NpDtype "uint8") eq_refl eq_refl (fun _ _ _ _ => eq_refl)). }
  destruct Hok as [evs' Hok]. rewrite Hok in Ht, Hn. simpl in Ht, Hn.
  injection Ht as Ht. subst evs'. exists evs. split; [exact Hok|].
  rewrite (Hw ltac:(vm_compute; discriminate)), Hn. reflexivity.
Defined.

(** *** Retry exhaustion *)

(** C3.  Take a session whose dtype is assigned and whose retry budget is
    not negative, and a slab of the loop such that the slabs before it were
    completed and its stack was read.  If every write attempt of that stack
    fails, [upload] makes exactly [retry_max + 1] attempts on it, all with the
    same key and data, and then raises the exception of the last attempt.  The
    history of the earlier slabs is kept as it was (nothing is undone: no call
    follows the last failed attempt), and no write is made for any later
    slab. *)
Theorem upload_aborts_after_retry_budget
    (w : env) (s0 s1 s2 : session) (pre post : list Z) (i : Z)
    (st : ndarray) (dt : dtype_value) :
  let o := self s0 in
  let data := normalize st in
  let key := cutout_key i data in
  let ds := BossDBInterface_args o dt in
  0 <= _retry_max o ->
  _dtype o = Assigned dt ->
  range 0 (fst (fst (_shape_zyx o))) (_upload_increment o)
  = Ok (pre ++ i :: post) ->
  for_in pre (upload_step w) s0 = (s1, Ok tt) ->
  read_stack w i (z_limit_of o i) s1 = (s2, Ok st) ->
  (forall history, exists e, setitem w history ds key data = Raise e) ->
  exists evs1 evs2 errs e_last,
    trace s1 = trace s0 ++ evs1 /\
    grouped (slab_event o) pre evs1 /\
    trace s2 = trace s1 ++ evs2 /\
    Forall (fun ev => is_image_open ev = true) evs2 /\
    Z.of_nat (List.length (errs ++ [e_last])) = _retry_max o + 1 /\
    upload w s0 =
      ({| self := o;
          trace := trace s0 ++ evs1 ++ evs2
                   ++ failed_writes ds key data (errs ++ [e_last]) |},
       Raise e_last) /\
    (forall ds' key' data' r',
       In (EvSetItem ds' key' data' r')
          (evs1 ++ evs2 ++ failed_writes ds key data (errs ++ [e_last])) ->
       ~ In (fst (z_range key')) post).
Proof.
  intros o data key ds Hrm Hdt Hrange Hpre Hread Hfail.
  pose proof (for_in_self w pre s0 s1 _ Hpre) as Hself1.
  pose proof (read_stack_self w i _ s1 s2 _ Hread) as Hself2.
  destruct (for_in_upload_grouped w pre s0) as [_ [evs1 [Ht1 Hg1]]].
  rewrite Hpre in Ht1. simpl in Ht1.
  destruct (read_stack_extends w i (z_limit_of o i) s1) as [_ [evs2 [Ht2 Hp2]]].
  rewrite Hread in Ht2. simpl in Ht2.
  destruct (retry_loop_exhausts w key data o dt Hdt Hfail
              (Z.to_nat (_retry_max o)) 0 (trace s2) Hrm
              ltac:(rewrite Z.sub_0_r; reflexivity))
    as [errs [e_last [Hlen Hrun]]].
  exists evs1, evs2, errs, e_last.
  split; [exact Ht1|]. split; [exact Hg1|]. split; [exact Ht2|].
  split; [exact Hp2|]. split.
  { rewrite length_app, Hlen. simpl. lia. }
  split.
  { unfold upload, bind at 1, get_self. fold o. rewrite Hrange.
    rewrite for_in_app, Hpre. simpl. unfold bind.
    rewrite (upload_step_read w i s1 s2 st)
      by (rewrite Hself1; exact Hread).
    rewrite Hself1. fold o. fold data. fold key.
    replace s2 with {| self := o; trace := trace s2 |}
      by (unfold o; destruct s2; simpl in *; congruence).
    rewrite Hrun. simpl. rewrite Ht2, Ht1, <- !app_assoc. reflexivity. }
  intros ds' key' data' r' Hin Hpost.
  pose proof (range_NoDup _ _ _ _ Hrange) as Hnd.
  apply in_app_or in Hin. destruct Hin as [Hin|Hin].
  - pose proof (grouped_Forall _ _ _ Hg1) as Hall.
    rewrite Forall_forall in Hall. destruct (Hall _ Hin) as [j [Hj Hev]].
    simpl in Hev. destruct Hev as [Hkey _]. subst key'.
    rewrite z_range_cutout_key in Hpost. simpl in Hpost.
    apply (NoDup_app_disjoint _ _ j Hnd Hj). right. exact Hpost.
  - apply in_app_or in Hin. destruct Hin as [Hin|Hin].
    + rewrite Forall_forall in Hp2. specialize (Hp2 _ Hin). discriminate Hp2.
    + unfold failed_writes in Hin. apply in_map_iff in Hin.
      destruct Hin as [e [He _]]. inversion He. subst key'.
      unfold key in Hpost. rewrite z_range_cutout_key in Hpost. simpl in Hpost.
      apply NoDup_remove_2 in Hnd. apply Hnd. apply in_or_app. right.
      exact Hpost.
Qed.

Lemma upload_aborts_after_retry_budget_witness :
  exists e_last,
    snd (upload world_offline session0) = Raise e_last /\
    List.length (filter is_write (trace (fst (upload world_offline session0))))
    = 3%nat.
Proof.
  destruct (upload_aborts_after_retry_budget world_offline
              session0 session0 session0 [] [3] 0 (getslice0 raw0 0 3)
              (NpDtype "uint8")
              ltac:(vm_compute; discriminate) eq_refl eq_refl eq_refl eq_refl
              (fun _ => ex_intro _ (ConnectionError "unreachable") eq_refl))
    as [evs1 [evs2 [errs [e_last [_ [_ [_ [_ [_ [Hrun _]]]]]]]]]].
  exists e_last. split.
  - rewrite Hrun. reflexivity.
  - vm_compute. reflexivity.
Defined.

(** *** Retry recovery *)

(** C7.  Take a session whose dtype is assigned and a slab of the loop such
    that the slabs before it were completed and its stack was read.  If the
    write of that stack fails [k] times, with [k] at most [retry_max] (in
    particular with [k < retry_max]), and then succeeds, the iteration ends
    normally after [k + 1] write attempts, all of them with the same key and
    the same stack, the one read and normalised before the first attempt; no
    image is opened and nothing else is called between the attempts.
    [upload] then goes on with exactly the remaining slabs, from the first
    of them. *)
Theorem upload_recovers_within_retry_budget
    (w : env) (s0 s1 s2 : session) (pre post : list Z) (i : Z)
    (st : ndarray) (dt : dtype_value) (errs : list exn) :
  let o := self s0 in
  let data := normalize st in
  let key := cutout_key i data in
  let ds := BossDBInterface_args o dt in
  let s3 := {| self := o;
               trace := trace s2 ++ failed_writes ds key data errs
                        ++ [EvSetItem ds key data (Ok tt)] |} in
  _dtype o = Assigned dt ->
  range 0 (fst (fst (_shape_zyx o))) (_upload_increment o)
  = Ok (pre ++ i :: post) ->
  for_in pre (upload_step w) s0 = (s1, Ok tt) ->
  read_stack w i (z_limit_of o i) s1 = (s2, Ok st) ->
  Z.of_nat (List.length errs) <= _retry_max o ->
  (forall j e, nth_error errs j = Some e ->
     setitem w (trace s2 ++ failed_writes ds key data (firstn j errs))
             ds key data = Raise e) ->
  setitem w (trace s2 ++ failed_writes ds key data errs) ds key data = Ok tt ->
  upload_step w i s1 = (s3, Ok tt) /\
  for_in (i :: post) (upload_step w) s1 = for_in post (upload_step w) s3 /\
  upload w s0 = for_in post (upload_step w) s3.
Proof.
  intros o data key ds s3 Hdt Hrange Hpre Hread Hlen Hfail Hok.
  pose proof (for_in_self w pre s0 s1 _ Hpre) as Hself1.
  pose proof (read_stack_self w i _ s1 s2 _ Hread) as Hself2.
  assert (Hstep : upload_step w i s1 = (s3, Ok tt)).
  { rewrite (upload_step_read w i s1 s2 st)
      by (rewrite Hself1; exact Hread).
    rewrite Hself1. fold o. fold data. fold key.
    replace s2 with {| self := o; trace := trace s2 |}
      by (unfold o; destruct s2; simpl in *; congruence).
    apply (retry_loop_recovers w key data o dt errs Hdt (trace s2) 0);
      [lia|exact Hfail|exact Hok]. }
  assert (Hrest : for_in (i :: post) (upload_step w) s1
                  = for_in post (upload_step w) s3).
  { simpl. unfold bind. rewrite Hstep. reflexivity. }
  split; [exact Hstep|]. split; [exact Hrest|].
  unfold upload, bind at 1, get_self. fold o. rewrite Hrange.
  rewrite for_in_app, Hpre. exact Hrest.
Qed.

Lemma upload_recovers_within_retry_budget_witness :
  snd (upload world_flaky session0) = Ok tt /\
  List.length (filter is_write (trace (fst (upload world_flaky session0))))
  = 3%nat.
Proof.
  destruct (upload_recovers_within_retry_budget world_flaky
              session0 session0 session0 [] [3] 0 (getslice0 raw0 0 3)
              (NpDtype "uint8") [HTTPError 502 "Bad Gateway"]
              eq_refl eq_refl eq_refl eq_refl
              ltac:(vm_compute; discriminate)
              ltac:(intros [|[|j]] e H; simpl in H;
                    [inversion H; reflexivity|discriminate H|discriminate H])
              eq_refl) as [_ [_ Hrun]].
  split.
  - rewrite Hrun. reflexivity.
  - vm_compute. reflexivity.
Defined.

(** *** Contiguity normalisation *)

Lemma flat_map_const_length {A : Type} (f : nat -> list A) (m : nat) :
  (forall x, List.length (f x) = m) ->
  forall l, List.length (flat_map f l) = (List.length l * m)%nat.
Proof.
  intros Hf l. induction l as [|x l IH]; simpl; [reflexivity|].
  rewrite length_app, Hf, IH. reflexivity.
Qed.

Lemma nth_error_flat_map_const {A : Type} (f : nat -> list A) (m : nat) :
  (forall x, List.length (f x) = m) ->
  forall n s i r, (i < n)%nat -> (r < m)%nat ->
    nth_error (flat_map f (seq s n)) (i * m + r) = nth_error (f (s + i)%nat) r.
Proof.
  intros Hf. induction n as [|n IH]; intros s i r Hi Hr; [lia|].
  simpl. destruct i as [|i].
  - rewrite Nat.add_0_r. simpl. apply nth_error_app1. rewrite Hf. exact Hr.
  - rewrite nth_error_app2 by (rewrite Hf; simpl; lia).
    rewrite Hf.
    replace (S i * m + r - m)%nat with (i * m + r)%nat
      by (rewrite Nat.mul_succ_l; lia).
    rewrite IH by lia.
    replace (s + S i)%nat with (S s + i)%nat by lia. reflexivity.
Qed.

(** The row-major copy holds, at every index of the shape, the element the
    view had there. *)
Lemma copy_C_item (a : ndarray) (i j k : nat) :
  (i < dim0 a)%nat -> (j < dim1 a)%nat -> (k < dim2 a)%nat ->
  item (copy_C a) i j k = Some (item_or_zero a i j k).
Proof.
  intros Hi Hj Hk. unfold item, flat_index, copy_C, c_strides. simpl.
  destruct (shape a) as [[d0 d1] d2] eqn:Hsh.
  unfold dim0, dim1, dim2 in Hi, Hj, Hk. rewrite Hsh in Hi, Hj, Hk.
  simpl in Hi, Hj, Hk.
  match goal with
  | |- context [Z.to_nat ?p] =>
      replace p with (Z.of_nat (i * (d1 * d2) + (j * d2 + k))) by nia
  end.
  rewrite Nat2Z.id.
  destruct (Z.ltb_spec (Z.of_nat (i * (d1 * d2) + (j * d2 + k))) 0)
    as [Hneg|_]; [lia|].
  unfold ravel, dim0, dim1, dim2. rewrite Hsh. simpl.
  assert (Hinner : forall x y,
            List.length (map (fun k0 => item_or_zero a x y k0) (seq 0 d2)) = d2).
  { intros x y. rewrite length_map, length_seq. reflexivity. }
  assert (Hmid : forall x,
            List.length
              (flat_map (fun j0 => map (fun k0 => item_or_zero a x j0 k0)
                                       (seq 0 d2)) (seq 0 d1))
            = (d1 * d2)%nat).
  { intros x. rewrite (flat_map_const_length _ d2) by (intros y; apply Hinner).
    rewrite length_seq. reflexivity. }
  rewrite (nth_error_flat_map_const _ (d1 * d2) Hmid) by nia.
  rewrite (nth_error_flat_map_const _ d2 (Hinner (0 + i)%nat)) by lia.
  simpl. rewrite nth_error_map, nth_error_seq.
  destruct (Nat.ltb_spec k d2) as [_|H]; [reflexivity|lia].
Qed.

Lemma normalize_item (a : ndarray) (i j k : nat) (v : Z) :
  (i < dim0 a)%nat -> (j < dim1 a)%nat -> (k < dim2 a)%nat ->
  item a i j k = Some v -> item (normalize a) i j k = Some v.
Proof.
  intros Hi Hj Hk Hv. unfold normalize, ascontiguousarray.
  destruct (C_CONTIGUOUS a); simpl; [exact Hv|].
  rewrite copy_C_item by assumption. unfold item_or_zero. rewrite Hv.
  reflexivity.
Qed.

Lemma normalize_id (a : ndarray) : C_CONTIGUOUS a = true -> normalize a = a.
Proof.
  intros H. unfold normalize. rewrite H. reflexivity.
Qed.

Example normalize_fortran0 :
  C_CONTIGUOUS fortran0 = false /\
  normalize fortran0 =
  {| base := [1; 5; 3; 7; 2; 6; 4; 8];
     offset := 0;
     shape := (2%nat, 2%nat, 2%nat);
     strides := (4, 2, 1);
     dtype := "uint8" |}.
Proof. split; reflexivity. Qed.

(** C10.  Every stack that [upload] hands to the remote write is row-major
    contiguous, whatever the collaborators answer.  What is written for a
    slab is the normalisation of the stack read for it, and nothing but
    writes of that normalised stack follows the read.  The normalisation
    yields a contiguous array of the same shape and element type that holds
    the same element at every index of the shape; it converts a
    non-contiguous stack with [ascontiguousarray] and returns an already
    contiguous stack as it is. *)
Theorem upload_writes_contiguous_buffers :
  (forall (w : env) (s : session),
     exists evs,
       trace (fst (upload w s)) = trace s ++ evs /\
       Forall (fun ev =>
                 match ev with
                 | EvSetItem _ _ data _ => C_CONTIGUOUS data = true
                 | _ => True
                 end) evs) /\
  (forall (w : env) (i : Z) (s s' : session) (st : ndarray),
     read_stack w i (z_limit_of (self s) i) s = (s', Ok st) ->
     exists evs,
       trace (fst (upload_step w i s)) = trace s' ++ evs /\
       Forall (fun ev =>
                 exists ds r,
                   ev = EvSetItem ds (cutout_key i (normalize st))
                                  (normalize st) r) evs) /\
  (forall a : ndarray,
     C_CONTIGUOUS (normalize a) = true /\
     shape (normalize a) = shape a /\
     dtype (normalize a) = dtype a /\
     (forall i j k v,
        (i < dim0 a)%nat -> (j < dim1 a)%nat -> (k < dim2 a)%nat ->
        item a i j k = Some v -> item (normalize a) i j k = Some v) /\
     (C_CONTIGUOUS a = false -> normalize a = ascontiguousarray a) /\
     (C_CONTIGUOUS a = true -> normalize a = a)).
Proof.
  split; [|split].
  - intros w s. destruct (upload_grouped w s) as [_ [zs [evs [_ [Ht Hg]]]]].
    exists evs. split; [exact Ht|].
    eapply Forall_impl; [|apply (grouped_Forall _ _ _ Hg)].
    intros ev [i [_ Hev]]. destruct ev; try exact I.
    simpl in Hev. tauto.
  - intros w i s s' st Hread.
    rewrite (upload_step_read w i s s' st Hread).
    apply (retry_loop_extends _ _ (_retry_max (self s))
             (dataset_setitem_extends w (cutout_key i (normalize st))
                                      (normalize st))
             _ 0 s' eq_refl).
  - intros a. split; [apply normalize_contiguous|].
    split; [apply normalize_shape|]. split.
    { unfold normalize, ascontiguousarray, copy_C.
      destruct (C_CONTIGUOUS a); reflexivity. }
    split; [intros i j k v; apply normalize_item|].
    split; [|apply normalize_id].
    intros H. unfold normalize. rewrite H. reflexivity.
Qed.

(** *** Provisioning *)

Lemma get_or_create_run (w : env) (obj : resource) (s : session) :
  exists evs,
    fst (_get_or_create w obj s)
    = {| self := self s; trace := trace s ++ evs |} /\
    goc_events obj evs (snd (_get_or_create w obj s)).
Proof.
  unfold _get_or_create, log.
  destruct (get_project w (trace s) obj) as [p|e]; simpl.
  - exists [EvGetProject obj (Ok p)]. split; [reflexivity|constructor].
  - destruct (is_HTTPError e) eqn:He; simpl.
    + eexists. rewrite <- app_assoc. split; [reflexivity|].
      apply goc_created. exact He.
    + exists [EvGetProject obj (Raise e)]. split; [reflexivity|].
      apply goc_failed. exact He.
Qed.

(** The property returns the cached dictionary, and builds it when the
    cache is empty and the dtype is assigned. *)
Lemma resources_cached (o : BossDBUpload) (tr : list event) (d : resources_dict) :
  _resources o = Some d ->
  resources {| self := o; trace := tr |} = ({| self := o; trace := tr |}, Ok d).
Proof.
  intros H. unfold resources, bind, get_self. simpl. rewrite H. reflexivity.
Qed.

Lemma resources_fresh (o : BossDBUpload) (tr : list event) (dt : dtype_value)
    (d : resources_dict) :
  _resources o = None -> _dtype o = Assigned dt ->
  default_resources o dt = Ok d ->
  resources {| self := o; trace := tr |}
  = ({| self := set_resources o d; trace := tr |}, Ok d).
Proof.
  intros Hr Hd Hv. unfold resources, bind, get_self, getattr, modify_self, ret.
  simpl. rewrite Hr. simpl. rewrite Hd, Hv. reflexivity.
Qed.

(** The channel constructors refuse the dtype: the property raises and
    caches nothing. *)
Lemma resources_refused (o : BossDBUpload) (tr : list event) (dt : dtype_value)
    (e : exn) :
  _resources o = None -> _dtype o = Assigned dt ->
  default_resources o dt = Raise e ->
  resources {| self := o; trace := tr |} = ({| self := o; trace := tr |}, Raise e).
Proof.
  intros Hr Hd Hv. unfold resources, bind, get_self, getattr, raise.
  simpl. rewrite Hr. simpl. rewrite Hd, Hv. reflexivity.
Qed.

(** Building the dictionary before the dtype is assigned raises. *)
Lemma resources_before_dtype (s : session) :
  _resources (self s) = None -> _dtype (self s) = Unset ->
  resources s =
  (s, Raise (AttributeError "'BossDBUpload' object has no attribute '_dtype'")).
Proof.
  intros Hr Hd. unfold resources, bind, get_self, getattr. simpl.
  rewrite Hr. simpl. rewrite Hd. reflexivity.
Qed.

Lemma resources_outcome (s : session) :
  (exists e, resources s = (s, Raise e)) \/
  (exists d o', resources s = ({| self := o'; trace := trace s |}, Ok d) /\
                _resources o' = Some d).
Proof.
  destruct s as [o tr]. destruct (_resources o) as [d|] eqn:Hr.
  - right. exists d, o. rewrite (resources_cached o tr d Hr). auto.
  - destruct (_dtype o) as [|dt] eqn:Hd.
    + left. eexists. apply resources_before_dtype; assumption.
    + destruct (default_resources o dt) as [d|e] eqn:Hv.
      * right. exists d, (set_resources o d).
        rewrite (resources_fresh o tr dt d Hr Hd Hv). auto.
      * left. exists e. apply resources_refused with (dt := dt); assumption.
Qed.

(** The dictionary is built exactly for the dtypes that the channel
    constructor accepts, and the data type it records is the lower-cased
    name. *)
Lemma default_resources_accepts (o : BossDBUpload) (dt : dtype_value) :
  (exists d, default_resources o dt = Ok d) <->
  (exists s, dt = PyStr s /\ In (lower s) valid_datatypes).
Proof.
  unfold default_resources, new_ChannelResource, validate_datatype.
  split.
  - intros [d Hd]. destruct dt as [|s|n]; try discriminate.
    exists s. split; [reflexivity|].
    destruct (existsb (String.eqb (lower s)) valid_datatypes) eqn:Hex;
      [|discriminate].
    apply existsb_exists in Hex. destruct Hex as [x [Hin Heq]].
    apply String.eqb_eq in Heq. subst x. exact Hin.
  - intros [s [Hs Hin]]. subst dt.
    assert (Hex : existsb (String.eqb (lower s)) valid_datatypes = true).
    { apply existsb_exists. exists (lower s). split; [exact Hin|].
      apply String.eqb_refl. }
    rewrite Hex. eauto.
Qed.

(** Run the next get-or-create of the goal: name its calls and its
    outcome. *)
Ltac goc_step w e Hg p x :=
  match goal with
  | |- context [_get_or_create w ?obj ?s] =>
      let Hs := fresh "Hs" in
      let s' := fresh "s" in
      let out := fresh "out" in
      destruct (get_or_create_run w obj s) as [e [Hs Hg]];
      destruct (_get_or_create w obj s) as [s' out];
      simpl in Hs, Hg; subst s'; destruct out as [p|x]
  end.

(** Read the dictionary back from the cache. *)
Ltac read_cache :=
  unfold bind at 1;
  match goal with
  | |- context [resources {| self := ?o; trace := ?t |}] =>
      rewrite (resources_cached o t _ eq_refl)
  end.

Lemma try_create_new_run (w : env) (s s0 : session) (d : resources_dict) :
  resources s = (s0, Ok d) ->
  _resources (self s0) = Some d ->
  exists evs s' out,
    try_create_new w s = (s', out) /\
    trace s' = trace s0 ++ evs /\
    provisioned d evs out.
Proof.
  intros Hr Hc. destruct s0 as [o' tr0]. simpl in Hc.
  unfold try_create_new. unfold bind at 1. rewrite Hr.
  unfold bind at 1. goc_step w e1 Hg1 p1 x; simpl;
    [|exists e1; do 2 eexists; split; [reflexivity|]; split;
      [reflexivity|apply prov_stop_collection; exact Hg1]].
  unfold bind at 1. rewrite (resources_cached _ _ d Hc).
  unfold bind at 1. goc_step w e2 Hg2 cf x; simpl;
    [|exists (e1 ++ e2); do 2 eexists; split; [reflexivity|]; split;
      [simpl; rewrite <- app_assoc; reflexivity
      |eapply prov_stop_coord_frame; eauto]].
  unfold bind at 1. rewrite (resources_cached _ _ d Hc).
  unfold bind at 1. unfold modify_self at 1. simpl.
  unfold bind at 1. goc_step w e3 Hg3 p3 x; simpl;
    [|exists (e1 ++ e2 ++ e3); do 2 eexists; split; [reflexivity|]; split;
      [simpl; rewrite <- !app_assoc; reflexivity
      |eapply prov_stop_experiment; eauto]].
  read_cache.
  unfold bind at 1. goc_step w e4 Hg4 src x; simpl;
    [|exists (e1 ++ e2 ++ e3 ++ e4); do 2 eexists; split; [reflexivity|];
      split; [simpl; rewrite <- !app_assoc; reflexivity
             |eapply prov_stop_channel_resource; eauto]].
  read_cache.
  unfold bind at 1. unfold modify_self at 1. simpl.
  unfold bind at 1. goc_step w e5 Hg5 p5 x; simpl;
    exists (e1 ++ e2 ++ e3 ++ e4 ++ e5); do 2 eexists;
    (split; [reflexivity|]);
    (split; [simpl; rewrite <- !app_assoc; reflexivity|]).
  - eapply prov_done; eauto.
  - eapply prov_stop_channel; eauto.
Qed.

(** C8.  [try_create_new] first reads the dictionary of descriptors; if
    that raises, nothing is sent.  Otherwise its calls are those of five
    get-or-create steps made one after the other, for the collection, the
    coordinate frame, the experiment, the precursor channel and the final
    channel, in this order; a step that raises ends the provisioning with
    its exception, and the method returns normally only after the five steps.
    The experiment is sent with its coordinate-frame field set to the name of
    the project that the coordinate-frame step returned, and the final channel
    with its source list set to exactly the name of the project that the
    precursor-channel step returned; their other fields are those of the
    dictionary. *)
Theorem try_create_new_steps_in_order (w : env) (s : session) :
  match resources s with
  | (s0, Raise e) => try_create_new w s = (s0, Raise e) /\ s0 = s
  | (_, Ok d) =>
      exists evs,
        trace (fst (try_create_new w s)) = trace s ++ evs /\
        provisioned d evs (snd (try_create_new w s)) /\
        (snd (try_create_new w s) = Ok tt ->
         exists (e1 e2 e3 e4 e5 : list event)
                (p1 true_coord_frame p3 channel_resource p5 : resource)
                (experiment : ExperimentResource) (channel : ChannelResource),
           evs = e1 ++ e2 ++ e3 ++ e4 ++ e5 /\
           goc_events (Collection (r_collection d)) e1 (Ok p1) /\
           goc_events (CoordinateFrame (r_coord_frame d)) e2
                      (Ok true_coord_frame) /\
           goc_events (Experiment experiment) e3 (Ok p3) /\
           goc_events (Channel (r_channel_resource d)) e4
                      (Ok channel_resource) /\
           goc_events (Channel channel) e5 (Ok p5) /\
           coord_frame experiment = name true_coord_frame /\
           exp_name experiment = exp_name (r_experiment d) /\
           exp_collection_name experiment
           = exp_collection_name (r_experiment d) /\
           exp_description experiment = exp_description (r_experiment d) /\
           sources channel = [name channel_resource] /\
           ch_name channel = ch_name (r_channel d) /\
           ch_collection_name channel = ch_collection_name (r_channel d) /\
           ch_experiment_name channel = ch_experiment_name (r_channel d) /\
           ch_type channel = ch_type (r_channel d) /\
           ch_description channel = ch_description (r_channel d) /\
           datatype channel = datatype (r_channel d))
  end.
Proof.
  destruct (resources_outcome s) as [[e Hr]|[d [o' [Hr Hc]]]]; rewrite Hr.
  - unfold try_create_new, bind. rewrite Hr. auto.
  - destruct (try_create_new_run w s _ d Hr Hc) as [evs [s' [out [Hrun [Ht Hp]]]]].
    exists evs. rewrite Hrun. simpl. split; [exact Ht|]. split; [exact Hp|].
    intros Hout. subst out. inversion Hp; subst.
    do 12 eexists. split; [reflexivity|].
    repeat (split; [eassumption|]). simpl. repeat split.
Qed.

(** *** The constructor *)

(** Provisioning from the constructor: the dictionary of descriptors is
    built before [_dtype] is assigned, so the read of [self._dtype] raises
    before anything is sent. *)
Lemma try_create_new_before_dtype (w : env) (s : session) :
  _resources (self s) = None -> _dtype (self s) = Unset ->
  try_create_new w s = (s, Raise no_dtype_attribute).
Proof.
  intros Hr Hd. unfold try_create_new, bind.
  rewrite (resources_before_dtype s Hr Hd). reflexivity.
Qed.

(** The outcomes of the constructor, case by case. *)
Lemma init_cases (w : env) (a : Args.t) (history : list event) (bits : bossdb_uri) :
  _parse_bossdb_uri w (Args.url a) = Ok bits ->
  let ex := exists_ w history (Args.url a) in
  let tr := history ++ [EvExists (Args.url a) ex] in
  let o0 := new_instance a bits ex in
  __init__ w a history =
  if negb (Args.overwrite a) && ex then (tr, Ok o0)
  else if negb ex then (tr, Raise no_dtype_attribute)
  else
    match Args.raw_data a with
    | Some raw =>
        (tr, Ok (set_dtype o0 (or_else (Args.dtype a) (NpDtype (Np.dtype raw)))))
    | None =>
        match glob_star (Args.data_dir a) (Args.data_extension a) with
        | Raise e => (tr, Raise e)
        | Ok l =>
            match sorted l with
            | [] => (tr, Raise (no_files_found a))
            | p :: ps =>
                (tr, Ok (set_dtype (set_image_paths o0 (p :: ps))
                                   (or_else (Args.dtype a) PyNone)))
            end
        end
    end.
Proof.
  intros Hp ex tr o0. unfold __init__. rewrite Hp. fold ex. fold o0. fold tr.
  destruct (negb (Args.overwrite a) && ex) eqn:Hchk; [reflexivity|].
  unfold init_tail. unfold bind at 1. unfold get_self at 1.
  cbv beta iota.
  change (url_exists (self {| self := o0; trace := tr |})) with ex.
  destruct ex; simpl negb; cbv iota.
  - unfold bind, get_self, ret, modify_self. simpl.
    destruct (Args.raw_data a) as [raw|]; [reflexivity|].
    unfold fetch_images, bind, get_self, ret, raise. simpl.
    destruct (glob_star (Args.data_dir a) (Args.data_extension a)) as [l|e];
      [|reflexivity].
    destruct (sorted l) as [|p ps]; reflexivity.
  - unfold bind at 1. rewrite try_create_new_before_dtype; reflexivity.
Qed.

Lemma sorted_nil_iff (l : list string) : sorted l = [] <-> l = [].
Proof.
  split; [|intros H; subst; reflexivity].
  destruct l as [|x l]; [reflexivity|]. simpl.
  destruct (sorted l) as [|y r]; simpl; [discriminate|].
  destruct (path_leb x y); discriminate.
Qed.

(** C6 (the code at the failing inputs).  Whenever the destination does not
    exist yet, the constructor enters provisioning, whose first step builds
    the channel descriptors from [self._dtype]; the dtype is only resolved
    after provisioning, so the constructor raises [AttributeError] there,
    having made no call but the existence probe: no descriptor, with or
    without a dtype, reaches the store. *)
Theorem init_provisions_before_dtype_is_resolved
    (w : env) (a : Args.t) (history : list event) (bits : bossdb_uri) :
  _parse_bossdb_uri w (Args.url a) = Ok bits ->
  exists_ w history (Args.url a) = false ->
  __init__ w a history =
  (history ++ [EvExists (Args.url a) false], Raise no_dtype_attribute).
Proof.
  intros Hp Hex. rewrite (init_cases w a history bits Hp). cbv zeta.
  rewrite Hex. rewrite andb_false_r. reflexivity.
Qed.

Lemma init_provisions_before_dtype_is_resolved_witness :
  __init__ world_500 args0 [] =
  ([EvExists "bossdb://col/exp/ch" false], Raise no_dtype_attribute).
Proof.
  exact (init_provisions_before_dtype_is_resolved world_500 args0 [] bits0
           eq_refl eq_refl).
Defined.

(** *** The empty file listing *)

(** With [overwrite=False] and an existing destination, a file-sequence
    session with an empty listing raises nothing: the constructor returns at
    the overwrite check. *)
Lemma empty_listing_not_reported_on_early_return : ~ spec_empty_listing_always_raises.
Proof.
  intros H.
  destruct (H world_ok (args_files false) [] bits0 eq_refl eq_refl eq_refl)
    as [msg Hmsg].
  vm_compute in Hmsg. discriminate Hmsg.
Qed.

(** C2 (amended).  Take a file-sequence session ([raw_data] is [None])
    whose listing filtered by the extension is empty and whose destination
    already exists.  With [overwrite=True] the constructor raises the
    no-files-found error, and the only call made before it is the existence
    probe: no provisioning call and no write.  With [overwrite=False] the
    constructor returns at the overwrite check and raises nothing. *)
Theorem empty_listing_raises_before_remote_calls
    (w : env) (a : Args.t) (history : list event) (bits : bossdb_uri) :
  _parse_bossdb_uri w (Args.url a) = Ok bits ->
  Args.raw_data a = None ->
  glob_star (Args.data_dir a) (Args.data_extension a) = Ok [] ->
  exists_ w history (Args.url a) = true ->
  let tr := history ++ [EvExists (Args.url a) true] in
  (Args.overwrite a = true ->
   __init__ w a history = (tr, Raise (no_files_found a))) /\
  (Args.overwrite a = false ->
   __init__ w a history = (tr, Ok (new_instance a bits true))).
Proof.
  intros Hp Hraw Hglob Hex tr.
  rewrite (init_cases w a history bits Hp). cbv zeta. rewrite Hex, Hraw, Hglob.
  split; intros Ho; rewrite Ho; reflexivity.
Qed.

Lemma empty_listing_raises_before_remote_calls_witness :
  __init__ world_ok (args_files true) [] =
  ([EvExists "bossdb://col/exp/ch" true],
   Raise (DataJointError
            "No files found in the specified directory /data/*.tif.")).
Proof.
  exact (proj1 (empty_listing_raises_before_remote_calls world_ok
                  (args_files true) [] bits0 eq_refl eq_refl eq_refl eq_refl)
               eq_refl).
Defined.

(** *** The overwrite check *)

(** An attempt that raises without a call is repeated until the budget is
    spent, and still nothing is called. *)
Lemma retry_loop_stuck (attempt : M unit) (retry_max : Z) (s : session) (e : exn) :
  attempt s = (s, Raise e) ->
  forall (n : nat) (retry_count : Z),
    Z.to_nat (retry_max - retry_count) = n ->
    retry_loop attempt retry_max retry_count s = (s, Raise e).
Proof.
  intros Ha. induction n as [n IH] using lt_wf_ind. intros rc Hn.
  rewrite retry_loop_eq, Ha.
  destruct (Z.gtb_spec (rc + 1) retry_max) as [Hgt|Hle]; [reflexivity|].
  apply (IH (Z.to_nat (retry_max - (rc + 1)))); [lia|reflexivity].
Qed.

(** On an instance that left the constructor at the overwrite check, an
    iteration of [upload] raises without any call. *)
Lemma upload_step_after_early_exit (w : env) (i : Z) (s : session) :
  _dtype (self s) = Unset -> _image_paths (self s) = Unset ->
  exists e, upload_step w i s = (s, Raise e).
Proof.
  intros Hd Hp. unfold upload_step, bind at 1, get_self. unfold bind at 1.
  unfold read_stack, bind at 1, get_self.
  destruct (_raw_data (self s)) as [raw|].
  - unfold ret.
    destruct (dataset_setitem_unset w
                (cutout_key i (normalize (getslice0 raw i
                   (Z.min (i + _upload_increment (self s))
                          (fst (fst (_shape_zyx (self s))))))))
                (normalize (getslice0 raw i
                   (Z.min (i + _upload_increment (self s))
                          (fst (fst (_shape_zyx (self s)))))))
                s Hd) as [e He].
    exists e. eapply retry_loop_stuck; [exact He|reflexivity].
  - unfold _np_from_images, bind at 1, getattr. rewrite Hp. eauto.
Qed.

Lemma upload_after_early_exit (w : env) (s : session) :
  _dtype (self s) = Unset -> _image_paths (self s) = Unset ->
  fst (upload w s) = s.
Proof.
  intros Hd Hp. unfold upload, bind, get_self.
  destruct (range 0 (fst (fst (_shape_zyx (self s)))) (_upload_increment (self s)))
    as [zs|e]; [|reflexivity].
  destruct zs as [|i zs]; [reflexivity|]. simpl. unfold bind.
  destruct (upload_step_after_early_exit w i s Hd Hp) as [e He].
  rewrite He. reflexivity.
Qed.

(** With [overwrite=True] and an existing destination, the constructor
    makes no provisioning call. *)
Lemma overwrite_skips_provisioning : ~ spec_overwrite_always_provisions.
Proof.
  intros H.
  destruct (H world_ok args0 [] bits0 eq_refl eq_refl) as [evs [Ht Hp]].
  vm_compute in Ht. subst evs. discriminate Hp.
Qed.

(** What the constructor has assigned on the instance it returns. *)
Lemma init_returns (w : env) (a : Args.t) (history tr : list event)
    (bits : bossdb_uri) (o : BossDBUpload) :
  _parse_bossdb_uri w (Args.url a) = Ok bits ->
  __init__ w a history = (tr, Ok o) ->
  _resources o = None /\ url_bits o = bits /\
  description o = "Uploaded via DataJoint" /\
  _shape_zyx o = Args.shape_zyx a /\
  _voxel_size o = (float (fst (fst (Args.voxel_size a))),
                   float (snd (fst (Args.voxel_size a))),
                   float (snd (Args.voxel_size a))) /\
  _raw_data o = Args.raw_data a /\
  _upload_increment o = Args.upload_increment a /\
  (_dtype o = Unset \/
   _dtype o = Assigned
                (or_else (Args.dtype a)
                   match Args.raw_data a with
                   | Some raw => NpDtype (Np.dtype raw)
                   | None => PyNone
                   end)).
Proof.
  intros Hp Hinit. rewrite (init_cases w a history bits Hp) in Hinit.
  cbv zeta in Hinit.
  destruct (negb (Args.overwrite a) && exists_ w history (Args.url a)).
  - inversion Hinit. subst. repeat split. left. reflexivity.
  - destruct (negb (exists_ w history (Args.url a))); [discriminate|].
    destruct (Args.raw_data a) as [raw|] eqn:Hraw.
    + inversion Hinit. subst. simpl. rewrite Hraw. repeat split.
      right. reflexivity.
    + destruct (glob_star (Args.data_dir a) (Args.data_extension a)) as [l|x];
        [|discriminate].
      destruct (sorted l); [discriminate|].
      inversion Hinit. subst. simpl. rewrite Hraw. repeat split.
      right. reflexivity.
Qed.

(** C5 (amended).  Take a session whose destination already exists.  With
    [overwrite=False] the constructor returns normally at the overwrite
    check, with no exception, having made no call but the existence probe: no
    provisioning call and no write; and a later [upload] on the instance it
    returned makes no call at all.  With [overwrite=True] the constructor
    goes past the check: it skips provisioning (the only call is still the
    existence probe) and sets up the volume source and the dtype.  For an
    in-memory volume it returns the instance with the caller's dtype, or
    that of the array; for a file sequence it raises what the listing raises,
    or the no-files-found error when the listing is empty, and otherwise
    returns the instance with the sorted listing and the caller's dtype, or
    [None].  On every instance so returned [upload] proceeds: when no write
    fails (and, for a file sequence, no slab fails to be read), it returns
    normally having written every slab of its loop once, in the order of the
    loop, and nothing else. *)
Theorem overwrite_check
    (w : env) (a : Args.t) (history : list event) (bits : bossdb_uri) :
  _parse_bossdb_uri w (Args.url a) = Ok bits ->
  exists_ w history (Args.url a) = true ->
  let tr := history ++ [EvExists (Args.url a) true] in
  let o0 := new_instance a bits true in
  (Args.overwrite a = false ->
   __init__ w a history = (tr, Ok o0) /\
   forall w', fst (upload w' {| self := o0; trace := tr |})
              = {| self := o0; trace := tr |}) /\
  (Args.overwrite a = true ->
   fst (__init__ w a history) = tr /\
   (forall raw, Args.raw_data a = Some raw ->
      snd (__init__ w a history)
      = Ok (set_dtype o0 (or_else (Args.dtype a) (NpDtype (Np.dtype raw))))) /\
   (Args.raw_data a = None ->
      snd (__init__ w a history) =
      match glob_star (Args.data_dir a) (Args.data_extension a) with
      | Raise e => Raise e
      | Ok [] => Raise (no_files_found a)
      | Ok (p :: ps) =>
          Ok (set_dtype (set_image_paths o0 (sorted (p :: ps)))
                        (or_else (Args.dtype a) PyNone))
      end) /\
   (forall o, snd (__init__ w a history) = Ok o ->
      forall (w' : env) (zs : list Z),
        range 0 (fst (fst (Args.shape_zyx a))) (Args.upload_increment a) = Ok zs ->
        (forall history' ds key data,
           setitem w' history' ds key data = Ok tt) ->
        (Args.raw_data a = None ->
         forall i tr', In i zs ->
           exists s' st,
             read_stack w' i (z_limit_of o i) {| self := o; trace := tr' |}
             = (s', Ok st)) ->
        exists evs,
          upload w' {| self := o; trace := tr |}
          = ({| self := o; trace := tr ++ evs |}, Ok tt) /\
          map fst (written_ranges evs) = zs /\
          count_writes evs = List.length zs)).
Proof.
  intros Hp Hex tr o0. pose proof (init_cases w a history bits Hp) as Hc.
  cbv zeta in Hc. rewrite Hex in Hc. fold tr in Hc. fold o0 in Hc.
  split; intros Ho; rewrite Ho in Hc; simpl in Hc.
  - rewrite Hc. split; [reflexivity|].
    intros w'. apply upload_after_early_exit; reflexivity.
  - assert (Hfst : fst (__init__ w a history) = tr).
    { rewrite Hc. destruct (Args.raw_data a); [reflexivity|].
      destruct (glob_star (Args.data_dir a) (Args.data_extension a)) as [l|x];
        [|reflexivity].
      destruct (sorted l); reflexivity. }
    split; [exact Hfst|]. split; [|split].
    + intros raw Hraw. rewrite Hc, Hraw. reflexivity.
    + intros Hraw. rewrite Hc, Hraw.
      destruct (glob_star (Args.data_dir a) (Args.data_extension a)) as [l|x];
        [|reflexivity].
      destruct l as [|p ps]; [reflexivity|].
      destruct (sorted (p :: ps)) as [|q qs] eqn:Hs; [|reflexivity].
      apply (proj1 (sorted_nil_iff _)) in Hs. discriminate Hs.
    + intros o Hret w' zs Hr Hok Hread.
      assert (Hinit : __init__ w a history = (tr, Ok o)).
      { rewrite (surjective_pairing (__init__ w a history)), Hfst, Hret.
        reflexivity. }
      destruct (init_returns w a history tr bits o Hp Hinit)
        as [_ [_ [_ [Hsh [_ [Hraw [Hinc Hdt]]]]]]].
      assert (Hdt' : exists dt, _dtype o = Assigned dt).
      { destruct Hdt as [Hdt|Hdt]; [|eauto]. exfalso.
        rewrite Hc in Hinit.
        destruct (Args.raw_data a);
          [inversion Hinit; subst o; discriminate Hdt|].
        destruct (glob_star (Args.data_dir a) (Args.data_extension a)) as [l|x];
          [|discriminate].
        destruct (sorted l); [discriminate|].
        inversion Hinit. subst o. discriminate Hdt. }
      destruct Hdt' as [dt Hdt'].
      rewrite (upload_loop w' {| self := o; trace := tr |} zs)
        by (simpl; rewrite Hsh, Hinc; exact Hr).
      apply (for_in_all_succeed w' o dt Hdt' Hok zs tr).
      intros i tr' Hi. destruct (Args.raw_data a) as [raw|] eqn:Hraw'.
      * do 2 eexists.
        apply (read_stack_in_memory w' i (z_limit_of o i)
                 {| self := o; trace := tr' |} raw Hraw).
      * apply (Hread eq_refl i tr' Hi).
Qed.

Lemma overwrite_check_witness :
  __init__ world_ok (args_files false) [] =
  ([EvExists "bossdb://col/exp/ch" true],
   Ok (new_instance (args_files false) bits0 true)) /\
  snd (__init__ world_ok args0 []) = Ok obj0 /\
  exists evs,
    upload world_ok session0
    = ({| self := obj0; trace := trace session0 ++ evs |}, Ok tt) /\
    map fst (written_ranges evs) = [0; 3].
Proof.
  split; [|split].
  - exact (proj1 (proj1 (overwrite_check world_ok (args_files false) [] bits0
                           eq_refl eq_refl) eq_refl)).
  - exact (proj1 (proj2 (proj2 (overwrite_check world_ok args0 [] bits0
                                  eq_refl eq_refl) eq_refl))
                 raw0 eq_refl).
  - destruct (proj2 (proj2 (proj2 (proj2 (overwrite_check world_ok args0 []
                                            bits0 eq_refl eq_refl) eq_refl)))
                obj0 eq_refl world_ok [0; 3] eq_refl (fun _ _ _ _ => eq_refl)
                (fun H => ltac:(discriminate H)))
      as [evs [Hrun [Hw _]]].
    exists evs. split; [|exact Hw]. exact Hrun.
Defined.

(** *** The coordinate frame *)

(** The descriptors of a dictionary that was built, but for the data type
    of the channels. *)
Lemma default_resources_built (o : BossDBUpload) (dt : dtype_value)
    (d : resources_dict) :
  default_resources o dt = Ok d ->
  exists datatype,
    validate_datatype dt = Ok datatype /\
    d = {| r_collection :=
             {| col_name := collection (url_bits o);
                col_description := description o |};
           r_coord_frame :=
             {| cf_name := coord_name o;
                cf_description := description o;
                x_start := 0;
                x_stop := snd (_shape_zyx o);
                y_start := 0;
                y_stop := snd (fst (_shape_zyx o));
                z_start := 0;
                z_stop := fst (fst (_shape_zyx o));
                x_voxel_size := snd (_voxel_size o);
                y_voxel_size := snd (fst (_voxel_size o));
                z_voxel_size := fst (fst (_voxel_size o)) |};
           r_experiment :=
             {| exp_name := experiment (url_bits o);
                exp_collection_name := collection (url_bits o);
                coord_frame := coord_name o;
                exp_description := description o |};
           r_channel_resource :=
             {| ch_name := channel (url_bits o);
                ch_collection_name := collection (url_bits o);
                ch_experiment_name := experiment (url_bits o);
                ch_type := "image";
                ch_description := description o;
                datatype := datatype;
                sources := [] |};
           r_channel :=
             {| ch_name := channel (url_bits o);
                ch_collection_name := collection (url_bits o);
                ch_experiment_name := experiment (url_bits o);
                ch_type := "image";
                ch_description := description o;
                datatype := datatype;
                sources := [] |} |}.
Proof.
  unfold default_resources, new_ChannelResource.
  destruct (validate_datatype dt) as [datatype|x]; [|discriminate].
  intros H. inversion H. exists datatype. auto.
Qed.

Lemma default_resources_refused (o : BossDBUpload) (dt : dtype_value) (e : exn) :
  default_resources o dt = Raise e -> validate_datatype dt = Raise e.
Proof.
  unfold default_resources, new_ChannelResource.
  destruct (validate_datatype dt) as [datatype|x]; [discriminate|].
  intros H. inversion H. reflexivity.
Qed.

(** C9.  Take any instance that the constructor has returned.  Whenever
    its [resources] property returns its dictionary, the coordinate-frame
    descriptor in it is named [CF_<collection>_<experiment>] after the parsed
    URI, starts at 0 on the three axes, stops at the width [shape_zyx[2]] on
    x, at the height [shape_zyx[1]] on y and at the depth [shape_zyx[0]] on
    z, and takes its x, y and z voxel sizes from positions 2, 1 and 0 of the
    ZYX voxel-size triple; reading the property makes no call.  The
    dictionary is returned whenever the dtype of the session is a string
    that, lower-cased, names a data type the channel constructor accepts;
    and when the property raises instead, it is because the dtype was never
    assigned or because the channel constructor refused it. *)
Theorem coord_frame_from_uri_and_geometry
    (w : env) (a : Args.t) (history tr : list event) (bits : bossdb_uri)
    (o : BossDBUpload) :
  _parse_bossdb_uri w (Args.url a) = Ok bits ->
  __init__ w a history = (tr, Ok o) ->
  let frame :=
    {| cf_name := ("CF_" ++ collection bits ++ "_" ++ experiment bits)%string;
       cf_description := "Uploaded via DataJoint";
       x_start := 0;
       x_stop := snd (Args.shape_zyx a);
       y_start := 0;
       y_stop := snd (fst (Args.shape_zyx a));
       z_start := 0;
       z_stop := fst (fst (Args.shape_zyx a));
       x_voxel_size := float (snd (Args.voxel_size a));
       y_voxel_size := float (snd (fst (Args.voxel_size a)));
       z_voxel_size := float (fst (fst (Args.voxel_size a))) |} in
  (forall s' d,
     resources {| self := o; trace := tr |} = (s', Ok d) ->
     trace s' = tr /\ r_coord_frame d = frame) /\
  (forall dtype,
     _dtype o = Assigned (PyStr dtype) ->
     In (lower dtype) valid_datatypes ->
     exists s' d, resources {| self := o; trace := tr |} = (s', Ok d)) /\
  (forall s' e,
     resources {| self := o; trace := tr |} = (s', Raise e) ->
     s' = {| self := o; trace := tr |} /\
     (_dtype o = Unset \/
      exists dt, _dtype o = Assigned dt /\ validate_datatype dt = Raise e)).
Proof.
  intros Hp Hinit frame.
  destruct (init_returns w a history tr bits o Hp Hinit)
    as [Hres [Hbits [Hdesc [Hsh [Hvs _]]]]].
  split; [|split].
  - intros s' d Hr. destruct (_dtype o) as [|dt] eqn:Hdt.
    + rewrite (resources_before_dtype {| self := o; trace := tr |} Hres Hdt) in Hr.
      discriminate Hr.
    + destruct (default_resources o dt) as [d'|x] eqn:Hv.
      * rewrite (resources_fresh o tr dt d' Hres Hdt Hv) in Hr.
        inversion Hr. subst s' d'. split; [reflexivity|].
        destruct (default_resources_built o dt d Hv) as [datatype [_ Hd]].
        subst d. unfold frame, coord_name. simpl.
        rewrite Hbits, Hdesc, Hsh, Hvs. reflexivity.
      * rewrite (resources_refused o tr dt x Hres Hdt Hv) in Hr. discriminate Hr.
  - intros dtype Hdt Hin.
    destruct (proj2 (default_resources_accepts o (PyStr dtype))
                (ex_intro _ dtype (conj eq_refl Hin))) as [d Hv].
    rewrite (resources_fresh o tr _ d Hres Hdt Hv). eauto.
  - intros s' e Hr. destruct (_dtype o) as [|dt] eqn:Hdt.
    + rewrite (resources_before_dtype {| self := o; trace := tr |} Hres Hdt) in Hr.
      inversion Hr. auto.
    + destruct (default_resources o dt) as [d'|x] eqn:Hv.
      * rewrite (resources_fresh o tr dt d' Hres Hdt Hv) in Hr. discriminate Hr.
      * rewrite (resources_refused o tr dt x Hres Hdt Hv) in Hr.
        inversion Hr. subst. split; [reflexivity|]. right. exists dt.
        split; [reflexivity|]. apply (default_resources_refused o dt e Hv).
Qed.

Lemma coord_frame_from_uri_and_geometry_witness :
  exists s' d,
    resources session_uint8 = (s', Ok d) /\
    trace s' = trace session_uint8 /\
    r_coord_frame d =
    {| cf_name := "CF_col_exp";
       cf_description := "Uploaded via DataJoint";
       x_start := 0; x_stop := 1;
       y_start := 0; y_stop := 2;
       z_start := 0; z_stop := 4;
       x_voxel_size := float 1;
       y_voxel_size := float 2;
       z_voxel_size := float 3 |}.
Proof.
  pose proof (coord_frame_from_uri_and_geometry world_ok
                (args_dtype (Some "uint8")) []
                [EvExists "bossdb://col/exp/ch" true] bits0 obj_uint8
                eq_refl eq_refl) as H.
  cbv zeta in H. destruct H as [Hframe [Hbuilt _]].
  destruct (Hbuilt "uint8" eq_refl (or_introl eq_refl)) as [s' [d Hr]].
  exists s', d. split; [exact Hr|]. exact (Hframe s' d Hr).
Defined.

(** Provisioning on the session of [args0], in a store where the fetches
    fail with status 404 and the creations succeed: five fetches and five
    creations, the experiment carrying the confirmed frame name. *)
Example try_create_new_on_empty_store :
  let w404 :=
    {| _parse_bossdb_uri := fun _ => Ok bits0;
       exists_ := fun _ _ => true;
       get_project := fun _ _ => Raise (HTTPError 404 "Not Found");
       create_project := fun _ obj => Ok obj;
       setitem := fun _ _ _ _ => Ok tt;
       Image_open := fun _ => Raise (OtherException "FileNotFoundError" "No such file");
       np_array := fun p _ => Ok p |} in
  snd (try_create_new w404 session_uint8) = Ok tt /\
  map name
    (flat_map (fun ev => match ev with
                         | EvCreateProject obj (Ok _) => [obj]
                         | _ => []
                         end)
              (trace (fst (try_create_new w404 session_uint8))))
  = ["col"; "CF_col_exp"; "exp"; "ch"; "ch"].
Proof. split; reflexivity. Qed.

(* ===================================================================== *)
(** ** Further properties of the methods *)
(* ===================================================================== *)

(** *** Degenerate increments and depths *)

(** X1.  With [upload_increment = 0], [upload] raises the [ValueError] of
    [range] before it reads or writes anything. *)
Theorem upload_zero_increment (w : env) (s : session) :
  _upload_increment (self s) = 0 ->
  upload w s = (s, Raise zero_step).
Proof.
  intros H. unfold upload, bind, get_self, range. rewrite H. reflexivity.
Qed.

Lemma upload_zero_increment_witness :
  upload world_ok (session_increment 0) = (session_increment 0, Raise zero_step).
Proof.
  exact (upload_zero_increment world_ok (session_increment 0) eq_refl).
Defined.

Lemma range_empty (stop step : Z) :
  (0 < step /\ stop <= 0) \/ (step < 0 /\ 0 <= stop) ->
  range 0 stop step = Ok [].
Proof.
  intros H. unfold range, range_length.
  destruct (Z.eqb_spec step 0) as [H0|_]; [lia|].
  destruct (Z.ltb_spec 0 step); destruct (Z.ltb_spec 0 stop);
    destruct (Z.ltb_spec stop 0); try lia; reflexivity.
Qed.

(** X2.  When the loop of [upload] has nothing to visit, because the depth
    is not positive, or because the increment is negative while the depth is
    not, [upload] returns normally without reading or writing anything: a
    negative increment uploads nothing and reports nothing. *)
Theorem upload_empty_loop (w : env) (s : session) :
  let depth := fst (fst (_shape_zyx (self s))) in
  let increment := _upload_increment (self s) in
  (0 < increment /\ depth <= 0) \/ (increment < 0 /\ 0 <= depth) ->
  upload w s = (s, Ok tt).
Proof.
  intros depth increment H. unfold upload, bind, get_self.
  fold depth. fold increment. rewrite (range_empty depth increment H).
  reflexivity.
Qed.

Lemma upload_empty_loop_witness :
  upload world_offline (session_increment (-3))
  = (session_increment (-3), Ok tt).
Proof.
  apply (upload_empty_loop world_offline (session_increment (-3))).
  right. split.
  - reflexivity.
  - discriminate.
Defined.

(** *** The instance returned at the overwrite check *)

Lemma dataset_setitem_before_dtype (w : env) (key : cutout) (data : ndarray)
    (s : session) :
  _dtype (self s) = Unset ->
  dataset_setitem w key data s = (s, Raise no_dtype_attribute).
Proof.
  intros H. unfold dataset_setitem, dataset, bind, get_self, getattr, ret.
  simpl. rewrite H. reflexivity.
Qed.

(** X3.  On an instance whose constructor returned at the overwrite check
    (neither [_dtype] nor [_image_paths] was assigned), [upload] with a loop
    that has at least one slab raises [AttributeError] and sends nothing: for
    an in-memory volume every attempt of the first slab fails on the read of
    [self._dtype] in the [dataset] property, until the retry budget is
    spent; for a file sequence the read of [self._image_paths] fails at
    once. *)
Theorem upload_after_early_return_raises
    (w : env) (s : session) (i : Z) (zs : list Z) :
  _dtype (self s) = Unset ->
  _image_paths (self s) = Unset ->
  range 0 (fst (fst (_shape_zyx (self s)))) (_upload_increment (self s))
  = Ok (i :: zs) ->
  upload w s =
  (s, Raise (match _raw_data (self s) with
             | Some _ => no_dtype_attribute
             | None =>
                 AttributeError
                   "'BossDBUpload' object has no attribute '_image_paths'"
             end)).
Proof.
  intros Hd Hp Hr. unfold upload, bind at 1, get_self. rewrite Hr.
  simpl. unfold bind at 1.
  unfold upload_step, bind at 1, get_self. unfold bind at 1.
  unfold read_stack, bind at 1, get_self.
  destruct (_raw_data (self s)) as [raw|].
  - unfold ret.
    rewrite (retry_loop_stuck _ _ s no_dtype_attribute
               (dataset_setitem_before_dtype w _ _ s Hd) _ 0 eq_refl).
    reflexivity.
  - unfold _np_from_images, bind at 1, getattr. rewrite Hp. reflexivity.
Qed.

Lemma upload_after_early_return_raises_witness :
  upload world_ok session_early_exit
  = (session_early_exit, Raise no_dtype_attribute).
Proof.
  exact (upload_after_early_return_raises world_ok session_early_exit 0 [3]
           eq_refl eq_refl eq_refl).
Defined.

(** *** The number of write attempts *)

Lemma count_writes_le_length (evs : list event) :
  (count_writes evs <= List.length evs)%nat.
Proof. unfold count_writes. apply filter_length_le. Qed.

(** The retry loop makes at most one attempt more than the budget it has
    left. *)
Lemma retry_loop_attempts_bounded (w : env) (key : cutout) (data : ndarray)
    (retry_max : Z) :
  forall (n : nat) (retry_count : Z) (s : session),
    Z.to_nat (retry_max - retry_count) = n ->
    self (fst (retry_loop (dataset_setitem w key data) retry_max retry_count s))
    = self s /\
    exists evs,
      trace (fst (retry_loop (dataset_setitem w key data) retry_max
                             retry_count s))
      = trace s ++ evs /\
      (List.length evs <= n + 1)%nat.
Proof.
  assert (Hatt : forall s,
            self (fst (dataset_setitem w key data s)) = self s /\
            exists evs, trace (fst (dataset_setitem w key data s))
                        = trace s ++ evs /\ (List.length evs <= 1)%nat).
  { intros s. unfold dataset_setitem, dataset, bind, get_self, getattr, ret.
    destruct (_dtype (self s)); simpl.
    - split; [reflexivity|]. exists []. rewrite app_nil_r. auto.
    - split; [reflexivity|]. eexists. split; [reflexivity|]. simpl. lia. }
  induction n as [n IH] using lt_wf_ind. intros rc s Hn.
  rewrite retry_loop_eq. destruct (Hatt s) as [Hs [e1 [Ht1 Hl1]]].
  destruct (dataset_setitem w key data s) as [s1 [u|e]]; simpl in *.
  - split; [exact Hs|]. exists e1. split; [exact Ht1|lia].
  - destruct (Z.gtb_spec (rc + 1) retry_max) as [Hgt|Hle]; simpl.
    + split; [exact Hs|]. exists e1. split; [exact Ht1|lia].
    + destruct (IH (Z.to_nat (retry_max - (rc + 1))) ltac:(lia) (rc + 1) s1
                  eq_refl) as [Hs2 [e2 [Ht2 Hl2]]].
      split; [congruence|]. exists (e1 ++ e2).
      rewrite Ht2, Ht1, app_assoc, length_app. split; [reflexivity|lia].
Qed.

Lemma upload_step_writes_bounded (w : env) (i : Z) (s : session) :
  self (fst (upload_step w i s)) = self s /\
  exists evs,
    trace (fst (upload_step w i s)) = trace s ++ evs /\
    (count_writes evs <= Z.to_nat (_retry_max (self s)) + 1)%nat.
Proof.
  split; [apply upload_step_self|].
  destruct (read_stack_extends w i (z_limit_of (self s) i) s)
    as [Hs1 [e1 [Ht1 Hp1]]].
  destruct (read_stack w i (z_limit_of (self s) i) s) as [s1 [st|e]] eqn:Hr;
    simpl in *.
  - rewrite (upload_step_read w i s s1 st Hr).
    destruct (retry_loop_attempts_bounded w (cutout_key i (normalize st))
                (normalize st) (_retry_max (self s))
                (Z.to_nat (_retry_max (self s))) 0 s1
                ltac:(rewrite Z.sub_0_r; reflexivity)) as [_ [e2 [Ht2 Hl2]]].
    exists (e1 ++ e2). rewrite Ht2, Ht1, app_assoc. split; [reflexivity|].
    rewrite count_writes_app, (count_writes_image_opens e1 Hp1).
    pose proof (count_writes_le_length e2). lia.
  - rewrite (upload_step_read_fails w i s s1 e Hr). simpl.
    exists e1. split; [exact Ht1|].
    rewrite (count_writes_image_opens e1 Hp1). lia.
Qed.

Lemma for_in_writes_bounded (w : env) (o : BossDBUpload) :
  forall (zs : list Z) (s : session),
    self s = o ->
    exists evs,
      trace (fst (for_in zs (upload_step w) s)) = trace s ++ evs /\
      (count_writes evs
       <= List.length zs * (Z.to_nat (_retry_max o) + 1))%nat.
Proof.
  induction zs as [|i zs IH]; intros s Ho; simpl.
  - exists []. rewrite app_nil_r. split; [reflexivity|].
    unfold count_writes. simpl. lia.
  - unfold bind.
    destruct (upload_step_writes_bounded w i s) as [Hs1 [e1 [Ht1 Hc1]]].
    rewrite Ho in Hc1.
    destruct (upload_step w i s) as [s1 [u|e]]; simpl in *.
    + destruct (IH s1 ltac:(congruence)) as [e2 [Ht2 Hc2]].
      exists (e1 ++ e2). rewrite Ht2, Ht1, app_assoc. split; [reflexivity|].
      rewrite count_writes_app. lia.
    + exists e1. split; [exact Ht1|]. nia.
Qed.

(** X4.  Whatever the collaborators answer, [upload] makes at most
    [retry_max + 1] write attempts per slab of its loop (one per slab when
    [retry_max] is negative): over [n] slabs, never more than
    [n * (max retry_max 0 + 1)] attempts. *)
Theorem upload_write_attempts_bounded (w : env) (s : session) (zs : list Z) :
  range 0 (fst (fst (_shape_zyx (self s)))) (_upload_increment (self s)) = Ok zs ->
  exists evs,
    trace (fst (upload w s)) = trace s ++ evs /\
    (count_writes evs
     <= List.length zs * (Z.to_nat (_retry_max (self s)) + 1))%nat.
Proof.
  intros Hr. unfold upload, bind at 1, get_self. rewrite Hr.
  apply for_in_writes_bounded. reflexivity.
Qed.

Lemma upload_write_attempts_bounded_witness :
  exists evs,
    trace (fst (upload world_offline session0)) = trace session0 ++ evs /\
    (count_writes evs <= 6)%nat.
Proof.
  apply (upload_write_attempts_bounded world_offline session0 [0; 3]).
  reflexivity.
Defined.

(** *** Invariants of the writes, slab by slab *)

Lemma retry_loop_extends_on (P : event -> Prop) (attempt : M unit)
    (retry_max : Z) (o : BossDBUpload) :
  (forall s, self s = o -> extends P s (fst (attempt s))) ->
  forall (n : nat) (retry_count : Z) (s : session),
    self s = o ->
    Z.to_nat (retry_max - retry_count) = n ->
    extends P s (fst (retry_loop attempt retry_max retry_count s)).
Proof.
  intros Hatt. induction n as [n IH] using lt_wf_ind.
  intros rc s Ho Hn. rewrite retry_loop_eq. specialize (Hatt s Ho).
  destruct (attempt s) as [s' [u|e]]; simpl in *; [exact Hatt|].
  destruct (Z.gtb_spec (rc + 1) retry_max) as [Hgt|Hle]; simpl; [exact Hatt|].
  eapply extends_trans; [exact Hatt|].
  apply (IH (Z.to_nat (retry_max - (rc + 1)))); [lia| |reflexivity].
  destruct Hatt as [Hs _]. congruence.
Qed.

(** A property of the calls of each iteration holds of all the calls of the
    loop. *)
Lemma for_in_upload_Forall (P : Z -> event -> Prop) (w : env)
    (o : BossDBUpload) (zs0 : list Z) :
  (forall i s, In i zs0 -> self s = o ->
     extends (P i) s (fst (upload_step w i s))) ->
  forall (zs : list Z) (s : session),
    incl zs zs0 -> self s = o ->
    extends (fun ev => exists i, In i zs0 /\ P i ev) s
            (fst (for_in zs (upload_step w) s)).
Proof.
  intros Hstep. induction zs as [|i zs IH]; intros s Hincl Ho; simpl.
  - apply extends_refl.
  - unfold bind.
    assert (Hi : In i zs0) by (apply Hincl; left; reflexivity).
    pose proof (Hstep i s Hi Ho) as Hs.
    destruct (upload_step w i s) as [s1 [u|e]]; simpl in Hs.
    + eapply extends_trans.
      * eapply extends_weaken; [|exact Hs]. intros ev Hev. exists i. auto.
      * apply IH.
        -- intros j Hj. apply Hincl. right. exact Hj.
        -- destruct Hs as [Hs _]. congruence.
    + simpl. eapply extends_weaken; [|exact Hs]. intros ev Hev. exists i. auto.
Qed.

Lemma upload_Forall (P : Z -> event -> Prop) (w : env) (s : session)
    (zs : list Z) :
  range 0 (fst (fst (_shape_zyx (self s)))) (_upload_increment (self s)) = Ok zs ->
  (forall i s', In i zs -> self s' = self s ->
     extends (P i) s' (fst (upload_step w i s'))) ->
  extends (fun ev => exists i, In i zs /\ P i ev) s (fst (upload w s)).
Proof.
  intros Hr Hstep. unfold upload, bind at 1, get_self. rewrite Hr.
  apply (for_in_upload_Forall P w (self s) zs Hstep zs s);
    [apply incl_refl|reflexivity].
Qed.

(** The starts of a loop with a positive increment are not negative. *)
Lemma range_nonneg (stop step : Z) (zs : list Z) (i : Z) :
  0 < step -> range 0 stop step = Ok zs -> In i zs -> 0 <= i.
Proof.
  intros Hs Hr Hi. unfold range in Hr.
  destruct (Z.eqb_spec step 0); [lia|]. inversion Hr. subst zs.
  apply in_map_iff in Hi. destruct Hi as [k [Hk _]]. nia.
Qed.

(** They lie below the stop. *)
Lemma range_below_stop (stop step : Z) (zs : list Z) (i : Z) :
  0 < step -> range 0 stop step = Ok zs -> In i zs -> i < stop.
Proof.
  intros Hs Hr Hi. unfold range, range_length in Hr.
  destruct (Z.eqb_spec step 0); [lia|].
  destruct (Z.ltb_spec 0 step); [|lia].
  inversion Hr. subst zs. clear Hr.
  apply in_map_iff in Hi. destruct Hi as [k [Hk Hin]]. apply in_seq in Hin.
  destruct (Z.ltb_spec 0 stop) as [Hpos|Hneg]; [|simpl in Hin; lia].
  rewrite Z.sub_0_r in Hin.
  assert (0 <= (stop - 1) / step) by (apply Z.div_pos; lia).
  pose proof (Z.mul_div_le (stop - 1) step Hs).
  assert (Z.of_nat k <= (stop - 1) / step) by lia.
  nia.
Qed.

(** A slice along the first axis is a window on the same elements. *)
Lemma getslice0_item (a : ndarray) (start stop : Z) (k j l : nat) :
  0 <= start ->
  (k < dim0 (getslice0 a start stop))%nat ->
  item (getslice0 a start stop) k j l = item a (Z.to_nat start + k) j l.
Proof.
  intros Hstart Hk. unfold getslice0, slice_bounds, adjust_index in *.
  destruct (strides a) as [[s0 s1] s2] eqn:Hst.
  destruct (Z.ltb_spec start 0) as [Hneg|_]; [lia|].
  unfold dim0 at 1 in Hk. simpl in Hk.
  assert (Hb : Z.min start (Z.of_nat (dim0 a)) = start).
  { destruct (Z.ltb_spec stop 0); lia. }
  unfold item, flat_index. simpl. rewrite Hst, Hb.
  replace (Z.of_nat (Z.to_nat start + k)) with (start + Z.of_nat k) by lia.
  replace (offset a + (start + Z.of_nat k) * s0 + Z.of_nat j * s1
           + Z.of_nat l * s2)
    with (offset a + start * s0 + Z.of_nat k * s0 + Z.of_nat j * s1
          + Z.of_nat l * s2) by ring.
  reflexivity.
Qed.

Lemma getslice0_dims (a : ndarray) (start stop : Z) :
  dim1 (getslice0 a start stop) = dim1 a /\
  dim2 (getslice0 a start stop) = dim2 a /\
  base (getslice0 a start stop) = base a /\
  strides (getslice0 a start stop) = strides a.
Proof.
  unfold getslice0. destruct (slice_bounds _ start stop) as [b n].
  destruct (strides a) as [[s0 s1] s2] eqn:Hst. simpl. auto.
Qed.

Lemma upload_step_in_memory (w : env) (i : Z) (s : session) (raw : ndarray)
    (dt : dtype_value) :
  _raw_data (self s) = Some raw ->
  _dtype (self s) = Assigned dt ->
  extends (fun ev => exists r,
             ev = EvSetItem (BossDBInterface_args (self s) dt)
                            (cutout_key i (memory_stack (self s) raw i))
                            (memory_stack (self s) raw i) r)
          s (fst (upload_step w i s)).
Proof.
  intros Hraw Hdt.
  assert (Hread : read_stack w i (z_limit_of (self s) i) s
                  = (s, Ok (getslice0 raw i (z_limit_of (self s) i)))).
  { unfold read_stack, bind, get_self, ret. rewrite Hraw. reflexivity. }
  rewrite (upload_step_read w i s s _ Hread).
  eapply (retry_loop_extends_on _ _ _ (self s)); [|reflexivity|reflexivity].
  intros s' Hs'. destruct s' as [o' tr']. simpl in Hs'. subst o'.
  rewrite (dataset_setitem_assigned _ _ _ _ _ _ Hdt). simpl.
  split; [reflexivity|]. eexists. split; [reflexivity|].
  constructor; [|constructor]. eexists. reflexivity.
Qed.

(** X5.  For an in-memory volume and a positive increment, whatever the
    store answers, [upload] makes no call but writes, and every write sends
    to the z-range [i, i + d) a contiguous stack of [d] slices that holds, at
    [(k, j, l)], the element [(i + k, j, l)] of [raw_data]: the voxels go to
    the depth they came from.  The stack has the height and the width of
    [raw_data]. *)
Theorem upload_in_memory_sends_the_slices
    (w : env) (s : session) (raw : ndarray) (dt : dtype_value) :
  _raw_data (self s) = Some raw ->
  _dtype (self s) = Assigned dt ->
  0 < _upload_increment (self s) ->
  exists evs,
    trace (fst (upload w s)) = trace s ++ evs /\
    Forall (fun ev =>
              exists i data r,
                ev = EvSetItem (BossDBInterface_args (self s) dt)
                               (cutout_key i data) data r /\
                0 <= i /\
                z_range (cutout_key i data) = (i, i + Z.of_nat (dim0 data)) /\
                C_CONTIGUOUS data = true /\
                dim1 data = dim1 raw /\
                dim2 data = dim2 raw /\
                forall k j l v,
                  (k < dim0 data)%nat -> (j < dim1 raw)%nat ->
                  (l < dim2 raw)%nat ->
                  item raw (Z.to_nat i + k) j l = Some v ->
                  item data k j l = Some v) evs.
Proof.
  intros Hraw Hdt Hinc. unfold upload at 1.
  destruct (range 0 (fst (fst (_shape_zyx (self s)))) (_upload_increment (self s)))
    as [zs|e] eqn:Hr.
  2:{ unfold range in Hr. destruct (Z.eqb_spec (_upload_increment (self s)) 0);
        [lia|discriminate]. }
  destruct (upload_Forall
              (fun i ev => exists r,
                 ev = EvSetItem (BossDBInterface_args (self s) dt)
                                (cutout_key i (memory_stack (self s) raw i))
                                (memory_stack (self s) raw i) r)
              w s zs Hr) as [_ [evs [Ht Hall]]].
  { intros i s' _ Hs'. rewrite <- Hs'.
    apply upload_step_in_memory; rewrite Hs'; assumption. }
  exists evs. split; [exact Ht|].
  eapply Forall_impl; [|exact Hall].
  intros ev [i [Hi [r Hev]]]. exists i, (memory_stack (self s) raw i), r.
  pose proof (range_nonneg _ _ _ i Hinc Hr Hi) as Hi0.
  assert (Hsh : shape (memory_stack (self s) raw i)
                = shape (getslice0 raw i (z_limit_of (self s) i)))
    by apply normalize_shape.
  destruct (getslice0_dims raw i (z_limit_of (self s) i)) as [Hd1 [Hd2 _]].
  split; [exact Hev|]. split; [exact Hi0|].
  split; [apply z_range_cutout_key|].
  split; [apply normalize_contiguous|].
  split; [unfold dim1 at 1; rewrite Hsh; exact Hd1|].
  split; [unfold dim2 at 1; rewrite Hsh; exact Hd2|].
  intros k j l v Hk Hj Hl Hv. unfold memory_stack.
  unfold dim0 in Hk. rewrite Hsh in Hk. fold (dim0 (getslice0 raw i
    (z_limit_of (self s) i))) in Hk.
  apply normalize_item; try assumption.
  - rewrite Hd1. exact Hj.
  - rewrite Hd2. exact Hl.
  - rewrite getslice0_item by assumption. exact Hv.
Qed.

Lemma upload_in_memory_sends_the_slices_witness :
  exists evs,
    trace (fst (upload world_flaky session0)) = trace session0 ++ evs /\
    List.length evs = 3%nat.
Proof.
  destruct (upload_in_memory_sends_the_slices world_flaky session0 raw0
              (NpDtype "uint8") eq_refl eq_refl eq_refl) as [evs [Ht _]].
  exists evs. split; [exact Ht|].
  vm_compute in Ht. injection Ht as Ht. subst evs. reflexivity.
Defined.

(** *** A run without failure *)

(** X6.  For an in-memory volume, when no write fails, [upload] returns
    normally after exactly one write per slab, in ascending order of the
    loop, each of the slice [raw_data[i:z_limit]] normalised, at the key of
    that stack; it makes no other call.  For a positive depth and increment
    that is [(depth - 1) / increment + 1] writes, the number of slabs. *)
Theorem upload_in_memory_one_write_per_slab
    (w : env) (s : session) (raw : ndarray) (dt : dtype_value) (zs : list Z) :
  let depth := fst (fst (_shape_zyx (self s))) in
  let increment := _upload_increment (self s) in
  _raw_data (self s) = Some raw ->
  _dtype (self s) = Assigned dt ->
  range 0 depth increment = Ok zs ->
  (forall history ds key data, setitem w history ds key data = Ok tt) ->
  upload w s =
  ({| self := self s;
      trace := trace s ++ map (memory_write_ok (self s) dt raw) zs |}, Ok tt) /\
  (0 < depth -> 0 < increment ->
   Z.of_nat (List.length (map (memory_write_ok (self s) dt raw) zs))
   = (depth - 1) / increment + 1).
Proof.
  intros depth increment Hraw Hdt Hr Hok. split.
  - unfold upload, bind at 1, get_self. fold depth. fold increment.
    rewrite Hr. destruct s as [o tr]. simpl in *.
    apply for_in_in_memory_all_succeed; assumption.
  - intros Hd Hi. rewrite length_map. apply (range_count depth increment zs);
      assumption.
Qed.

Lemma upload_in_memory_one_write_per_slab_witness :
  upload world_ok session0 =
  ({| self := obj0;
      trace := trace session0
               ++ [memory_write_ok obj0 (NpDtype "uint8") raw0 0;
                   memory_write_ok obj0 (NpDtype "uint8") raw0 3] |}, Ok tt).
Proof.
  exact (proj1 (upload_in_memory_one_write_per_slab world_ok session0 raw0
                  (NpDtype "uint8") [0; 3] eq_refl eq_refl eq_refl
                  (fun _ _ _ _ => eq_refl))).
Defined.

(** *** File sequences *)

Lemma comprehension_open_run (w : env) (l : list string) :
  forall s : session,
  exists n out,
    (n <= List.length l)%nat /\
    comprehension (open_image w) l s
    = ({| self := self s; trace := trace s ++ image_reads w (firstn n l) |},
       out) /\
    (forall imgs,
       out = Ok imgs ->
       n = List.length l /\
       Forall2 (fun p img => Image_open w p = Ok img) l imgs).
Proof.
  induction l as [|p l IH]; intros s.
  - exists 0%nat, (Ok []). split; [simpl; lia|]. split.
    + simpl. unfold ret. rewrite app_nil_r. destruct s; reflexivity.
    + intros imgs H. inversion H. split; [reflexivity|constructor].
  - destruct (Image_open w p) as [img|e] eqn:Hp.
    + destruct (IH (log s (EvImageOpen p (Ok img))))
        as [n [out [Hn [Hrun Hok]]]].
      exists (S n),
             (match out with
              | Ok imgs => Ok (img :: imgs)
              | Raise e => Raise e
              end).
      split; [simpl; lia|]. split.
      * simpl. unfold bind at 1. unfold open_image at 1. rewrite Hp.
        unfold bind at 1. rewrite Hrun. simpl. rewrite <- app_assoc.
        destruct out; reflexivity.
      * intros imgs H. destruct out as [imgs0|e]; [|discriminate].
        inversion H. subst imgs.
        destruct (Hok imgs0 eq_refl) as [Hlen Hall].
        split; [simpl; lia|]. constructor; assumption.
    + exists 1%nat, (Raise e). split; [simpl; lia|]. split.
      * simpl. unfold bind at 1. unfold open_image at 1. rewrite Hp.
        reflexivity.
      * intros imgs H. discriminate H.
Qed.

Lemma comprehension_decode_run (w : env) (imgs : list plane) (s s' : session)
    (planes : list plane) :
  comprehension (decode w) imgs s = (s', Ok planes) ->
  s' = s /\
  forall dt, _dtype (self s) = Assigned dt ->
    Forall2 (fun img pl => np_array w img dt = Ok pl) imgs planes.
Proof.
  revert planes. induction imgs as [|img imgs IH]; intros planes H; simpl in H.
  - inversion H. split; [reflexivity|]. intros; constructor.
  - unfold bind at 1 in H. unfold decode at 1, bind, getattr in H.
    destruct (_dtype (self s)) as [|dt] eqn:Hdt; [discriminate|].
    destruct (np_array w img dt) as [pl|e] eqn:Hpl; [|discriminate].
    fold (comprehension (decode w) imgs) in H.
    destruct (comprehension (decode w) imgs s) as [s1 [pls|e]] eqn:Hc;
      [|discriminate].
    unfold ret in H. inversion H. subst.
    destruct (IH pls eq_refl) as [Hs Hall]. split; [exact Hs|].
    intros dt' Hdt'. inversion Hdt'. subst dt'. constructor; auto.
Qed.

(** A stack of planes is a packed row-major array. *)
Lemma stack_contiguous (l : list plane) (a : ndarray) :
  Np.stack l = Ok a -> C_CONTIGUOUS a = true.
Proof.
  unfold Np.stack. destruct l as [|p r]; [discriminate|].
  destruct (forallb (same_shape p) r); [|discriminate].
  intros H. inversion H. unfold C_CONTIGUOUS, c_strides. simpl.
  destruct (rows p =? 0)%nat; [reflexivity|].
  destruct (cols p =? 0)%nat; [reflexivity|]. simpl.
  rewrite !Z.eqb_refl, (Z.mul_comm (Z.of_nat (rows p))), Z.eqb_refl.
  rewrite !orb_true_r. reflexivity.
Qed.

(** X7.  When [_np_from_images(i, z_limit)] returns, it has opened exactly
    the files [image_paths[i:z_limit]], each once and in sorted order, and
    nothing else; the stack it returns is [np.stack] of these images, each
    converted with the session's dtype, in the same order.  That stack is
    row-major contiguous, so the normalisation of [upload] passes it on as it
    is, without a copy. *)
Theorem np_from_images_stacks_the_slice
    (w : env) (i z_limit : Z) (s s' : session) (st : ndarray)
    (paths : list string) (dt : dtype_value) :
  _image_paths (self s) = Assigned paths ->
  _dtype (self s) = Assigned dt ->
  _np_from_images w i z_limit s = (s', Ok st) ->
  self s' = self s /\
  trace s' = trace s ++ image_reads w (getslice paths i z_limit) /\
  (exists images planes,
     Forall2 (fun p img => Image_open w p = Ok img)
             (getslice paths i z_limit) images /\
     Forall2 (fun img pl => np_array w img dt = Ok pl) images planes /\
     Np.stack planes = Ok st) /\
  normalize st = st.
Proof.
  intros Hp Hdt H. unfold _np_from_images, bind at 1, getattr in H.
  rewrite Hp in H. unfold bind at 1 in H.
  destruct (comprehension_open_run w (getslice paths i z_limit) s)
    as [n [out [Hn [Hrun Hok]]]].
  rewrite Hrun in H. destruct out as [imgs|e]; [|discriminate].
  destruct (Hok imgs eq_refl) as [Hlen Hopen].
  unfold bind in H.
  destruct (comprehension (decode w) imgs _) as [s2 [planes|e]] eqn:Hd;
    [|discriminate].
  destruct (comprehension_decode_run w imgs _ s2 planes Hd) as [Hs2 Hdec].
  injection H as Hs' Hst. rewrite Hs2 in Hs'. rewrite <- Hs'. simpl.
  rewrite Hlen, firstn_all.
  split; [reflexivity|]. split; [reflexivity|]. split.
  - exists imgs, planes. split; [exact Hopen|]. split; [|exact Hst].
    apply Hdec. simpl. exact Hdt.
  - apply normalize_id. exact (stack_contiguous planes st Hst).
Qed.

Lemma np_from_images_stacks_the_slice_witness :
  exists s',
    _np_from_images world_files 0 2 (session_dir ".tif")
    = (s', Ok {| base := [10; 11; 20; 21];
                 offset := 0;
                 shape := (2%nat, 1%nat, 2%nat);
                 strides := (2, 2, 1);
                 dtype := "uint8" |}) /\
    trace s' = trace (session_dir ".tif")
               ++ [EvImageOpen "/data/a.tif" (Ok plane_a);
                   EvImageOpen "/data/b.tif" (Ok plane_b)].
Proof.
  eexists. split; [reflexivity|].
  exact (proj1 (proj2 (np_from_images_stacks_the_slice world_files 0 2
                         (session_dir ".tif") _ _
                         ["/data/a.tif"; "/data/b.tif"] PyNone
                         eq_refl eq_refl eq_refl))).
Defined.

(** X8.  An exception raised while the stack of a slab is read (a file that
    cannot be opened or decoded, images of different shapes, an empty slice)
    leaves [upload] at once with that exception: the slab is not written, the
    retry budget is not used, and no later slab is read or written.  The
    writes of the earlier slabs stay. *)
Theorem upload_read_failure_is_fatal
    (w : env) (s0 s1 s2 : session) (pre post : list Z) (i : Z) (e : exn) :
  range 0 (fst (fst (_shape_zyx (self s0)))) (_upload_increment (self s0))
  = Ok (pre ++ i :: post) ->
  for_in pre (upload_step w) s0 = (s1, Ok tt) ->
  read_stack w i (z_limit_of (self s0) i) s1 = (s2, Raise e) ->
  upload w s0 = (s2, Raise e) /\
  exists evs,
    trace s2 = trace s1 ++ evs /\
    Forall (fun ev => is_image_open ev = true) evs.
Proof.
  intros Hr Hpre Hread.
  pose proof (for_in_self w pre s0 s1 _ Hpre) as Hself1.
  split.
  - unfold upload, bind at 1, get_self. rewrite Hr, for_in_app, Hpre.
    simpl. unfold bind.
    rewrite (upload_step_read_fails w i s1 s2 e)
      by (rewrite Hself1; exact Hread).
    reflexivity.
  - destruct (read_stack_extends w i (z_limit_of (self s0) i) s1)
      as [_ [evs [Ht Hp]]].
    rewrite Hread in Ht. exists evs. auto.
Qed.

Lemma upload_read_failure_is_fatal_witness :
  snd (upload world_files (session_dir ".txt"))
  = Raise (OtherException "UnidentifiedImageError" "cannot identify image file")
  /\ count_writes (trace (fst (upload world_files (session_dir ".txt")))) = 0%nat.
Proof.
  destruct (upload_read_failure_is_fatal world_files (session_dir ".txt")
              (session_dir ".txt") _ [] [] 0 _ eq_refl eq_refl eq_refl)
    as [Hrun _].
  rewrite Hrun. split; reflexivity.
Defined.

Lemma firstn_skipn_incl {A : Type} (l : list A) (a n : nat) (x : A) :
  In x (firstn n (skipn a l)) -> In x (firstn (a + n) l).
Proof.
  revert l. induction a as [|a IH]; intros l H; simpl in *; [exact H|].
  destruct l as [|y l]; simpl in *.
  - destruct n; simpl in H; contradiction.
  - right. apply IH. exact H.
Qed.

Lemma firstn_incl_le {A : Type} (l : list A) (n m : nat) (x : A) :
  (n <= m)%nat -> In x (firstn n l) -> In x (firstn m l).
Proof.
  revert n m. induction l as [|y l IH]; intros n m Hle H.
  - rewrite firstn_nil in H. contradiction.
  - destruct n; [simpl in H; contradiction|].
    destruct m; [lia|]. simpl in *. destruct H as [H|H]; [left; exact H|].
    right. apply (IH n m); [lia|exact H].
Qed.

(** The elements of [l[a:b]] are among the first [d] when [0 <= a] and
    [b <= d]. *)
Lemma getslice_within {A : Type} (l : list A) (a b d : Z) (x : A) :
  0 <= a -> 0 <= b <= d ->
  In x (getslice l a b) -> In x (firstn (Z.to_nat d) l).
Proof.
  intros Ha Hb H. unfold getslice, slice_bounds, adjust_index in H.
  destruct (Z.ltb_spec a 0) as [Hneg|_]; [lia|].
  destruct (Z.ltb_spec b 0) as [Hneg|_]; [lia|].
  simpl in H.
  remember (Z.to_nat (Z.max 0 (Z.min b (Z.of_nat (List.length l))
                               - Z.min a (Z.of_nat (List.length l))))) as n
    eqn:Hn.
  destruct n as [|n]; [simpl in H; contradiction|].
  apply firstn_skipn_incl in H.
  eapply firstn_incl_le; [|exact H]. lia.
Qed.

(** The reads of a slab open files of [image_paths[i:z_limit]] only. *)
Lemma read_stack_opens (w : env) (i : Z) (s : session) :
  extends (fun ev =>
             exists p paths,
               ev = EvImageOpen p (Image_open w p) /\
               _raw_data (self s) = None /\
               _image_paths (self s) = Assigned paths /\
               In p (getslice paths i (z_limit_of (self s) i)))
          s (fst (read_stack w i (z_limit_of (self s) i) s)).
Proof.
  unfold read_stack, bind at 1, get_self.
  destruct (_raw_data (self s)) as [raw|] eqn:Hraw; [apply extends_refl|].
  unfold _np_from_images, bind at 1, getattr.
  destruct (_image_paths (self s)) as [|paths] eqn:Hp; [apply extends_refl|].
  unfold bind at 1.
  destruct (comprehension_open_run w
              (getslice paths i (z_limit_of (self s) i)) s)
    as [n [out [_ [Hrun _]]]].
  rewrite Hrun.
  assert (Hopens :
    extends (fun ev =>
               exists p paths0,
                 ev = EvImageOpen p (Image_open w p) /\
                 None = None (A:=ndarray) /\
                 Assigned paths = Assigned paths0 /\
                 In p (getslice paths0 i (z_limit_of (self s) i)))
            s
            {| self := self s;
               trace := trace s
                        ++ image_reads w
                             (firstn n (getslice paths i
                                          (z_limit_of (self s) i))) |}).
  { split; [reflexivity|]. eexists. split; [reflexivity|].
    unfold image_reads. apply Forall_forall. intros ev Hin.
    apply in_map_iff in Hin. destruct Hin as [p [Hev Hin]].
    exists p, paths. repeat split; auto. eapply In_firstn. exact Hin. }
  destruct out as [imgs|e]; [|exact Hopens].
  unfold bind.
  pose proof (comprehension_decode_pure w imgs
    {| self := self s;
       trace := trace s
                ++ image_reads w
                     (firstn n (getslice paths i (z_limit_of (self s) i))) |})
    as Hd.
  destruct (comprehension (decode w) imgs _) as [s2 [pl|e]];
    simpl in Hd; subst s2; exact Hopens.
Qed.

Lemma upload_step_opens (w : env) (i : Z) (s : session) :
  extends (fun ev =>
             is_write ev = true \/
             exists p paths,
               ev = EvImageOpen p (Image_open w p) /\
               _raw_data (self s) = None /\
               _image_paths (self s) = Assigned paths /\
               In p (getslice paths i (z_limit_of (self s) i)))
          s (fst (upload_step w i s)).
Proof.
  pose proof (read_stack_opens w i s) as Hr.
  destruct (read_stack w i (z_limit_of (self s) i) s) as [s1 [st|e]] eqn:Hread;
    simpl in Hr.
  - rewrite (upload_step_read w i s s1 st Hread).
    eapply extends_trans.
    + eapply extends_weaken; [|exact Hr]. intros ev Hev. right. exact Hev.
    + eapply retry_loop_extends; [|reflexivity].
      intros s2. eapply extends_weaken; [|apply dataset_setitem_extends].
      intros ev [ds [r Hev]]. subst ev. left. reflexivity.
  - rewrite (upload_step_read_fails w i s s1 e Hread). simpl.
    eapply extends_weaken; [|exact Hr]. intros ev Hev. right. exact Hev.
Qed.

(** X9.  With a positive increment, [upload] never opens a file outside the
    first [shape_zyx[0]] paths of the sorted listing: files beyond the
    declared depth are not read.  Every image it opens belongs to a
    file-sequence session, and a session with an in-memory volume opens no
    file at all.  Apart from opening images, [upload] only writes. *)
Theorem upload_opens_only_the_declared_depth (w : env) (s : session) :
  0 < _upload_increment (self s) ->
  exists evs,
    trace (fst (upload w s)) = trace s ++ evs /\
    Forall (fun ev =>
              is_write ev = true \/
              exists p paths,
                ev = EvImageOpen p (Image_open w p) /\
                _raw_data (self s) = None /\
                _image_paths (self s) = Assigned paths /\
                In p (firstn (Z.to_nat (fst (fst (_shape_zyx (self s))))) paths))
           evs.
Proof.
  intros Hinc.
  destruct (range 0 (fst (fst (_shape_zyx (self s)))) (_upload_increment (self s)))
    as [zs|e] eqn:Hr.
  2:{ unfold range in Hr. destruct (Z.eqb_spec (_upload_increment (self s)) 0);
        [lia|discriminate]. }
  destruct (upload_Forall
              (fun i ev =>
                 is_write ev = true \/
                 exists p paths,
                   ev = EvImageOpen p (Image_open w p) /\
                   _raw_data (self s) = None /\
                   _image_paths (self s) = Assigned paths /\
                   In p (getslice paths i (z_limit_of (self s) i)))
              w s zs Hr) as [_ [evs [Ht Hall]]].
  { intros i s' _ Hs'. rewrite <- Hs'. apply upload_step_opens. }
  exists evs. split; [exact Ht|].
  eapply Forall_impl; [|exact Hall].
  intros ev [i [Hi [Hw|[p [paths [Hev [Hraw [Hp Hin]]]]]]]]; [left; exact Hw|].
  right. exists p, paths. repeat split; auto.
  pose proof (range_nonneg _ _ _ i Hinc Hr Hi) as Hi0.
  pose proof (range_below_stop _ _ _ i Hinc Hr Hi) as Hi1.
  apply (getslice_within paths i (z_limit_of (self s) i)); [| |exact Hin].
  - exact Hi0.
  - unfold z_limit_of. lia.
Qed.

Lemma upload_opens_only_the_declared_depth_witness :
  exists evs,
    trace (fst (upload world_files (session_dir ".tif")))
    = trace (session_dir ".tif") ++ evs /\
    List.length (filter is_image_open evs) = 2%nat.
Proof.
  destruct (upload_opens_only_the_declared_depth world_files
              (session_dir ".tif") eq_refl) as [evs [Ht _]].
  exists evs. split; [exact Ht|].
  vm_compute in Ht. injection Ht as Ht. subst evs. reflexivity.
Defined.

(** *** The order of the listing *)

Lemma insert_sorted_perm (x : string) (l : list string) :
  Permutation (insert_sorted x l) (x :: l).
Proof.
  induction l as [|y l IH]; simpl; [apply Permutation_refl|].
  destruct (path_leb x y); [apply Permutation_refl|].
  eapply Permutation_trans; [apply perm_skip; exact IH|apply perm_swap].
Qed.

Lemma sorted_perm (l : list string) : Permutation (sorted l) l.
Proof.
  induction l as [|x l IH]; simpl; [apply Permutation_refl|].
  eapply Permutation_trans; [apply insert_sorted_perm|].
  apply perm_skip. exact IH.
Qed.

(** The order of paths is total. *)
Lemma parts_leb_total (l1 l2 : list string) :
  parts_leb l1 l2 = false -> parts_leb l2 l1 = true.
Proof.
  revert l2. induction l1 as [|x r1 IH]; intros [|y r2]; simpl;
    try discriminate; try reflexivity.
  rewrite (String.eqb_sym y x).
  destruct (String.eqb x y); [apply IH|].
  intros H. destruct (String.leb_total x y) as [H'|H']; [congruence|exact H'].
Qed.

Lemma insert_sorted_HdRel (a x : string) (l : list string) :
  path_le a x -> HdRel path_le a l -> HdRel path_le a (insert_sorted x l).
Proof.
  intros Hax Hl. destruct l as [|y l]; simpl; [constructor; exact Hax|].
  destruct (path_leb x y); constructor; [exact Hax|].
  inversion Hl. assumption.
Qed.

Lemma insert_sorted_Sorted (x : string) (l : list string) :
  Sorted path_le l -> Sorted path_le (insert_sorted x l).
Proof.
  induction 1 as [|y l Hs IH Hhd]; simpl; [repeat constructor|].
  destruct (path_leb x y) eqn:Hxy.
  - constructor; [constructor; assumption|constructor; exact Hxy].
  - constructor; [exact IH|]. apply insert_sorted_HdRel; [|exact Hhd].
    apply parts_leb_total. exact Hxy.
Qed.

Lemma sorted_Sorted (l : list string) : Sorted path_le (sorted l).
Proof.
  induction l as [|x l IH]; simpl; [constructor|].
  apply insert_sorted_Sorted. exact IH.
Qed.

(** *** Patterns without wildcard *)

Lemma tmatch_star (r : list token) (s : list ascii) :
  tmatch (Star :: r) s
  = tmatch r s || match s with
                  | [] => false
                  | _ :: s' => tmatch (Star :: r) s'
                  end.
Proof. destruct s; reflexivity. Qed.

(** A lone [*] matches every name. *)
Lemma fnmatch_star_all (n : string) : fnmatch n "*" = true.
Proof.
  unfold fnmatch. simpl translate.
  induction (list_ascii_of_string n) as [|c l IH]; [reflexivity|].
  rewrite tmatch_star. simpl. exact IH.
Qed.

Lemma translate_plain (e : string) :
  plain_extension e = true ->
  translate 0 (list_ascii_of_string e) = map Lit (list_ascii_of_string e).
Proof.
  induction e as [|c e IH]; simpl; [reflexivity|].
  intros H. apply andb_prop in H. destruct H as [Hc He].
  unfold plain_char in Hc. apply negb_true_iff in Hc.
  apply orb_false_elim in Hc. destruct Hc as [Hc _].
  apply orb_false_elim in Hc. destruct Hc as [Hc Hb].
  apply orb_false_elim in Hc. destruct Hc as [Hs Hq].
  rewrite Hs, Hq, Hb, (IH He). reflexivity.
Qed.

Lemma tmatch_lits (e s : list ascii) :
  tmatch (map Lit e) s = true <-> s = e.
Proof.
  revert s. induction e as [|d e IH]; intros [|c s]; simpl;
    try (split; [discriminate|discriminate]); try tauto.
  rewrite andb_true_iff, IH. split.
  - intros [Hc Hs]. apply Ascii.eqb_eq in Hc. congruence.
  - intros H. inversion H. split; [apply Ascii.eqb_refl|reflexivity].
Qed.

Lemma tmatch_star_lits (e s : list ascii) :
  tmatch (Star :: map Lit e) s = true <-> exists pre, s = pre ++ e.
Proof.
  induction s as [|c s IH]; rewrite tmatch_star, orb_true_iff, tmatch_lits.
  - split.
    + intros [H|H]; [|discriminate]. exists []. exact H.
    + intros [pre H]. left. destruct pre; [exact H|discriminate].
  - rewrite IH. split.
    + intros [H|[pre H]]; [exists []; exact H|].
      exists (c :: pre). simpl. congruence.
    + intros [[|c' pre] H]; [left; exact H|].
      right. exists pre. simpl in H. congruence.
Qed.

Lemma list_ascii_of_string_app (a b : string) :
  list_ascii_of_string (a ++ b)
  = list_ascii_of_string a ++ list_ascii_of_string b.
Proof.
  induction a as [|c a IH]; simpl; [reflexivity|]. rewrite IH. reflexivity.
Qed.

(** For an extension without wildcard character, the pattern selects the
    names that end with the extension. *)
Lemma fnmatch_plain_suffix (n ext : string) :
  plain_extension ext = true ->
  fnmatch n ("*" ++ ext) = true <-> exists stem, n = (stem ++ ext)%string.
Proof.
  intros Hplain. unfold fnmatch.
  change (list_ascii_of_string ("*" ++ ext))
    with ("*"%char :: list_ascii_of_string ext).
  change (translate 0 ("*"%char :: list_ascii_of_string ext))
    with (Star :: translate 0 (list_ascii_of_string ext)).
  rewrite (translate_plain ext Hplain), tmatch_star_lits. split.
  - intros [pre H]. exists (string_of_list_ascii pre).
    rewrite <- (string_of_list_ascii_of_string n), H.
    rewrite <- (string_of_list_ascii_of_string
                  (string_of_list_ascii pre ++ ext)).
    rewrite list_ascii_of_string_app, list_ascii_of_string_of_list_ascii.
    reflexivity.
  - intros [stem H]. exists (list_ascii_of_string stem).
    rewrite H. apply list_ascii_of_string_app.
Qed.

Lemma plain_no_separator (e : string) :
  plain_extension e = true -> has_separator e = false.
Proof.
  induction e as [|c e IH]; simpl; [reflexivity|].
  intros H. apply andb_prop in H. destruct H as [Hc He].
  unfold plain_char in Hc. apply negb_true_iff in Hc.
  apply orb_false_elim in Hc. destruct Hc as [_ Hc].
  rewrite Hc, (IH He). reflexivity.
Qed.

Lemma plain_no_star (e : string) :
  plain_extension e = true ->
  has_double_star e = false /\
  match e with
  | String d _ => Ascii.eqb d "*"
  | EmptyString => false
  end = false.
Proof.
  induction e as [|c e IH]; simpl; [auto|].
  intros H. apply andb_prop in H. destruct H as [Hc He].
  unfold plain_char in Hc. apply negb_true_iff in Hc.
  apply orb_false_elim in Hc. destruct Hc as [Hc _].
  apply orb_false_elim in Hc. destruct Hc as [Hc _].
  apply orb_false_elim in Hc. destruct Hc as [Hc _].
  rewrite Hc. simpl. destruct (IH He) as [H1 _]. auto.
Qed.

Lemma plain_one_component (e : string) :
  plain_extension e = true -> one_component ("*" ++ e) = true.
Proof.
  intros H. unfold one_component. simpl.
  rewrite (plain_no_separator e H).
  destruct (plain_no_star e H) as [H1 H2]. rewrite H1, H2. reflexivity.
Qed.

(** *** The listing of the image files *)

(** X10.  When [fetch_images] returns, it has returned a non-empty list in
    ascending order of paths that is a rearrangement of what the directory
    yields for the pattern [*] followed by the extension, each path as many
    times as it is yielded, and nothing else.  For a pattern of one
    component, these are the entries of the directory whose name matches the
    pattern, wildcard characters of the extension included; for an extension
    without wildcard character and without separator, they are the entries
    whose name ends with the extension.  It makes no call and leaves the
    instance as it is. *)
Theorem fetch_images_sorted_listing (s s' : session) (l : list string) :
  fetch_images s = (s', Ok l) ->
  let d := _data_dir (self s) in
  let pattern := ("*" ++ _data_extension (self s))%string in
  s' = s /\
  l <> [] /\
  Sorted path_le l /\
  (exists yielded,
     glob_star d (_data_extension (self s)) = Ok yielded /\
     Permutation l yielded) /\
  (one_component pattern = true ->
   forall p, In p l <->
             In p (entries d) /\ fnmatch (path_name p) pattern = true) /\
  (plain_extension (_data_extension (self s)) = true ->
   forall p, In p l <->
             In p (entries d) /\
             exists stem,
               path_name p = (stem ++ _data_extension (self s))%string).
Proof.
  intros H d pattern. unfold fetch_images, bind, get_self in H.
  destruct (glob_star (_data_dir (self s)) (_data_extension (self s)))
    as [yielded|x] eqn:Hg; [|discriminate].
  pose proof (sorted_perm yielded) as Hperm.
  pose proof (sorted_Sorted yielded) as Hsort.
  destruct (sorted yielded) as [|p ps] eqn:Hs; [discriminate|].
  unfold ret in H. inversion H. subst.
  assert (Hone : one_component pattern = true ->
            forall q, In q (p :: ps) <->
                      In q (entries d) /\ fnmatch (path_name q) pattern = true).
  { intros Hc q. unfold glob_star in Hg. fold pattern in Hg. rewrite Hc in Hg.
    inversion Hg as [Hy]. clear Hg. split.
    - intros Hin. apply (Permutation_in _ Hperm) in Hin. rewrite <- Hy in Hin.
      apply filter_In in Hin. exact Hin.
    - intros Hin. apply (Permutation_in _ (Permutation_sym Hperm)).
      rewrite <- Hy. apply filter_In. exact Hin. }
  split; [reflexivity|]. split; [discriminate|]. split; [exact Hsort|].
  split; [exists yielded; auto|]. split; [exact Hone|].
  intros Hplain q.
  rewrite (Hone (plain_one_component _ Hplain) q).
  unfold pattern. rewrite (fnmatch_plain_suffix _ _ Hplain). reflexivity.
Qed.

Lemma fetch_images_sorted_listing_witness :
  fetch_images (session_dir ".t?f")
  = (session_dir ".t?f", Ok ["/data/a.tif"; "/data/b.tif"]) /\
  Sorted path_le ["/data/a.tif"; "/data/b.tif"] /\
  (forall p, In p ["/data/a.tif"; "/data/b.tif"] <->
             In p ["/data/b.tif"; "/data/notes.txt"; "/data/a.tif"] /\
             fnmatch (path_name p) "*.t?f" = true).
Proof.
  split; [reflexivity|].
  pose proof (fetch_images_sorted_listing (session_dir ".t?f") _ _ eq_refl) as H.
  cbv zeta in H. destruct H as [_ [_ [Hsort [_ [Hone _]]]]].
  split; [exact Hsort|]. exact (Hone eq_refl).
Defined.

(** X11.  With the default empty [data_extension] nothing is filtered out:
    on a directory that is not empty, [fetch_images] returns all its entries,
    sorted (so the files of a mixed directory are all taken for images). *)
Theorem fetch_images_default_extension (s : session) :
  _data_extension (self s) = EmptyString ->
  entries (_data_dir (self s)) <> [] ->
  exists l,
    fetch_images s = (s, Ok l) /\
    Sorted path_le l /\
    Permutation l (entries (_data_dir (self s))).
Proof.
  intros Hext Hne. unfold fetch_images, bind, get_self.
  assert (Hall : glob_star (_data_dir (self s)) (_data_extension (self s))
                 = Ok (entries (_data_dir (self s)))).
  { rewrite Hext. unfold glob_star. simpl. f_equal. clear Hne.
    induction (entries (_data_dir (self s))) as [|p l IH]; simpl; [reflexivity|].
    rewrite fnmatch_star_all, IH. reflexivity. }
  rewrite Hall.
  pose proof (sorted_perm (entries (_data_dir (self s)))) as Hperm.
  pose proof (sorted_Sorted (entries (_data_dir (self s)))) as Hsort.
  destruct (sorted (entries (_data_dir (self s)))) as [|p ps] eqn:Hs.
  - apply Permutation_nil in Hperm. congruence.
  - exists (p :: ps). auto.
Qed.

Lemma fetch_images_default_extension_witness :
  exists l,
    fetch_images (session_dir EmptyString) = (session_dir EmptyString, Ok l) /\
    Sorted path_le l /\
    Permutation l ["/data/b.tif"; "/data/notes.txt"; "/data/a.tif"].
Proof.
  exact (fetch_images_default_extension (session_dir EmptyString) eq_refl
           ltac:(discriminate)).
Defined.

(** *** The calls of provisioning *)

Lemma goc_events_counts (obj : resource) (e : list event)
    (out : result resource) :
  goc_events obj e out ->
  Forall (fun ev => is_provisioning ev = true) e /\
  count_fetches e = 1%nat /\
  (count_creates e <= 1)%nat.
Proof.
  intros H. destruct H; unfold count_fetches, count_creates; simpl;
    repeat split; repeat constructor.
Qed.

Lemma count_fetches_app (e1 e2 : list event) :
  count_fetches (e1 ++ e2) = (count_fetches e1 + count_fetches e2)%nat.
Proof.
  unfold count_fetches. rewrite filter_app, length_app. reflexivity.
Qed.

Lemma count_creates_app (e1 e2 : list event) :
  count_creates (e1 ++ e2) = (count_creates e1 + count_creates e2)%nat.
Proof.
  unfold count_creates. rewrite filter_app, length_app. reflexivity.
Qed.

Lemma provisioned_counts (d : resources_dict) (evs : list event)
    (out : result unit) :
  provisioned d evs out ->
  Forall (fun ev => is_provisioning ev = true) evs /\
  (1 <= count_fetches evs <= 5)%nat /\
  (count_creates evs <= count_fetches evs)%nat /\
  (out = Ok tt -> count_fetches evs = 5%nat).
Proof.
  intros H. destruct H;
    repeat match goal with
           | H : goc_events _ _ _ |- _ =>
               apply goc_events_counts in H; destruct H as [? [? ?]]
           end;
    rewrite ?count_fetches_app, ?count_creates_app;
    (split; [repeat (apply Forall_app; split); assumption|]);
    (split; [lia|]); (split; [lia|]);
    intros Hout; try discriminate Hout; lia.
Qed.

(** X12.  Whatever the store answers, [try_create_new] only fetches and
    creates projects: it never writes data, opens no image and does not probe
    the destination.  It makes at most five fetches and never more creations
    than fetches, and it returns normally only after five fetches. *)
Theorem try_create_new_call_budget (w : env) (s : session) :
  exists evs,
    trace (fst (try_create_new w s)) = trace s ++ evs /\
    Forall (fun ev => is_provisioning ev = true) evs /\
    (count_fetches evs <= 5)%nat /\
    (count_creates evs <= count_fetches evs)%nat /\
    (snd (try_create_new w s) = Ok tt -> count_fetches evs = 5%nat).
Proof.
  destruct (resources_outcome s) as [[e Hr]|[d [o' [Hr Hc]]]].
  - exists []. unfold try_create_new, bind. rewrite Hr. simpl.
    rewrite app_nil_r. unfold count_fetches, count_creates. simpl.
    split; [reflexivity|]. split; [constructor|]. split; [lia|].
    split; [lia|]. intros H. discriminate H.
  - destruct (try_create_new_run w s _ d Hr Hc)
      as [evs [s' [out [Hrun [Ht Hp]]]]].
    exists evs. rewrite Hrun. simpl in *.
    destruct (provisioned_counts d evs out Hp) as [Hall [Hf [Hcr Hok]]].
    split; [exact Ht|]. split; [exact Hall|]. split; [lia|].
    split; [exact Hcr|exact Hok].
Qed.

(** *** Provisioning on a hierarchy that already exists *)

Lemma get_or_create_found (w : env) (obj : resource) (s : session) :
  (forall history o, exists p, get_project w history o = Ok p) ->
  exists p,
    _get_or_create w obj s
    = ({| self := self s; trace := trace s ++ [EvGetProject obj (Ok p)] |},
       Ok p).
Proof.
  intros Hfound. destruct (Hfound (trace s) obj) as [p Hp]. exists p.
  unfold _get_or_create, log. rewrite Hp. reflexivity.
Qed.

(** Run the next get-or-create of the goal in a store where every fetch
    succeeds. *)
Ltac found_step w Hfound p :=
  unfold bind at 1;
  match goal with
  | |- context [_get_or_create w ?obj ?s] =>
      let Hg := fresh "Hg" in
      destruct (get_or_create_found w obj s Hfound) as [p Hg];
      rewrite Hg; clear Hg; cbv beta iota; simpl self; simpl trace
  end.

Lemma try_create_new_found_run (w : env) (s s0 : session) (d : resources_dict) :
  (forall history o, exists p, get_project w history o = Ok p) ->
  resources s = (s0, Ok d) ->
  exists p1 true_coord_frame p3 channel_resource p5 s',
    try_create_new w s = (s', Ok tt) /\
    trace s' =
    trace s ++
    [EvGetProject (Collection (r_collection d)) (Ok p1);
     EvGetProject (CoordinateFrame (r_coord_frame d)) (Ok true_coord_frame);
     EvGetProject
       (Experiment (r_experiment (set_coord_frame (name true_coord_frame) d)))
       (Ok p3);
     EvGetProject (Channel (r_channel_resource d)) (Ok channel_resource);
     EvGetProject
       (Channel (r_channel (set_sources [name channel_resource] d))) (Ok p5)].
Proof.
  intros Hfound Hr.
  destruct (resources_outcome s) as [[e Hr']|[d' [o' [Hr' Hc]]]];
    rewrite Hr in Hr'; inversion Hr'. subst d' s0. clear Hr'.
  unfold try_create_new. unfold bind at 1. rewrite Hr.
  found_step w Hfound p1.
  unfold bind at 1. rewrite (resources_cached _ _ d Hc).
  found_step w Hfound cf.
  unfold bind at 1. rewrite (resources_cached _ _ d Hc).
  unfold bind at 1. unfold modify_self at 1. simpl.
  found_step w Hfound p3.
  read_cache.
  found_step w Hfound src.
  read_cache.
  unfold bind at 1. unfold modify_self at 1. simpl.
  found_step w Hfound p5.
  exists p1, cf, p3, src, p5. eexists. unfold ret.
  split; [reflexivity|]. simpl. rewrite <- !app_assoc. reflexivity.
Qed.

(** X13.  In a store where every fetch succeeds (the hierarchy exists
    already), [try_create_new] returns normally after exactly five fetches
    and creates nothing: the collection, the coordinate frame, the
    experiment, the precursor channel and the final channel.  The experiment
    fetched is that of the dictionary with its [coord_frame] replaced by the
    name of the project that the coordinate-frame fetch returned, and the
    final channel fetched is that of the dictionary with its [sources]
    replaced by the list of one name, that of the project that the
    precursor-channel fetch returned. *)
Theorem try_create_new_on_existing_hierarchy
    (w : env) (s s0 : session) (d : resources_dict) :
  (forall history o, exists p, get_project w history o = Ok p) ->
  resources s = (s0, Ok d) ->
  exists p1 true_coord_frame p3 channel_resource p5,
    snd (try_create_new w s) = Ok tt /\
    trace (fst (try_create_new w s)) =
    trace s ++
    [EvGetProject (Collection (r_collection d)) (Ok p1);
     EvGetProject (CoordinateFrame (r_coord_frame d)) (Ok true_coord_frame);
     EvGetProject
       (Experiment
          {| exp_name := exp_name (r_experiment d);
             exp_collection_name := exp_collection_name (r_experiment d);
             coord_frame := name true_coord_frame;
             exp_description := exp_description (r_experiment d) |})
       (Ok p3);
     EvGetProject (Channel (r_channel_resource d)) (Ok channel_resource);
     EvGetProject
       (Channel
          {| ch_name := ch_name (r_channel d);
             ch_collection_name := ch_collection_name (r_channel d);
             ch_experiment_name := ch_experiment_name (r_channel d);
             ch_type := ch_type (r_channel d);
             ch_description := ch_description (r_channel d);
             datatype := datatype (r_channel d);
             sources := [name channel_resource] |})
       (Ok p5)].
Proof.
  intros Hfound Hr.
  destruct (try_create_new_found_run w s s0 d Hfound Hr)
    as [p1 [cf [p3 [src [p5 [s' [Hrun Ht]]]]]]].
  exists p1, cf, p3, src, p5. rewrite Hrun. simpl.
  split; [reflexivity|exact Ht].
Qed.

Lemma try_create_new_on_existing_hierarchy_witness :
  snd (try_create_new world_ok session_uint8) = Ok tt /\
  count_creates (trace (fst (try_create_new world_ok session_uint8))) = 0%nat /\
  map (fun ev => match ev with
                 | EvGetProject (Experiment e) _ => coord_frame e
                 | EvGetProject (Channel c) _ => String.concat "," (sources c)
                 | _ => EmptyString
                 end)
      (skipn 3 (trace (fst (try_create_new world_ok session_uint8))))
  = ["CF_col_exp"; EmptyString; "ch"].
Proof.
  destruct (try_create_new_on_existing_hierarchy world_ok session_uint8 _ _
              (fun _ o => ex_intro _ o eq_refl) eq_refl)
    as [p1 [cf [p3 [src [p5 [Hout Ht]]]]]].
  split; [exact Hout|]. split; [rewrite Ht; reflexivity|].
  vm_compute. reflexivity.
Defined.

(** *** The dictionary after provisioning *)

Lemma resources_outcome_self (s s0 : session) (d : resources_dict) :
  resources s = (s0, Ok d) ->
  _resources (self s0) = Some d /\
  trace s0 = trace s /\
  forall x, set_resources (self s0) x = set_resources (self s) x.
Proof.
  destruct s as [o tr]. intros H.
  destruct (_resources o) as [d0|] eqn:Hr.
  - rewrite (resources_cached o tr d0 Hr) in H. inversion H. subst.
    simpl. auto.
  - destruct (_dtype o) as [|dt] eqn:Hd.
    + rewrite (resources_before_dtype {| self := o; trace := tr |} Hr Hd) in H.
      discriminate H.
    + destruct (default_resources o dt) as [d'|x] eqn:Hv.
      * rewrite (resources_fresh o tr dt d' Hr Hd Hv) in H. inversion H. subst.
        simpl. auto.
      * rewrite (resources_refused o tr dt x Hr Hd Hv) in H. discriminate H.
Qed.

Lemma try_create_new_success_run (w : env) (s s0 : session) (d : resources_dict) :
  resources s = (s0, Ok d) ->
  exists s' out,
    try_create_new w s = (s', out) /\
    (out = Ok tt ->
     exists e1 e2 e3 e4 e5 true_coord_frame channel_resource,
       goc_events (CoordinateFrame (r_coord_frame d)) e2 (Ok true_coord_frame) /\
       goc_events (Channel (r_channel_resource d)) e4 (Ok channel_resource) /\
       trace s' = trace s ++ e1 ++ e2 ++ e3 ++ e4 ++ e5 /\
       self s' =
       set_resources (self s)
         (set_sources [name channel_resource]
            (set_coord_frame (name true_coord_frame) d))).
Proof.
  intros Hr.
  destruct (resources_outcome_self s s0 d Hr) as [Hc [Htr Hset]].
  destruct s0 as [o' tr0]. simpl in Hc, Htr, Hset. subst tr0.
  unfold try_create_new. unfold bind at 1. rewrite Hr.
  unfold bind at 1. goc_step w e1 Hg1 p1 x; simpl;
    [|do 2 eexists; split; [reflexivity|intros H; discriminate H]].
  unfold bind at 1. rewrite (resources_cached _ _ d Hc).
  unfold bind at 1. goc_step w e2 Hg2 cf x; simpl;
    [|do 2 eexists; split; [reflexivity|intros H; discriminate H]].
  unfold bind at 1. rewrite (resources_cached _ _ d Hc).
  unfold bind at 1. unfold modify_self at 1. simpl.
  unfold bind at 1. goc_step w e3 Hg3 p3 x; simpl;
    [|do 2 eexists; split; [reflexivity|intros H; discriminate H]].
  read_cache.
  unfold bind at 1. goc_step w e4 Hg4 src x; simpl;
    [|do 2 eexists; split; [reflexivity|intros H; discriminate H]].
  read_cache.
  unfold bind at 1. unfold modify_self at 1. simpl.
  unfold bind at 1. goc_step w e5 Hg5 p5 x; simpl;
    [|do 2 eexists; split; [reflexivity|intros H; discriminate H]].
  do 2 eexists. split; [reflexivity|]. intros _.
  exists e1, e2, e3, e4, e5, cf, src.
  split; [exact Hg2|]. split; [exact Hg4|]. split.
  - simpl. rewrite <- !app_assoc. reflexivity.
  - simpl. rewrite <- Hset. reflexivity.
Qed.

(** X14.  When [try_create_new] returns normally, the descriptors it
    changed stay changed on the instance: the dictionary that [resources]
    serves afterwards is the one it started from, with the experiment's
    [coord_frame] set to the name of the project that the coordinate-frame
    step returned and the final channel's [sources] set to the name of the
    project that the precursor-channel step returned.  The collection, the
    coordinate frame and the precursor channel are as before, and no other
    attribute of the instance is touched. *)
Theorem try_create_new_updates_the_dictionary
    (w : env) (s s0 s' : session) (d : resources_dict) :
  resources s = (s0, Ok d) ->
  try_create_new w s = (s', Ok tt) ->
  exists e1 e2 e3 e4 e5 true_coord_frame channel_resource,
    goc_events (CoordinateFrame (r_coord_frame d)) e2 (Ok true_coord_frame) /\
    goc_events (Channel (r_channel_resource d)) e4 (Ok channel_resource) /\
    trace s' = trace s ++ e1 ++ e2 ++ e3 ++ e4 ++ e5 /\
    let d' := set_sources [name channel_resource]
                (set_coord_frame (name true_coord_frame) d) in
    self s' = set_resources (self s) d' /\
    resources s' = (s', Ok d') /\
    coord_frame (r_experiment d') = name true_coord_frame /\
    sources (r_channel d') = [name channel_resource] /\
    r_collection d' = r_collection d /\
    r_coord_frame d' = r_coord_frame d /\
    r_channel_resource d' = r_channel_resource d.
Proof.
  intros Hr Hrun.
  destruct (try_create_new_success_run w s s0 d Hr) as [s1 [out [Hrun' Hok]]].
  rewrite Hrun in Hrun'. inversion Hrun'. subst s1 out.
  destruct (Hok eq_refl) as [e1 [e2 [e3 [e4 [e5 [cf [src [Hg2 [Hg4 [Ht Hs]]]]]]]]]].
  exists e1, e2, e3, e4, e5, cf, src.
  split; [exact Hg2|]. split; [exact Hg4|]. split; [exact Ht|].
  cbv zeta. split; [exact Hs|]. split.
  - destruct s' as [o1 tr1]. simpl in Hs. apply resources_cached.
    rewrite Hs. reflexivity.
  - repeat split.
Qed.

Lemma try_create_new_updates_the_dictionary_witness :
  exists s' d' true_coord_frame channel_resource,
    snd (try_create_new world_ok session_uint8) = Ok tt /\
    resources s' = (s', Ok d') /\
    coord_frame (r_experiment d') = name true_coord_frame /\
    sources (r_channel d') = [name channel_resource].
Proof.
  destruct (try_create_new_updates_the_dictionary world_ok session_uint8 _ _ _
              ltac:(vm_compute; reflexivity) ltac:(vm_compute; reflexivity))
    as [e1 [e2 [e3 [e4 [e5 [cf [src [_ [_ [_ Hrest]]]]]]]]]].
  cbv zeta in Hrest. destruct Hrest as [_ [Hres [Hcf [Hsrc _]]]].
  eexists. eexists. exists cf, src.
  split; [vm_compute; reflexivity|]. split; [exact Hres|].
  split; [exact Hcf|exact Hsrc].
Defined.

(** *** The dataset of the writes *)

Lemma upload_step_dataset_args (w : env) (i : Z) (s : session) :
  extends (fun ev =>
             is_image_open ev = true \/
             exists dt key data r,
               _dtype (self s) = Assigned dt /\
               ev = EvSetItem (BossDBInterface_args (self s) dt) key data r)
          s (fst (upload_step w i s)).
Proof.
  pose proof (read_stack_extends w i (z_limit_of (self s) i) s) as Hr.
  destruct (read_stack w i (z_limit_of (self s) i) s) as [s1 [st|e]] eqn:Hread;
    simpl in Hr.
  - rewrite (upload_step_read w i s s1 st Hread).
    eapply extends_trans.
    + eapply extends_weaken; [|exact Hr]. intros ev Hev. left. exact Hev.
    + eapply (retry_loop_extends_on _ _ _ (self s));
        [|apply (read_stack_self w i _ s s1 _ Hread)|reflexivity].
      intros s2 Hs2. unfold dataset_setitem, dataset, bind, get_self, getattr, ret.
      destruct (_dtype (self s2)) as [|dt] eqn:Hdt; simpl.
      * apply extends_refl.
      * apply extends_log. right. rewrite Hs2 in *.
        exists dt. do 3 eexists. split; [exact Hdt|reflexivity].
  - rewrite (upload_step_read_fails w i s s1 e Hread). simpl.
    eapply extends_weaken; [|exact Hr]. intros ev Hev. left. exact Hev.
Qed.

(** The dataset arguments of an instance returned by the constructor. *)
Lemma init_dataset_args (w : env) (a : Args.t) (history tr : list event)
    (bits : bossdb_uri) (o : BossDBUpload) (dt : dtype_value) :
  _parse_bossdb_uri w (Args.url a) = Ok bits ->
  __init__ w a history = (tr, Ok o) ->
  _dtype o = Assigned dt ->
  BossDBInterface_args o dt =
  {| ds_url := Args.url a;
     extents := Args.shape_zyx a;
     ds_dtype :=
       or_else (Args.dtype a)
               (match Args.raw_data a with
                | Some raw => NpDtype (Np.dtype raw)
                | None => PyNone
                end);
     ds_resolution := Args.resolution a;
     ds_voxel_size := (float (fst (fst (Args.voxel_size a))),
                       float (snd (fst (Args.voxel_size a))),
                       float (snd (Args.voxel_size a)));
     ds_voxel_unit := Args.voxel_units a;
     create_new := true;
     source_channel := channel bits |}.
Proof.
  intros Hp Hinit Hdt. rewrite (init_cases w a history bits Hp) in Hinit.
  cbv zeta in Hinit.
  destruct (negb (Args.overwrite a) && exists_ w history (Args.url a)).
  - inversion Hinit. subst. simpl in Hdt. discriminate Hdt.
  - destruct (negb (exists_ w history (Args.url a))); [discriminate|].
    destruct (Args.raw_data a) as [raw|].
    + inversion Hinit. subst. simpl in Hdt. inversion Hdt. reflexivity.
    + destruct (glob_star (Args.data_dir a) (Args.data_extension a)) as [l|x];
        [|discriminate].
      destruct (sorted l); [discriminate|].
      inversion Hinit. subst. simpl in Hdt. inversion Hdt. reflexivity.
Qed.

(** X15.  Every write of [upload] on an instance returned by the
    constructor goes to a dataset opened with the arguments of the session:
    its url, [shape_zyx] as extents, its resolution, its voxel sizes (as
    floats) and unit, [create_new=True], the channel of the parsed URI as
    source channel, and for dtype the caller's [dtype] when it is a non-empty
    string, otherwise the dtype of [raw_data] for an in-memory volume and
    [None] for a file sequence (an empty-string [dtype] counts as not
    given). *)
Theorem session_settings_reach_every_write
    (w w' : env) (a : Args.t) (history tr : list event) (bits : bossdb_uri)
    (o : BossDBUpload) :
  _parse_bossdb_uri w (Args.url a) = Ok bits ->
  __init__ w a history = (tr, Ok o) ->
  exists evs,
    trace (fst (upload w' {| self := o; trace := tr |})) = tr ++ evs /\
    Forall (fun ev =>
              match ev with
              | EvSetItem ds _ _ _ =>
                  ds =
                  {| ds_url := Args.url a;
                     extents := Args.shape_zyx a;
                     ds_dtype :=
                       or_else (Args.dtype a)
                               (match Args.raw_data a with
                                | Some raw => NpDtype (Np.dtype raw)
                                | None => PyNone
                                end);
                     ds_resolution := Args.resolution a;
                     ds_voxel_size :=
                       (float (fst (fst (Args.voxel_size a))),
                        float (snd (fst (Args.voxel_size a))),
                        float (snd (Args.voxel_size a)));
                     ds_voxel_unit := Args.voxel_units a;
                     create_new := true;
                     source_channel := channel bits |}
              | _ => True
              end) evs.
Proof.
  intros Hp Hinit.
  destruct (range 0 (fst (fst (_shape_zyx o))) (_upload_increment o))
    as [zs|e] eqn:Hr.
  - destruct (upload_Forall
                (fun _ ev =>
                   is_image_open ev = true \/
                   exists dt key data r,
                     _dtype o = Assigned dt /\
                     ev = EvSetItem (BossDBInterface_args o dt) key data r)
                w' {| self := o; trace := tr |} zs Hr) as [_ [evs [Ht Hall]]].
    { intros i s' _ Hs'. simpl in Hs'. rewrite <- Hs'.
      apply upload_step_dataset_args. }
    exists evs. split; [exact Ht|].
    eapply Forall_impl; [|exact Hall].
    intros ev [i [_ [Hopen|[dt [key [data [r [Hdt Hev]]]]]]]].
    + destruct ev; simpl in Hopen; try discriminate; exact I.
    + subst ev. apply (init_dataset_args w a history tr bits o dt Hp Hinit Hdt).
  - exists []. unfold upload, bind, get_self. simpl. rewrite Hr. simpl.
    rewrite app_nil_r. auto.
Qed.

Lemma session_settings_reach_every_write_witness :
  exists evs,
    trace (fst (upload world_flaky session0)) = trace session0 ++ evs /\
    Forall (fun ev =>
              match ev with
              | EvSetItem ds _ _ _ =>
                  ds_dtype ds = NpDtype "uint8" /\ extents ds = (4, 2, 1)
              | _ => True
              end) evs.
Proof.
  destruct (session_settings_reach_every_write world_ok world_flaky args0 []
              _ bits0 obj0 eq_refl eq_refl) as [evs [Ht Hall]].
  exists evs. split; [exact Ht|].
  eapply Forall_impl; [|exact Hall].
  intros ev Hev. destruct ev; try exact I. subst ds. split; reflexivity.
Defined.

(** *** Provisioning and the dtype of the session *)

Lemma try_create_new_refused (w : env) (s : session) (e : exn) :
  resources s = (s, Raise e) -> try_create_new w s = (s, Raise e).
Proof.
  intros Hr. unfold try_create_new, bind. rewrite Hr. reflexivity.
Qed.

(** X16.  On an instance that the constructor returned for a caller who
    gave no dtype ([None] or the empty string), provisioning cannot succeed:
    [try_create_new] raises before any call and leaves the instance as it
    is.  Either the dtype was never assigned (the instance left the
    constructor at the overwrite check), or it is the [numpy.dtype] object of
    the in-memory volume, or it is [None] for a file sequence, and the
    channel constructor accepts only a string that names a valid data
    type. *)
Theorem provisioning_needs_a_dtype_string
    (w w' : env) (a : Args.t) (history tr : list event) (bits : bossdb_uri)
    (o : BossDBUpload) :
  _parse_bossdb_uri w (Args.url a) = Ok bits ->
  __init__ w a history = (tr, Ok o) ->
  truthy (Args.dtype a) = false ->
  exists e,
    try_create_new w' {| self := o; trace := tr |}
    = ({| self := o; trace := tr |}, Raise e) /\
    (forall s, _dtype o <> Assigned (PyStr s)).
Proof.
  intros Hp Hinit Hfalsy.
  destruct (init_returns w a history tr bits o Hp Hinit)
    as [Hres [_ [_ [_ [_ [_ [_ Hdt]]]]]]].
  assert (Hor : or_else (Args.dtype a)
                  match Args.raw_data a with
                  | Some raw => NpDtype (Np.dtype raw)
                  | None => PyNone
                  end
                = match Args.raw_data a with
                  | Some raw => NpDtype (Np.dtype raw)
                  | None => PyNone
                  end).
  { unfold or_else. destruct (Args.dtype a); [rewrite Hfalsy|]; reflexivity. }
  rewrite Hor in Hdt. destruct Hdt as [Hdt|Hdt].
  - exists no_dtype_attribute. split.
    + apply try_create_new_before_dtype; assumption.
    + intros s Heq. rewrite Hdt in Heq. discriminate Heq.
  - destruct (default_resources o
                match Args.raw_data a with
                | Some raw => NpDtype (Np.dtype raw)
                | None => PyNone
                end) as [d|x] eqn:Hv.
    + exfalso.
      destruct (proj1 (default_resources_accepts o _) (ex_intro _ d Hv))
        as [s [Hs _]].
      destruct (Args.raw_data a); discriminate Hs.
    + exists x. split.
      * apply try_create_new_refused.
        apply (resources_refused o tr _ x Hres Hdt Hv).
      * intros s Heq. rewrite Hdt in Heq.
        destruct (Args.raw_data a); discriminate Heq.
Qed.

Lemma provisioning_needs_a_dtype_string_witness :
  exists e,
    try_create_new world_500 session0 = (session0, Raise e) /\
    (forall s, _dtype obj0 <> Assigned (PyStr s)).
Proof.
  exact (provisioning_needs_a_dtype_string world_ok world_500 args0 []
           [EvExists "bossdb://col/exp/ch" true] bits0 obj0
           eq_refl eq_refl eq_refl).
Defined.
